(** * Whatsminer API v3.0.1 client: the protocol core and the command line

    A shallow embedding of [whatsminer_cli/core.py]: token derivation
    ([generate_token]), parameter encryption
    ([encrypt_param_aes_ecb_base64], [pkcs7_pad]), the framed TCP exchange
    ([recvall], [send_request_and_receive]), the request builder
    ([call_whatsminer]), the configuration file ([load_miner_conf]) and
    the parameter sources ([parse_scalar], [resolve_param_inputs]),
    together with the Python library functions they call (UTF-8,
    SHA-256, base64, AES, [json.dumps]/[json.loads], [struct.pack],
    [int], [str.strip]), and of [main] of [whatsminer_cli/cli.py] from
    the parsed arguments on. The single-file script [whatsminercli.py]
    holds the same functions.

    Data model.
    - [bytes] values are [list byte].
    - [str] values are lists of code points ([N]); Python keeps lone
      surrogates inside a [str], and [encode_utf8] raises on them.
    - [int] values are [Z].
    - JSON-like Python values are the type [json]; [None] is [JNull].
      Floats, tuples and dictionaries with non-string keys are outside
      the embedding.
    - Functions that can raise return a [result]; functions that touch
      the clock or the network run in the state monad [M] over [world];
      functions that read files take the [filesystem].
    - [parse_scalar] is embedded on ASCII text.
    - The interpreter's resource limits (recursion depth, memory) are
      not part of the embedding; [int(s)] carries its digit limit,
      [str(n)] is embedded without it; [sendall] is taken to succeed on
      an open socket. *)

From Stdlib Require Import String Ascii.
From Stdlib Require Import NArith ZArith List Bool Lia Btauto.
From Stdlib Require Import Strings.Byte.
From Stdlib Require Import DecimalZ.
From Stdlib Require DecimalFacts DecimalPos.
Import ListNotations.

Local Open Scope N_scope.

(* ================================================================== *)
(** * Part I: definitions *)
(* ================================================================== *)

(** ** Python values and exceptions *)

Definition bytes := list byte.
Definition str := list N.

(** Exceptions are kept by class; the [ValueError]s raised by the core
    itself carry which check raised them. *)
Inductive value_error :=
| SaltRequired                 (* core.py line 160 *)
| ParamRequired (cmd : str)    (* core.py line 165 *)
| AesKeyRequired               (* core.py line 81 *)
| AesKeyLength                 (* AES.new: key is not 16, 24 or 32 bytes *)
| EcbAlignment                 (* ECB encrypt/decrypt: data not a multiple of 16 *)
| NonAsciiBase64               (* base64.b64decode of a non-ASCII str *)
| BytesRange.                  (* bytes([n]) with n outside 0..255 *)

Inductive connection_error :=
| ResponseLength               (* core.py line 118 *)
| FullResponse.                (* core.py line 124 *)

Inductive exn :=
| ValueError (why : value_error)
| ConnectionError (why : connection_error)
| UnicodeEncodeError
| UnicodeDecodeError
| JSONDecodeError
| BinasciiError
| IndexError
| StructError
| ZeroDivisionError
| OSError.

(** [Unmodelled]: the run leaves the fragment of Python embedded here
    (a float inside a JSON text). *)
Inductive result (A : Type) :=
| Ok (a : A)
| Raise (e : exn)
| Unmodelled.
Arguments Ok {A} a.
Arguments Raise {A} e.
Arguments Unmodelled {A}.

Definition rbind {A B} (r : result A) (k : A -> result B) : result B :=
  match r with
  | Ok a => k a
  | Raise e => Raise e
  | Unmodelled => Unmodelled
  end.

Declare Scope result_scope.
Delimit Scope result_scope with result.
Notation "x <- r ;; k" := (rbind r (fun x => k))
  (at level 61, r at next level, right associativity) : result_scope.
Notation "' p <- r ;; k" := (rbind r (fun p => k))
  (at level 61, p pattern, r at next level, right associativity) : result_scope.

(** ** Bytes and text *)

Definition byte_of_N (n : N) : byte :=
  match Byte.of_N (n mod 256) with
  | Some b => b
  | None => x00
  end.

(** An ASCII literal as a [str]. *)
Definition text (s : string) : str :=
  map N_of_ascii (list_ascii_of_string s).

(** An ASCII literal as [bytes]. *)
Definition blit (s : string) : bytes := list_byte_of_string s.

Fixpoint str_eqb (a b : str) : bool :=
  match a, b with
  | [], [] => true
  | x :: a', y :: b' => (x =? y) && str_eqb a' b'
  | _, _ => false
  end.

(** [s.startswith(prefix)] *)
Fixpoint startswith (s prefix : str) {struct prefix} : bool :=
  match prefix, s with
  | [], _ => true
  | p :: prefix', c :: s' => (c =? p) && startswith s' prefix'
  | _ :: _, [] => false
  end.

Definition is_surrogate (c : N) : bool := (0xD800 <=? c) && (c <=? 0xDFFF).

(** One code point under [str.encode("utf-8")]. *)
Definition utf8_char (c : N) : result bytes :=
  if c <? 0x80 then Ok [byte_of_N c]
  else if c <? 0x800 then
    Ok [byte_of_N (0xC0 + c / 64); byte_of_N (0x80 + c mod 64)]
  else if c <? 0x10000 then
    if is_surrogate c then Raise UnicodeEncodeError
    else Ok [byte_of_N (0xE0 + c / 4096);
             byte_of_N (0x80 + (c / 64) mod 64);
             byte_of_N (0x80 + c mod 64)]
  else if c <? 0x110000 then
    Ok [byte_of_N (0xF0 + c / 262144);
        byte_of_N (0x80 + (c / 4096) mod 64);
        byte_of_N (0x80 + (c / 64) mod 64);
        byte_of_N (0x80 + c mod 64)]
  else Raise UnicodeEncodeError.

(** [s.encode("utf-8")] *)
Fixpoint encode_utf8 (s : str) : result bytes :=
  match s with
  | [] => Ok []
  | c :: s' =>
      (b <- utf8_char c ;;
       bs <- encode_utf8 s' ;;
       Ok (b ++ bs))%result
  end.

(** The strings [encode_utf8] accepts: code points, none of them a
    surrogate. *)
Definition encodable (s : str) : bool :=
  forallb (fun c => (c <? 0x110000) && negb (is_surrogate c)) s.

(** [b.decode("ascii")] *)
Fixpoint decode_ascii (b : bytes) : result str :=
  match b with
  | [] => Ok []
  | x :: b' =>
      if Byte.to_N x <? 0x80
      then (s <- decode_ascii b' ;; Ok (Byte.to_N x :: s))%result
      else Raise UnicodeDecodeError
  end.

(** [s.encode("ascii", errors="ignore")]: characters outside ASCII are
    dropped. *)
Definition encode_ascii_ignore (s : str) : bytes :=
  map byte_of_N (filter (fun c => c <? 0x80) s).

(** The text of an [int], as [str(n)] and [f"{n}"] give it. *)
Fixpoint uint_digits (u : Decimal.uint) : str :=
  match u with
  | Decimal.Nil => []
  | Decimal.D0 u => 48 :: uint_digits u
  | Decimal.D1 u => 49 :: uint_digits u
  | Decimal.D2 u => 50 :: uint_digits u
  | Decimal.D3 u => 51 :: uint_digits u
  | Decimal.D4 u => 52 :: uint_digits u
  | Decimal.D5 u => 53 :: uint_digits u
  | Decimal.D6 u => 54 :: uint_digits u
  | Decimal.D7 u => 55 :: uint_digits u
  | Decimal.D8 u => 56 :: uint_digits u
  | Decimal.D9 u => 57 :: uint_digits u
  end.

Definition str_of_int (z : Z) : str :=
  match Z.to_int z with
  | Decimal.Pos u => uint_digits u
  | Decimal.Neg u => 45 :: uint_digits u
  end.

(** ** [hashlib.sha256] (FIPS 180-4) on 32-bit words held in [N] *)

Module SHA256.

Definition w32 (x : N) : N := x mod 4294967296.
Definition add32 (x y : N) : N := w32 (x + y).
Definition not32 (x : N) : N := N.lxor x 0xFFFFFFFF.
Definition rotr (n x : N) : N :=
  N.lor (N.shiftr x n) (w32 (N.shiftl x (32 - n))).

Definition Ch (x y z : N) := N.lxor (N.land x y) (N.land (not32 x) z).
Definition Maj (x y z : N) :=
  N.lxor (N.lxor (N.land x y) (N.land x z)) (N.land y z).
Definition Sigma0 (x : N) := N.lxor (N.lxor (rotr 2 x) (rotr 13 x)) (rotr 22 x).
Definition Sigma1 (x : N) := N.lxor (N.lxor (rotr 6 x) (rotr 11 x)) (rotr 25 x).
Definition sigma0 (x : N) := N.lxor (N.lxor (rotr 7 x) (rotr 18 x)) (N.shiftr x 3).
Definition sigma1 (x : N) := N.lxor (N.lxor (rotr 17 x) (rotr 19 x)) (N.shiftr x 10).

(** The constants of FIPS 180-4: the first 32 bits of the fractional
    parts of the cube roots (for [K]) and of the square roots (for
    [H0]) of the first primes. *)
Definition primes : list N :=
  [2; 3; 5; 7; 11; 13; 17; 19; 23; 29; 31; 37; 41; 43; 47; 53; 59; 61; 67; 71; 73; 79;
   83; 89; 97; 101; 103; 107; 109; 113; 127; 131; 137; 139; 149; 151; 157; 163; 167;
   173; 179; 181; 191; 193; 197; 199; 211; 223; 227; 229; 233; 239; 241; 251; 257; 263;
   269; 271; 277; 281; 283; 293; 307; 311].

(** The integer cube root of [n], found bit by bit below bit [k]. *)
Fixpoint cube_root (k : nat) (n r : N) : N :=
  match k with
  | O => r
  | S k' =>
      let r' := r + 2 ^ N.of_nat k' in
      if r' * r' * r' <=? n then cube_root k' n r' else cube_root k' n r
  end.

Definition K : list N :=
  Eval vm_compute in map (fun p => w32 (cube_root 40 (p * 2 ^ 96) 0)) primes.

Definition root_bits (p : N) : N := w32 (N.sqrt (p * 2 ^ 64)).

(** The eight working variables, also the chaining value. *)
Record state := St { sa : N; sb : N; sc : N; sd : N;
                     se : N; sf : N; sg : N; sh : N }.

Definition H0 : state :=
  Eval vm_compute in
    St (root_bits 2) (root_bits 3) (root_bits 5) (root_bits 7)
       (root_bits 11) (root_bits 13) (root_bits 17) (root_bits 19).

(** Message padding: 0x80, zeros up to 56 mod 64, then the bit length
    as 8 big-endian bytes. *)
Definition be_bytes (width : nat) (x : N) : bytes :=
  map (fun i => byte_of_N (N.shiftr x (8 * N.of_nat i))) (rev (seq 0 width)).

Definition pad (m : bytes) : bytes :=
  let len := N.of_nat (List.length m) in
  let zeros := N.to_nat ((119 - len mod 64) mod 64) in
  m ++ x80 :: repeat x00 zeros ++ be_bytes 8 (len * 8).

Definition be_word (a b c d : byte) : N :=
  ((Byte.to_N a * 256 + Byte.to_N b) * 256 + Byte.to_N c) * 256 + Byte.to_N d.

Fixpoint words (b : bytes) : list N :=
  match b with
  | a :: b :: c :: d :: rest => be_word a b c d :: words rest
  | _ => []
  end.

(** The message schedule, kept newest word first while it grows. *)
Fixpoint extend (k : nat) (w : list N) : list N :=
  match k with
  | O => w
  | S k' =>
      let x := add32 (add32 (sigma1 (nth 1 w 0)) (nth 6 w 0))
                     (add32 (sigma0 (nth 14 w 0)) (nth 15 w 0)) in
      extend k' (x :: w)
  end.

Definition schedule (block : list N) : list N := rev (extend 48 (rev block)).

Definition round (s : state) (kw : N * N) : state :=
  let '(k, w) := kw in
  let t1 := add32 (add32 (add32 (add32 (sh s) (Sigma1 (se s))) (Ch (se s) (sf s) (sg s))) k) w in
  let t2 := add32 (Sigma0 (sa s)) (Maj (sa s) (sb s) (sc s)) in
  St (add32 t1 t2) (sa s) (sb s) (sc s) (add32 (sd s) t1) (se s) (sf s) (sg s).

Definition compress (h : state) (block : list N) : state :=
  let s := fold_left round (combine K (schedule block)) h in
  St (add32 (sa h) (sa s)) (add32 (sb h) (sb s)) (add32 (sc h) (sc s))
     (add32 (sd h) (sd s)) (add32 (se h) (se s)) (add32 (sf h) (sf s))
     (add32 (sg h) (sg s)) (add32 (sh h) (sh s)).

Fixpoint blocks (n : nat) (w : list N) : list (list N) :=
  match n with
  | O => []
  | S n' => firstn 16 w :: blocks n' (skipn 16 w)
  end.

Definition digest_bytes (s : state) : bytes :=
  be_bytes 4 (sa s) ++ be_bytes 4 (sb s) ++ be_bytes 4 (sc s) ++ be_bytes 4 (sd s) ++
  be_bytes 4 (se s) ++ be_bytes 4 (sf s) ++ be_bytes 4 (sg s) ++ be_bytes 4 (sh s).

(** [hashlib.sha256(m).digest()] *)
Definition sha256 (m : bytes) : bytes :=
  let w := words (pad m) in
  digest_bytes (fold_left compress (blocks (List.length w / 16) w) H0).

End SHA256.

(** ** [base64.b64encode] *)

Definition b64_alphabet : bytes :=
  blit "ABCDEFGHIJKLMNOPQRSTUVWXYZabcdefghijklmnopqrstuvwxyz0123456789+/".

Definition b64_char (n : N) : byte := nth (N.to_nat n) b64_alphabet "="%byte.

Fixpoint b64encode (b : bytes) : bytes :=
  match b with
  | [] => []
  | [x] =>
      let x := Byte.to_N x in
      [b64_char (x / 4); b64_char (x mod 4 * 16); "="%byte; "="%byte]
  | [x; y] =>
      let x := Byte.to_N x in
      let y := Byte.to_N y in
      [b64_char (x / 4); b64_char (x mod 4 * 16 + y / 16);
       b64_char (y mod 16 * 4); "="%byte]
  | x :: y :: z :: rest =>
      let x := Byte.to_N x in
      let y := Byte.to_N y in
      let z := Byte.to_N z in
      b64_char (x / 4) :: b64_char (x mod 4 * 16 + y / 16) ::
      b64_char (y mod 16 * 4 + z / 64) :: b64_char (z mod 64) :: b64encode rest
  end.

(** ** [base64.b64decode] (non-strict [binascii.a2b_base64]) *)

Fixpoint index_of (c : byte) (l : bytes) (i : N) : option N :=
  match l with
  | [] => None
  | x :: l' => if Byte.eqb c x then Some i else index_of c l' (i + 1)
  end.

Definition b64_value (c : byte) : option N := index_of c b64_alphabet 0.

(** The decoding loop: [quad_pos] counts the sextets of the current
    quad, [leftchar] holds the bits not yet written, [pads] the pad
    characters seen since the last sextet. Characters outside the
    alphabet are skipped. *)
Fixpoint a2b_base64 (quad_pos leftchar pads : N) (s : bytes) : result bytes :=
  match s with
  | [] => if quad_pos =? 0 then Ok [] else Raise BinasciiError
  | c :: s' =>
      if Byte.eqb c "="%byte then
        if 2 <=? quad_pos then
          if 4 <=? quad_pos + (pads + 1) then Ok []
          else a2b_base64 quad_pos leftchar (pads + 1) s'
        else a2b_base64 quad_pos leftchar pads s'
      else
        match b64_value c with
        | None => a2b_base64 quad_pos leftchar pads s'
        | Some v =>
            if quad_pos =? 0 then a2b_base64 1 v 0 s'
            else if quad_pos =? 1 then
              (out <- a2b_base64 2 (v mod 16) 0 s' ;;
               Ok (byte_of_N (leftchar * 4 + v / 16) :: out))%result
            else if quad_pos =? 2 then
              (out <- a2b_base64 3 (v mod 4) 0 s' ;;
               Ok (byte_of_N (leftchar * 16 + v / 4) :: out))%result
            else
              (out <- a2b_base64 0 0 0 s' ;;
               Ok (byte_of_N (leftchar * 64 + v) :: out))%result
        end
  end.

(** [s.encode("ascii")], strict. *)
Fixpoint encode_ascii (s : str) : result bytes :=
  match s with
  | [] => Ok []
  | c :: s' =>
      if c <? 0x80
      then (b <- encode_ascii s' ;; Ok (byte_of_N c :: b))%result
      else Raise UnicodeEncodeError
  end.

(** [base64.b64decode(s)] on a [str]. *)
Definition b64decode (s : str) : result bytes :=
  match encode_ascii s with
  | Ok b => a2b_base64 0 0 0 b
  | Raise _ => Raise (ValueError NonAsciiBase64)
  | Unmodelled => Unmodelled
  end.

(** ** AES (FIPS 197) with the ECB mode of [Cipher.AES] *)

Module AES.

Definition sbox_table : bytes :=
  [x63; x7c; x77; x7b; xf2; x6b; x6f; xc5; x30; x01; x67; x2b; xfe; xd7; xab; x76;
    xca; x82; xc9; x7d; xfa; x59; x47; xf0; xad; xd4; xa2; xaf; x9c; xa4; x72; xc0;
    xb7; xfd; x93; x26; x36; x3f; xf7; xcc; x34; xa5; xe5; xf1; x71; xd8; x31; x15;
    x04; xc7; x23; xc3; x18; x96; x05; x9a; x07; x12; x80; xe2; xeb; x27; xb2; x75;
    x09; x83; x2c; x1a; x1b; x6e; x5a; xa0; x52; x3b; xd6; xb3; x29; xe3; x2f; x84;
    x53; xd1; x00; xed; x20; xfc; xb1; x5b; x6a; xcb; xbe; x39; x4a; x4c; x58; xcf;
    xd0; xef; xaa; xfb; x43; x4d; x33; x85; x45; xf9; x02; x7f; x50; x3c; x9f; xa8;
    x51; xa3; x40; x8f; x92; x9d; x38; xf5; xbc; xb6; xda; x21; x10; xff; xf3; xd2;
    xcd; x0c; x13; xec; x5f; x97; x44; x17; xc4; xa7; x7e; x3d; x64; x5d; x19; x73;
    x60; x81; x4f; xdc; x22; x2a; x90; x88; x46; xee; xb8; x14; xde; x5e; x0b; xdb;
    xe0; x32; x3a; x0a; x49; x06; x24; x5c; xc2; xd3; xac; x62; x91; x95; xe4; x79;
    xe7; xc8; x37; x6d; x8d; xd5; x4e; xa9; x6c; x56; xf4; xea; x65; x7a; xae; x08;
    xba; x78; x25; x2e; x1c; xa6; xb4; xc6; xe8; xdd; x74; x1f; x4b; xbd; x8b; x8a;
    x70; x3e; xb5; x66; x48; x03; xf6; x0e; x61; x35; x57; xb9; x86; xc1; x1d; x9e;
    xe1; xf8; x98; x11; x69; xd9; x8e; x94; x9b; x1e; x87; xe9; xce; x55; x28; xdf;
    x8c; xa1; x89; x0d; xbf; xe6; x42; x68; x41; x99; x2d; x0f; xb0; x54; xbb; x16].

Definition inv_sbox_table : bytes :=
  [x52; x09; x6a; xd5; x30; x36; xa5; x38; xbf; x40; xa3; x9e; x81; xf3; xd7; xfb;
    x7c; xe3; x39; x82; x9b; x2f; xff; x87; x34; x8e; x43; x44; xc4; xde; xe9; xcb;
    x54; x7b; x94; x32; xa6; xc2; x23; x3d; xee; x4c; x95; x0b; x42; xfa; xc3; x4e;
    x08; x2e; xa1; x66; x28; xd9; x24; xb2; x76; x5b; xa2; x49; x6d; x8b; xd1; x25;
    x72; xf8; xf6; x64; x86; x68; x98; x16; xd4; xa4; x5c; xcc; x5d; x65; xb6; x92;
    x6c; x70; x48; x50; xfd; xed; xb9; xda; x5e; x15; x46; x57; xa7; x8d; x9d; x84;
    x90; xd8; xab; x00; x8c; xbc; xd3; x0a; xf7; xe4; x58; x05; xb8; xb3; x45; x06;
    xd0; x2c; x1e; x8f; xca; x3f; x0f; x02; xc1; xaf; xbd; x03; x01; x13; x8a; x6b;
    x3a; x91; x11; x41; x4f; x67; xdc; xea; x97; xf2; xcf; xce; xf0; xb4; xe6; x73;
    x96; xac; x74; x22; xe7; xad; x35; x85; xe2; xf9; x37; xe8; x1c; x75; xdf; x6e;
    x47; xf1; x1a; x71; x1d; x29; xc5; x89; x6f; xb7; x62; x0e; xaa; x18; xbe; x1b;
    xfc; x56; x3e; x4b; xc6; xd2; x79; x20; x9a; xdb; xc0; xfe; x78; xcd; x5a; xf4;
    x1f; xdd; xa8; x33; x88; x07; xc7; x31; xb1; x12; x10; x59; x27; x80; xec; x5f;
    x60; x51; x7f; xa9; x19; xb5; x4a; x0d; x2d; xe5; x7a; x9f; x93; xc9; x9c; xef;
    xa0; xe0; x3b; x4d; xae; x2a; xf5; xb0; xc8; xeb; xbb; x3c; x83; x53; x99; x61;
    x17; x2b; x04; x7e; xba; x77; xd6; x26; xe1; x69; x14; x63; x55; x21; x0c; x7d].

Definition sbox (b : byte) : byte := nth (Byte.to_nat b) sbox_table x00.
Definition inv_sbox (b : byte) : byte := nth (Byte.to_nat b) inv_sbox_table x00.

Definition bxor (a b : byte) : byte :=
  byte_of_N (N.lxor (Byte.to_N a) (Byte.to_N b)).

(** Multiplication by x in GF(2^8) modulo x^8 + x^4 + x^3 + x + 1. *)
Definition xtime (a : byte) : byte :=
  let n := Byte.to_N a in
  byte_of_N (if n <? 128 then 2 * n else N.lxor (2 * n) 0x11b).

Definition mul2 := xtime.
Definition mul3 (a : byte) := bxor (xtime a) a.
Definition mul9 (a : byte) := bxor (xtime (xtime (xtime a))) a.
Definition mul11 (a : byte) := bxor (bxor (xtime (xtime (xtime a))) (xtime a)) a.
Definition mul13 (a : byte) := bxor (bxor (xtime (xtime (xtime a))) (xtime (xtime a))) a.
Definition mul14 (a : byte) :=
  bxor (bxor (xtime (xtime (xtime a))) (xtime (xtime a))) (xtime a).

(** A block is the list of its 16 bytes in input order, so column [c]
    of the FIPS state is bytes [4c .. 4c+3]. *)
Definition sub_bytes (s : bytes) : bytes := map sbox s.
Definition inv_sub_bytes (s : bytes) : bytes := map inv_sbox s.

Definition pick (s : bytes) (idx : list nat) : bytes :=
  map (fun i => nth i s x00) idx.

Definition shift_rows (s : bytes) : bytes :=
  pick s [0; 5; 10; 15; 4; 9; 14; 3; 8; 13; 2; 7; 12; 1; 6; 11]%nat.
Definition inv_shift_rows (s : bytes) : bytes :=
  pick s [0; 13; 10; 7; 4; 1; 14; 11; 8; 5; 2; 15; 12; 9; 6; 3]%nat.

Definition bxor4 (a b c d : byte) : byte := bxor (bxor a b) (bxor c d).

Fixpoint mix_columns (s : bytes) : bytes :=
  match s with
  | a0 :: a1 :: a2 :: a3 :: rest =>
      bxor4 (mul2 a0) (mul3 a1) a2 a3 ::
      bxor4 a0 (mul2 a1) (mul3 a2) a3 ::
      bxor4 a0 a1 (mul2 a2) (mul3 a3) ::
      bxor4 (mul3 a0) a1 a2 (mul2 a3) :: mix_columns rest
  | _ => []
  end.

Fixpoint inv_mix_columns (s : bytes) : bytes :=
  match s with
  | a0 :: a1 :: a2 :: a3 :: rest =>
      bxor4 (mul14 a0) (mul11 a1) (mul13 a2) (mul9 a3) ::
      bxor4 (mul9 a0) (mul14 a1) (mul11 a2) (mul13 a3) ::
      bxor4 (mul13 a0) (mul9 a1) (mul14 a2) (mul11 a3) ::
      bxor4 (mul11 a0) (mul13 a1) (mul9 a2) (mul14 a3) :: inv_mix_columns rest
  | _ => []
  end.

Fixpoint xor_bytes (a b : bytes) : bytes :=
  match a, b with
  | x :: a', y :: b' => bxor x y :: xor_bytes a' b'
  | _, _ => []
  end.

Definition add_round_key (s k : bytes) : bytes := xor_bytes s k.

(** Key expansion. Words are 4-byte lists; [w] holds the words made so
    far, newest first; [i] is the index of the word being made. *)
Definition rot_word (w : bytes) : bytes :=
  match w with
  | a :: rest => rest ++ [a]
  | [] => []
  end.

Fixpoint expand (n nk i : nat) (rcon : byte) (w : list bytes) : list bytes :=
  match n with
  | O => w
  | S n' =>
      let prev := nth 0 w [] in
      let back := nth (nk - 1) w [] in
      if (i mod nk =? 0)%nat then
        let temp := xor_bytes (map sbox (rot_word prev)) [rcon; x00; x00; x00] in
        expand n' nk (S i) (xtime rcon) (xor_bytes back temp :: w)
      else if ((6 <? nk) && (i mod nk =? 4))%nat then
        expand n' nk (S i) rcon (xor_bytes back (map sbox prev) :: w)
      else
        expand n' nk (S i) rcon (xor_bytes back prev :: w)
  end.

Fixpoint chunks (size n : nat) (b : bytes) : list bytes :=
  match n with
  | O => []
  | S n' => firstn size b :: chunks size n' (skipn size b)
  end.

(** The [nk + 7] round keys of a key of [nk] words. *)
Definition round_keys (key : bytes) : list bytes :=
  let nk := (List.length key / 4)%nat in
  let w := rev (expand (4 * (nk + 7) - nk) nk nk x01 (rev (chunks 4 nk key))) in
  chunks 16 (nk + 7) (concat w).

Fixpoint rounds (ks : list bytes) (s : bytes) : bytes :=
  match ks with
  | [] => s
  | [k] => add_round_key (shift_rows (sub_bytes s)) k
  | k :: ks' => rounds ks' (add_round_key (mix_columns (shift_rows (sub_bytes s))) k)
  end.

Fixpoint inv_rounds (ks : list bytes) (s : bytes) : bytes :=
  match ks with
  | [] => s
  | [k] => inv_sub_bytes (inv_shift_rows (add_round_key s k))
  | k :: ks' =>
      inv_sub_bytes (inv_shift_rows (inv_mix_columns (add_round_key (inv_rounds ks' s) k)))
  end.

Definition encrypt_block (ks : list bytes) (b : bytes) : bytes :=
  match ks with
  | [] => b
  | k0 :: ks' => rounds ks' (add_round_key b k0)
  end.

Definition decrypt_block (ks : list bytes) (b : bytes) : bytes :=
  match ks with
  | [] => b
  | k0 :: ks' => add_round_key (inv_rounds ks' b) k0
  end.

(** A cipher object in ECB mode is its round keys. *)
Definition cipher := list bytes.

(** [AES.new(key, AES.MODE_ECB)] *)
Definition new (key : bytes) : result cipher :=
  let n := List.length key in
  if ((n =? 16) || (n =? 24) || (n =? 32))%nat
  then Ok (round_keys key)
  else Raise (ValueError AesKeyLength).

Definition ecb (f : bytes -> bytes) (data : bytes) : result bytes :=
  let n := List.length data in
  if (n mod 16 =? 0)%nat
  then Ok (concat (map f (chunks 16 (n / 16) data)))
  else Raise (ValueError EcbAlignment).

(** [cipher.encrypt(data)] and [cipher.decrypt(data)] *)
Definition encrypt (c : cipher) (data : bytes) : result bytes :=
  ecb (encrypt_block c) data.
Definition decrypt (c : cipher) (data : bytes) : result bytes :=
  ecb (decrypt_block c) data.

End AES.

(** ** [bytes.decode("utf-8", errors="ignore")]

    CPython reports an invalid start byte as an error of one byte, an
    invalid continuation as an error covering the bytes before it, and a
    sequence cut by the end of the input as an error up to the end;
    [ignore] drops the bytes of each error. *)

Definition is_cont (b : N) : bool := (0x80 <=? b) && (b <? 0xC0).

Fixpoint decode_utf8_codes (b : list N) : str :=
  match b with
  | [] => []
  | x :: r1 =>
      if x <? 0x80 then x :: decode_utf8_codes r1
      else if x <? 0xC2 then decode_utf8_codes r1
      else if x <? 0xE0 then
        match r1 with
        | [] => []
        | y :: r2 =>
            if is_cont y
            then ((x - 0xC0) * 64 + (y - 0x80)) :: decode_utf8_codes r2
            else decode_utf8_codes r1
        end
      else if x <? 0xF0 then
        match r1 with
        | [] => []
        | y :: r2 =>
            if negb (is_cont y) || (if y <? 0xA0 then x =? 0xE0 else x =? 0xED)
            then decode_utf8_codes r1
            else
              match r2 with
              | [] => []
              | z :: r3 =>
                  if is_cont z
                  then ((x - 0xE0) * 4096 + (y - 0x80) * 64 + (z - 0x80))
                         :: decode_utf8_codes r3
                  else decode_utf8_codes r2
              end
        end
      else if x <? 0xF5 then
        match r1 with
        | [] => []
        | y :: r2 =>
            if negb (is_cont y) || (if y <? 0x90 then x =? 0xF0 else x =? 0xF4)
            then decode_utf8_codes r1
            else
              match r2 with
              | [] => []
              | z :: r3 =>
                  if negb (is_cont z) then decode_utf8_codes r2
                  else
                    match r3 with
                    | [] => []
                    | t :: r4 =>
                        if is_cont t
                        then ((x - 0xF0) * 262144 + (y - 0x80) * 4096
                              + (z - 0x80) * 64 + (t - 0x80))
                               :: decode_utf8_codes r4
                        else decode_utf8_codes r3
                    end
              end
        end
      else decode_utf8_codes r1
  end.

Definition decode_utf8_ignore (b : bytes) : str :=
  decode_utf8_codes (map Byte.to_N b).

(** ** JSON values, [json.dumps] and [json.loads] *)

(** The Python values the embedding covers. A [dict] keeps its items in
    insertion order; its keys are strings and pairwise different. *)
Unset Elimination Schemes.
Inductive json :=
| JNull
| JBool (b : bool)
| JInt (z : Z)
| JStr (s : str)
| JList (l : list json)
| JDict (d : list (str * json)).
Set Elimination Schemes.

(** [d[k] = v]: an existing key keeps its place, a new key goes last. *)
Fixpoint dict_set (k : str) (v : json) (d : list (str * json)) : list (str * json) :=
  match d with
  | [] => [(k, v)]
  | (k', v') :: d' =>
      if str_eqb k k' then (k, v) :: d' else (k', v') :: dict_set k v d'
  end.

(** [d.get(k)] *)
Fixpoint dict_get (k : str) (d : list (str * json)) : option json :=
  match d with
  | [] => None
  | (k', v) :: d' => if str_eqb k k' then Some v else dict_get k d'
  end.

(** [k in d] *)
Definition dict_has (k : str) (d : list (str * json)) : bool :=
  match dict_get k d with
  | Some _ => true
  | None => false
  end.

Definition dict_keys (d : list (str * json)) : list str := map fst d.

Definition hex_char (n : N) : N := if n <? 10 then 48 + n else 87 + n.

(** One character of a string literal as the encoder writes it with
    [ensure_ascii=False]: the quote, the backslash and the control
    characters are escaped, everything else is copied. *)
Definition escape_char (c : N) : str :=
  if c =? 34 then [92; 34]
  else if c =? 92 then [92; 92]
  else if c =? 10 then [92; 110]
  else if c =? 13 then [92; 114]
  else if c =? 9 then [92; 116]
  else if c =? 12 then [92; 102]
  else if c =? 8 then [92; 98]
  else if c <? 32 then [92; 117; 48; 48; hex_char (c / 16); hex_char (c mod 16)]
  else [c].

Definition encode_basestring (s : str) : str :=
  34 :: flat_map escape_char s ++ [34].

(** [json.dumps(v, separators=(",", ":"), ensure_ascii=False)] *)
Fixpoint dumps (v : json) : str :=
  match v with
  | JNull => text "null"
  | JBool true => text "true"
  | JBool false => text "false"
  | JInt z => str_of_int z
  | JStr s => encode_basestring s
  | JList l =>
      91 :: (fix items (l : list json) : str :=
               match l with
               | [] => []
               | [x] => dumps x
               | x :: l' => dumps x ++ 44 :: items l'
               end) l ++ [93]
  | JDict d =>
      123 :: (fix pairs (d : list (str * json)) : str :=
                match d with
                | [] => []
                | [(k, x)] => encode_basestring k ++ 58 :: dumps x
                | (k, x) :: d' => encode_basestring k ++ 58 :: dumps x ++ 44 :: pairs d'
                end) d ++ [125]
  end.

Definition is_ws (c : N) : bool :=
  (c =? 32) || (c =? 9) || (c =? 10) || (c =? 13).

Fixpoint skip_ws (s : str) : str :=
  match s with
  | c :: s' => if is_ws c then skip_ws s' else s
  | [] => []
  end.

Definition is_digit (c : N) : bool := (48 <=? c) && (c <=? 57).

Definition hex_value (c : N) : option N :=
  if is_digit c then Some (c - 48)
  else if (97 <=? c) && (c <=? 102) then Some (c - 87)
  else if (65 <=? c) && (c <=? 70) then Some (c - 55)
  else None.

Definition hex4_value (a b c d : N) : option N :=
  match hex_value a, hex_value b, hex_value c, hex_value d with
  | Some a, Some b, Some c, Some d => Some (((a * 16 + b) * 16 + c) * 16 + d)
  | _, _, _, _ => None
  end.

Definition is_high_surrogate (c : N) : bool := (0xD800 <=? c) && (c <=? 0xDBFF).
Definition is_low_surrogate (c : N) : bool := (0xDC00 <=? c) && (c <=? 0xDFFF).
Definition join_surrogates (hi lo : N) : N :=
  0x10000 + (hi - 0xD800) * 1024 + (lo - 0xDC00).

Definition simple_escape (e : N) : option N :=
  if e =? 34 then Some 34
  else if e =? 92 then Some 92
  else if e =? 47 then Some 47
  else if e =? 98 then Some 8
  else if e =? 102 then Some 12
  else if e =? 110 then Some 10
  else if e =? 114 then Some 13
  else if e =? 116 then Some 9
  else None.

Definition cons_char (c : N) (r : result (str * str)) : result (str * str) :=
  ('(t, rest) <- r ;; Ok (c :: t, rest))%result.

(** The string scanner in strict mode, started after the opening
    quote: the decoded string and the input left after the closing
    quote. *)
Fixpoint scanstring (s : str) : result (str * str) :=
  match s with
  | [] => Raise JSONDecodeError
  | c :: s1 =>
      if c =? 34 then Ok ([], s1)
      else if c =? 92 then
        match s1 with
        | [] => Raise JSONDecodeError
        | e :: s2 =>
            if e =? 117 then
              match s2 with
              | h1 :: h2 :: h3 :: h4 :: s6 =>
                  match hex4_value h1 h2 h3 h4 with
                  | None => Raise JSONDecodeError
                  | Some c1 =>
                      match s6 with
                      | b :: u :: l1 :: l2 :: l3 :: l4 :: s12 =>
                          if is_high_surrogate c1 && (b =? 92) && (u =? 117) then
                            match hex4_value l1 l2 l3 l4 with
                            | None => Raise JSONDecodeError
                            | Some c2 =>
                                if is_low_surrogate c2
                                then cons_char (join_surrogates c1 c2) (scanstring s12)
                                else cons_char c1 (scanstring s6)
                            end
                          else cons_char c1 (scanstring s6)
                      | _ => cons_char c1 (scanstring s6)
                      end
                  end
              | _ => Raise JSONDecodeError
              end
            else
              match simple_escape e with
              | Some c' => cons_char c' (scanstring s2)
              | None => Raise JSONDecodeError
              end
        end
      else if c <=? 31 then Raise JSONDecodeError
      else cons_char c (scanstring s1)
  end.

(** The digits at the head of the input, as a number, and the rest. *)
Fixpoint scan_digits (acc : Z) (s : str) : Z * str :=
  match s with
  | c :: s' =>
      if is_digit c then scan_digits (acc * 10 + Z.of_N (c - 48)) s' else (acc, s)
  | [] => (acc, [])
  end.

(** Does a fraction or an exponent follow the integer part? Then the
    literal is a float. *)
Definition float_follows (s : str) : bool :=
  match s with
  | c :: d :: s' =>
      if c =? 46 then is_digit d
      else if (c =? 101) || (c =? 69) then
        if (d =? 45) || (d =? 43)
        then match s' with
             | x :: _ => is_digit x
             | [] => false
             end
        else is_digit d
      else false
  | _ => false
  end.

(** The number scanner, on an input whose sign has been read. *)
Definition scan_number (negative : bool) (s : str) : result (json * str) :=
  match s with
  | c :: s' =>
      if is_digit c then
        let '(n, rest) := if c =? 48 then (0%Z, s') else scan_digits 0 s in
        if float_follows rest then Unmodelled
        else Ok (JInt (if negative then (- n)%Z else n), rest)
      else Raise JSONDecodeError
  | [] => Raise JSONDecodeError
  end.

(** The object under construction receives each pair with [d[k] = v]. *)
Definition dict_of_pairs (l : list (str * json)) : list (str * json) :=
  fold_left (fun d kv => dict_set (fst kv) (snd kv) d) l [].

(** [scan_once], the array loop and the object loop. Every call spends
    one unit of [fuel]; [loads] gives enough of it. *)
Fixpoint scan_once (fuel : nat) (s : str) {struct fuel} : result (json * str) :=
  match fuel with
  | O => Unmodelled
  | S f =>
      match s with
      | [] => Raise JSONDecodeError
      | c :: s' =>
          if c =? 34 then
            ('(t, rest) <- scanstring s' ;; Ok (JStr t, rest))%result
          else if c =? 123 then
            match skip_ws s' with
            | x :: r => if x =? 125 then Ok (JDict [], r)
                        else ('(l, rest) <- object_items f (x :: r) ;;
                              Ok (JDict (dict_of_pairs l), rest))%result
            | [] => Raise JSONDecodeError
            end
          else if c =? 91 then
            match skip_ws s' with
            | x :: r => if x =? 93 then Ok (JList [], r)
                        else ('(l, rest) <- array_items f (x :: r) ;;
                              Ok (JList l, rest))%result
            | [] => Raise JSONDecodeError
            end
          else if startswith s (text "null") then Ok (JNull, skipn 4 s)
          else if startswith s (text "true") then Ok (JBool true, skipn 4 s)
          else if startswith s (text "false") then Ok (JBool false, skipn 5 s)
          else if startswith s (text "NaN") then Unmodelled
          else if startswith s (text "Infinity") then Unmodelled
          else if startswith s (text "-Infinity") then Unmodelled
          else if c =? 45 then scan_number true s'
          else scan_number false s
      end
  end

with array_items (fuel : nat) (s : str) {struct fuel} : result (list json * str) :=
  match fuel with
  | O => Unmodelled
  | S f =>
      ('(v, rest) <- scan_once f s ;;
       match skip_ws rest with
       | x :: r =>
           if x =? 93 then Ok ([v], r)
           else if x =? 44 then
             ('(l, rest') <- array_items f (skip_ws r) ;; Ok (v :: l, rest'))
           else Raise JSONDecodeError
       | [] => Raise JSONDecodeError
       end)%result
  end

with object_items (fuel : nat) (s : str) {struct fuel} : result (list (str * json) * str) :=
  match fuel with
  | O => Unmodelled
  | S f =>
      match s with
      | q :: s' =>
          if q =? 34 then
            ('(k, rest) <- scanstring s' ;;
             match skip_ws rest with
             | x :: r =>
                 if x =? 58 then
                   ('(v, rest') <- scan_once f (skip_ws r) ;;
                    match skip_ws rest' with
                    | y :: r' =>
                        if y =? 125 then Ok ([(k, v)], r')
                        else if y =? 44 then
                          ('(l, rest'') <- object_items f (skip_ws r') ;;
                           Ok ((k, v) :: l, rest''))
                        else Raise JSONDecodeError
                    | [] => Raise JSONDecodeError
                    end)
                 else Raise JSONDecodeError
             | [] => Raise JSONDecodeError
             end)%result
          else Raise JSONDecodeError
      | [] => Raise JSONDecodeError
      end
  end.

(** [json.loads(s)] on a [str]. *)
Definition loads (s : str) : result json :=
  if startswith s [0xFEFF] then Raise JSONDecodeError
  else
    ('(v, rest) <- scan_once (2 * List.length s + 1) (skip_ws s) ;;
     match skip_ws rest with
     | [] => Ok v
     | _ :: _ => Raise JSONDecodeError
     end)%result.

(** ** Digest and token (core.py lines 43-68) *)

(** [sha256_digest_bytes(s)] *)
Definition sha256_digest_bytes (s : str) : result bytes :=
  (b <- encode_utf8 s ;; Ok (SHA256.sha256 b))%result.

(** [generate_token(cmd, account_password, salt, ts)] *)
Definition generate_token (cmd account_password salt : str) (ts : Z)
  : result (str * bytes) :=
  (let concat := cmd ++ account_password ++ salt ++ str_of_int ts in
   digest <- sha256_digest_bytes concat ;;
   b64 <- decode_ascii (b64encode digest) ;;
   let token := firstn 8 b64 in
   Ok (token, digest))%result.

(** ** Padding and parameter encryption (core.py lines 49-53, 71-87) *)

(** [pkcs7_pad(data, block_size)]; [bytes([pad_len])] wants
    [0 <= pad_len < 256]. *)
Definition pkcs7_pad (data : bytes) (block_size : Z) : result bytes :=
  if (block_size =? 0)%Z then Raise ZeroDivisionError
  else
    let pad_len := (block_size - Z.of_nat (List.length data) mod block_size)%Z in
    if ((0 <=? pad_len) && (pad_len <? 256))%Z
    then Ok (data ++ repeat (byte_of_N (Z.to_N pad_len)) (Z.to_nat pad_len))
    else Raise (ValueError BytesRange).

(** [encrypt_param_aes_ecb_base64(param_obj, aes_key_bytes)] *)
Definition encrypt_param_aes_ecb_base64 (param_obj : json) (aes_key_bytes : option bytes)
  : result str :=
  match aes_key_bytes with
  | None => Raise (ValueError AesKeyRequired)
  | Some key =>
      (let json_str := dumps param_obj in
       data <- encode_utf8 json_str ;;
       padded <- pkcs7_pad data 16 ;;
       cipher <- AES.new key ;;
       ct <- AES.encrypt cipher padded ;;
       decode_ascii (b64encode ct))%result
  end.

(** The way back, as the test suite does it (tests/test_core.py lines
    18-20 and 62-63): [_unpad_pkcs7] and the decryption before it. A
    slice [data[:-0]] is empty. *)
Definition unpad_pkcs7 (data : bytes) : result bytes :=
  match rev data with
  | [] => Raise IndexError
  | last :: _ =>
      let pad_len := Byte.to_nat last in
      Ok (if (pad_len =? 0)%nat then []
          else firstn (List.length data - pad_len) data)
  end.

Definition decrypt_param (encoded : str) (key : bytes) : result bytes :=
  (cipher <- AES.new key ;;
   ct <- b64decode encoded ;;
   padded <- AES.decrypt cipher ct ;;
   unpad_pkcs7 padded)%result.

(** ** The clock and the network *)

(** What the peer delivers on the connection, in order: a non-empty
    run of bytes, or a failure of the read (timeout, reset). After the
    last event the stream is at end of file. *)
Inductive rx_event :=
| RxData (b : byte) (rest : bytes)
| RxFail.

Inductive net_event :=
| Connect (host : str) (port timeout : Z)
| Send (data : bytes)
| Recv (bufsize : N)
| Close.

(** [clock]: the unix time in seconds. [peer]: [None] when the peer
    cannot be reached, otherwise what it will deliver. [trace]: the
    socket calls made so far. *)
Record world := World {
  clock : Z;
  peer : option (list rx_event);
  trace : list net_event
}.

Definition M (A : Type) : Type := world -> result A * world.

Definition ret {A} (a : A) : M A := fun w => (Ok a, w).
Definition raise {A} (e : exn) : M A := fun w => (Raise e, w).
Definition lift {A} (r : result A) : M A := fun w => (r, w).

Definition bind {A B} (m : M A) (k : A -> M B) : M B :=
  fun w =>
    match m w with
    | (Ok a, w') => k a w'
    | (Raise e, w') => (Raise e, w')
    | (Unmodelled, w') => (Unmodelled, w')
    end.

Declare Scope monad_scope.
Delimit Scope monad_scope with monad.
Notation "x <- m ;; k" := (bind m (fun x => k))
  (at level 61, m at next level, right associativity) : monad_scope.
Notation "' p <- m ;; k" := (bind m (fun p => k))
  (at level 61, p pattern, m at next level, right associativity) : monad_scope.
Notation "m ;; k" := (bind m (fun _ => k))
  (at level 61, right associativity) : monad_scope.

Definition log (e : net_event) (w : world) : world :=
  World (clock w) (peer w) (trace w ++ [e]).

(** [now_ts_int()] *)
Definition now_ts_int : M Z := fun w => (Ok (clock w), w).

(** [socket.create_connection((host, port), timeout=timeout)] *)
Definition create_connection (host : str) (port timeout : Z) : M unit :=
  fun w =>
    match peer w with
    | Some _ => (Ok tt, log (Connect host port timeout) w)
    | None => (Raise OSError, log (Connect host port timeout) w)
    end.

(** [s.sendall(data)] *)
Definition sendall (data : bytes) : M unit :=
  fun w => (Ok tt, log (Send data) w).

Definition unread (d : bytes) (rest : list rx_event) : list rx_event :=
  match d with
  | [] => rest
  | b :: d' => RxData b d' :: rest
  end.

(** [s.recv(bufsize)], for a positive [bufsize]: at most [bufsize]
    bytes of the next run, and the empty string at end of file. *)
Definition recv (bufsize : N) : M bytes :=
  fun w =>
    let w' := log (Recv bufsize) w in
    match peer w with
    | None => (Raise OSError, w')
    | Some [] => (Ok [], w')
    | Some (RxFail :: rest) =>
        (Raise OSError, World (clock w') (Some rest) (trace w'))
    | Some (RxData b d :: rest) =>
        let k := N.to_nat bufsize in
        (Ok (firstn k (b :: d)),
         World (clock w') (Some (unread (skipn k (b :: d)) rest)) (trace w'))
    end.

(** Leaving the [with] block closes the socket, also on an exception. *)
Definition with_connection {A} (host : str) (port timeout : Z) (body : M A) : M A :=
  fun w =>
    match create_connection host port timeout w with
    | (Ok _, w1) => let '(r, w2) := body w1 in (r, log Close w2)
    | (Raise e, w1) => (Raise e, w1)
    | (Unmodelled, w1) => (Unmodelled, w1)
    end.

(** The bytes a stream delivers before its first failure, and whether
    it then ends with end of file rather than with a failure. *)
Fixpoint rx_bytes (evs : list rx_event) : bytes :=
  match evs with
  | RxData b d :: rest => b :: d ++ rx_bytes rest
  | _ => []
  end.

Fixpoint rx_eof (evs : list rx_event) : bool :=
  match evs with
  | [] => true
  | RxData _ _ :: rest => rx_eof rest
  | RxFail :: _ => false
  end.

Definition is_recv (e : net_event) : bool :=
  match e with
  | Recv _ => true
  | _ => false
  end.

(** ** Transport (core.py lines 90-129) *)

Definition DEFAULT_PORT : Z := 4433.
Definition DEFAULT_TIMEOUT : Z := 10.

(** [struct.pack("<I", n)] *)
Definition pack_u32_le (n : N) : result bytes :=
  if n <? 4294967296
  then Ok [byte_of_N n; byte_of_N (n / 256); byte_of_N (n / 65536); byte_of_N (n / 16777216)]
  else Raise StructError.

(** [struct.unpack("<I", b)[0]] *)
Definition unpack_u32_le (b : bytes) : result N :=
  match b with
  | [b0; b1; b2; b3] =>
      Ok (Byte.to_N b0 + 256 * (Byte.to_N b1 + 256 * (Byte.to_N b2 + 256 * Byte.to_N b3)))
  | _ => Raise StructError
  end.

(** The loop of [recvall]. Each turn appends at least one byte, so [n]
    turns are enough; [fuel] counts them. *)
Fixpoint recvall_loop (fuel : nat) (n : N) (data : bytes) : M (option bytes) :=
  if N.of_nat (List.length data) <? n then
    match fuel with
    | O => lift Unmodelled
    | S fuel' =>
        (chunk <- recv (n - N.of_nat (List.length data)) ;;
         match chunk with
         | [] => ret None
         | _ :: _ => recvall_loop fuel' n (data ++ chunk)
         end)%monad
    end
  else ret (Some data).

(** [recvall(sock, n)] *)
Definition recvall (n : N) : M (option bytes) :=
  recvall_loop (N.to_nat n) n [].

(** What [recvall_loop] does with [need] bytes still missing, in terms
    of the bytes the stream holds. *)
Definition recvall_outcome (need : nat) (data : bytes) (evs : list rx_event)
  : result (option bytes) :=
  if (need <=? List.length (rx_bytes evs))%nat
  then Ok (Some (data ++ firstn need (rx_bytes evs)))
  else if rx_eof evs then Ok None else Raise OSError.

(** Lines 116-129 of [send_request_and_receive]: reading the reply. *)
Definition receive_response : M json :=
  (header <- recvall 4 ;;
   match header with
   | None => raise (ConnectionError ResponseLength)
   | Some header =>
       if (List.length header <? 4)%nat then raise (ConnectionError ResponseLength)
       else
         resp_len <- lift (unpack_u32_le header) ;;
         if resp_len =? 0 then ret (JDict [])
         else
           resp_bytes <- recvall resp_len ;;
           match resp_bytes with
           | None => raise (ConnectionError FullResponse)
           | Some resp_bytes =>
               let resp_text := decode_utf8_ignore resp_bytes in
               match loads resp_text with
               | Ok v => ret v
               | Raise _ => ret (JDict [(text "raw", JStr resp_text)])
               | Unmodelled => lift Unmodelled
               end
           end
   end)%monad.

(** The bytes put on the wire after the length prefix. *)
Definition request_frame (request_obj : list (str * json)) : bytes :=
  let req_str := dumps (JDict request_obj) in
  encode_ascii_ignore req_str.

(** [send_request_and_receive(host, port, request_obj, timeout)] *)
Definition send_request_and_receive (host : str) (port : Z)
    (request_obj : list (str * json)) (timeout : Z) : M json :=
  let req_bytes := request_frame request_obj in
  let length := N.of_nat (List.length req_bytes) in
  with_connection host port timeout
    (prefix <- lift (pack_u32_le length) ;;
     sendall prefix ;;
     sendall req_bytes ;;
     receive_response)%monad.

(** ** Request builder (core.py lines 132-175) *)

Definition _ENCRYPTED_COMMANDS : list str :=
  [text "set.miner.pools"; text "set.user.change_passwd"].

Definition is_none (v : json) : bool :=
  match v with
  | JNull => true
  | _ => false
  end.

(** Lines 154-173 of [call_whatsminer]: the request handed to the
    transport. [param] is a Python value, absent when it is [None]. *)
Definition build_request (account account_password cmd : str) (param : json)
    (salt : option str) (ts : option Z) : M (list (str * json)) :=
  (let request := [(text "cmd", JStr cmd)] in
   let is_set_cmd := startswith cmd (text "set.") in
   ts_val <- match ts with
             | Some t => ret (Some t)
             | None => if is_set_cmd then (t <- now_ts_int ;; ret (Some t)) else ret None
             end ;;
   if is_set_cmd then
     match salt with
     | None => raise (ValueError SaltRequired)
     | Some salt =>
         match ts_val with
         | None => lift Unmodelled   (* line 156 gives an int to a set command *)
         | Some ts_val =>
             '(token, sha256_digest) <- lift (generate_token cmd account_password salt ts_val) ;;
             let request := dict_set (text "ts") (JInt ts_val) request in
             let request := dict_set (text "token") (JStr token) request in
             let request := dict_set (text "account") (JStr account) request in
             if existsb (str_eqb cmd) _ENCRYPTED_COMMANDS then
               if is_none param then raise (ValueError (ParamRequired cmd))
               else
                 enc_b64 <- lift (encrypt_param_aes_ecb_base64 param (Some sha256_digest)) ;;
                 ret (dict_set (text "param") (JStr enc_b64) request)
             else
               if negb (is_none param)
               then ret (dict_set (text "param") param request)
               else ret request
         end
     end
   else
     if negb (is_none param)
     then ret (dict_set (text "param") param request)
     else ret request)%monad.

(** [call_whatsminer(host, port, account, account_password, cmd, param,
    salt, ts, timeout)] *)
Definition call_whatsminer (host : str) (port : Z) (account account_password cmd : str)
    (param : json) (salt : option str) (ts : option Z) (timeout : Z) : M json :=
  (request <- build_request account account_password cmd param salt ts ;;
   send_request_and_receive host port request timeout)%monad.

(** ** Induction on values *)

Section JsonInduction.
Variable P : json -> Prop.
Hypothesis HNull : P JNull.
Hypothesis HBool : forall b, P (JBool b).
Hypothesis HInt : forall z, P (JInt z).
Hypothesis HStr : forall s, P (JStr s).
Hypothesis HList : forall l, Forall P l -> P (JList l).
Hypothesis HDict : forall d, Forall (fun kv => P (snd kv)) d -> P (JDict d).

Fixpoint json_ind (v : json) : P v :=
  match v with
  | JNull => HNull
  | JBool b => HBool b
  | JInt z => HInt z
  | JStr s => HStr s
  | JList l =>
      HList l ((fix all (l : list json) : Forall P l :=
                  match l with
                  | [] => Forall_nil P
                  | x :: l' => Forall_cons x (json_ind x) (all l')
                  end) l)
  | JDict d =>
      HDict d ((fix all (d : list (str * json)) : Forall (fun kv => P (snd kv)) d :=
                  match d with
                  | [] => Forall_nil _
                  | kv :: d' => Forall_cons kv (json_ind (snd kv)) (all d')
                  end) d)
  end.
End JsonInduction.

(** ** Vocabulary of the statements *)

Definition in_b64_alphabet (c : N) : bool :=
  existsb (fun x => Byte.to_N x =? c) b64_alphabet.

Definition b64_text (c : N) : bool := in_b64_alphabet c || (c =? 61).

(** The world once the connection is made and the request is written. *)
Definition sent (host : str) (port timeout : Z) (prefix frame : bytes) (w : world) : world :=
  log (Send frame) (log (Send prefix) (log (Connect host port timeout) w)).

Definition effective_ts (ts : option Z) (w : world) : Z :=
  match ts with
  | Some t => t
  | None => clock w
  end.

Definition forall_bool (P : bool -> bool) : bool := P false && P true.

Definition forall_byte (P : byte -> bool) : bool :=
  forall_bool (fun b0 => forall_bool (fun b1 => forall_bool (fun b2 => forall_bool (fun b3 =>
  forall_bool (fun b4 => forall_bool (fun b5 => forall_bool (fun b6 => forall_bool (fun b7 =>
    P (Byte.of_bits (b0, (b1, (b2, (b3, (b4, (b5, (b6, b7)))))))))))))))).

Definition round_key (k : bytes) : Prop := List.length k = 16%nat.

Definition sextet_ok (i : nat) : bool :=
  let c := b64_char (N.of_nat i) in
  match b64_value c with
  | Some v => (v =? N.of_nat i) && negb (Byte.eqb c "="%byte)
  | None => false
  end.

Fixpoint horner (acc : Z) (u : Decimal.uint) : Z :=
  match u with
  | Decimal.Nil => acc
  | Decimal.D0 u => horner (acc * 10 + 0) u
  | Decimal.D1 u => horner (acc * 10 + 1) u
  | Decimal.D2 u => horner (acc * 10 + 2) u
  | Decimal.D3 u => horner (acc * 10 + 3) u
  | Decimal.D4 u => horner (acc * 10 + 4) u
  | Decimal.D5 u => horner (acc * 10 + 5) u
  | Decimal.D6 u => horner (acc * 10 + 6) u
  | Decimal.D7 u => horner (acc * 10 + 7) u
  | Decimal.D8 u => horner (acc * 10 + 8) u
  | Decimal.D9 u => horner (acc * 10 + 9) u
  end.

(** The input left after a number does not go on as a number. *)
Definition ends_number (rest : str) : bool :=
  match rest with
  | [] => true
  | c :: _ => negb (is_digit c) && negb (c =? 46) && negb (c =? 101) && negb (c =? 69)
  end.

(** What can follow a value inside a JSON text written by [dumps]: the
    end, a comma, or a closing bracket or brace. *)
Definition value_end (rest : str) : bool :=
  match rest with
  | [] => true
  | c :: _ => (c =? 44) || (c =? 93) || (c =? 125)
  end.


(** The items of a list and of a dictionary as [dumps] writes them. *)
Fixpoint dumps_items (l : list json) : str :=
  match l with
  | [] => []
  | [x] => dumps x
  | x :: l' => dumps x ++ 44 :: dumps_items l'
  end.

Fixpoint dumps_pairs (d : list (str * json)) : str :=
  match d with
  | [] => []
  | [(k, x)] => encode_basestring k ++ 58 :: dumps x
  | (k, x) :: d' => encode_basestring k ++ 58 :: dumps x ++ 44 :: dumps_pairs d'
  end.

(** Keys pairwise different, at every level. *)
Fixpoint distinct (l : list str) : bool :=
  match l with
  | [] => true
  | k :: l' => negb (existsb (str_eqb k) l') && distinct l'
  end.

Fixpoint well_formed (v : json) : bool :=
  match v with
  | JList l => forallb well_formed l
  | JDict d => distinct (map fst d) && forallb (fun kv => well_formed (snd kv)) d
  | _ => true
  end.

(** Fuel that [scan_once] needs for the text of a value. *)
Fixpoint size (v : json) : nat :=
  match v with
  | JList l => S (fold_right (fun x n => S (size x + n)) 0%nat l)
  | JDict d => S (fold_right (fun kv n => S (size (snd kv) + n)) 0%nat d)
  | _ => 1%nat
  end.

Definition items_size (l : list json) : nat :=
  fold_right (fun x n => S (size x + n)) 0%nat l.
Definition pairs_size (d : list (str * json)) : nat :=
  fold_right (fun kv n => S (size (snd kv) + n)) 0%nat d.

(** The first character of the text of a value. *)
Definition opens_value (c : N) : Prop :=
  is_ws c = false /\ c <> 93 /\ c <> 125 /\ c <> 0xFEFF.

(** [scan_once] reads back the text of [v] and stops where it ends. *)
Definition reads_back (v : json) : Prop :=
  forall (fuel : nat) (rest : str),
    (size v <= fuel)%nat -> well_formed v = true -> value_end rest = true ->
    scan_once fuel (dumps v ++ rest) = Ok (v, rest).



Definition transport_error (e : exn) : Prop :=
  e = OSError \/ e = StructError \/ exists why, e = ConnectionError why.

(** ** Test vectors and sample data *)


Definition hex_digit (n : N) : ascii :=
  nth (N.to_nat n) (list_ascii_of_string "0123456789abcdef") "?"%char.

Definition hex (b : bytes) : string :=
  string_of_list_ascii
    (flat_map (fun x => [hex_digit (Byte.to_N x / 16); hex_digit (Byte.to_N x mod 16)]) b).

Definition unhex_digit (a : ascii) : N :=
  let n := N_of_ascii a in
  if n <? 58 then n - 48 else n - 87.

Fixpoint unhex_list (l : list ascii) : bytes :=
  match l with
  | a :: b :: rest => byte_of_N (16 * unhex_digit a + unhex_digit b) :: unhex_list rest
  | _ => []
  end.

Definition unhex (s : string) : bytes := unhex_list (list_ascii_of_string s).

Definition aes_enc (key pt : string) : result string :=
  (c <- AES.new (unhex key) ;; ct <- AES.encrypt c (unhex pt) ;; Ok (hex ct))%result.
Definition aes_dec (key ct : string) : result string :=
  (c <- AES.new (unhex key) ;; pt <- AES.decrypt c (unhex ct) ;; Ok (hex pt))%result.

(** A JSON text written with apostrophes for the double quotes. *)
Definition jtext (s : string) : str :=
  map (fun c => if c =? 39 then 34 else c) (text s).

Definition quiet_world : world := World 1700000000 None [].


(** ** Scalars from the command line (core.py lines 187-217)

    [parse_scalar] is embedded on ASCII text. Outside ASCII the
    whitespace, the case mapping and the digits of Unicode come in, and
    a text that reads as a float gives a float: both are [Unmodelled]. *)

Definition is_ascii (s : str) : bool := forallb (fun c => c <? 0x80) s.

(** [str.isspace] on ASCII, the characters [str.strip()] removes. *)
Definition is_space (c : N) : bool :=
  ((9 <=? c) && (c <=? 13)) || ((28 <=? c) && (c <=? 32)).

(** C's [isspace], the characters [int()] and [float()] skip around
    an ASCII text. *)
Definition is_c_space (c : N) : bool := ((9 <=? c) && (c <=? 13)) || (c =? 32).

Fixpoint lstrip (space : N -> bool) (s : str) : str :=
  match s with
  | c :: s' => if space c then lstrip space s' else s
  | [] => []
  end.

Definition rstrip (space : N -> bool) (s : str) : str :=
  rev (lstrip space (rev s)).

(** [s.strip()] *)
Definition strip (s : str) : str := rstrip is_space (lstrip is_space s).

(** [s.lower()] on ASCII *)
Definition lower (s : str) : str :=
  map (fun c => if (65 <=? c) && (c <=? 90) then c + 32 else c) s.

(** The digit limit of [int(s)] in base 10
    ([sys.get_int_max_str_digits()]). *)
Definition MAX_STR_DIGITS : nat := 4300.

Definition digit_of (base c : N) : option N :=
  match hex_value c with
  | Some d => if d <? base then Some d else None
  | None => None
  end.

(** The digits of an [int] literal, single underscores between them:
    the value, the number of digits and the input left. *)
Fixpoint scan_int (base : N) (prev_underscore : bool) (acc : Z) (digits : nat) (s : str)
  : option (Z * nat * str) :=
  match s with
  | c :: s' =>
      if c =? 95 then
        if prev_underscore then None else scan_int base true acc digits s'
      else
        match digit_of base c with
        | Some d => scan_int base false (acc * Z.of_N base + Z.of_N d) (S digits) s'
        | None => if prev_underscore then None else Some (acc, digits, s)
        end
  | [] => if prev_underscore then None else Some (acc, digits, [])
  end.

(** [int(s, base)] for base 10 or 16 on an ASCII [str]; [None] stands
    for [ValueError]. *)
Definition py_int (base : N) (s : str) : option Z :=
  let s := lstrip is_c_space s in
  let '(negative, s) :=
    match s with
    | 43 :: r => (false, r)
    | 45 :: r => (true, r)
    | _ => (false, s)
    end in
  let s :=
    match s with
    | 48 :: x :: r =>
        if (base =? 16) && ((x =? 120) || (x =? 88))
        then match r with
             | 95 :: r' => r'
             | _ => r
             end
        else s
    | _ => s
    end in
  match s with
  | 95 :: _ => None
  | _ =>
      match scan_int base false 0 0 s with
      | None => None
      | Some (n, digits, rest) =>
          if (digits =? 0)%nat then None
          else if (base =? 10) && (MAX_STR_DIGITS <? digits)%nat then None
          else
            match lstrip is_c_space rest with
            | [] => Some (if negative then (- n)%Z else n)
            | _ :: _ => None
            end
      end
  end.

(** The underscores of a [float] literal: each one after a digit and
    before a digit; the text without them. *)
Fixpoint drop_underscores (prev : N) (s : str) : option str :=
  match s with
  | [] => if prev =? 95 then None else Some []
  | c :: s' =>
      if c =? 95 then
        if is_digit prev then drop_underscores c s' else None
      else if (prev =? 95) && negb (is_digit c) then None
      else option_map (cons c) (drop_underscores c s')
  end.

Fixpoint skip_digits (s : str) : nat * str :=
  match s with
  | c :: s' =>
      if is_digit c then let '(n, r) := skip_digits s' in (S n, r) else (O, s)
  | [] => (O, [])
  end.

Definition skip_sign (s : str) : str :=
  match s with
  | c :: r => if (c =? 43) || (c =? 45) then r else s
  | [] => []
  end.

(** A decimal number up to the end of the text: digits, a point,
    digits, with a digit somewhere, and an exponent if digits follow
    its letter. *)
Definition is_decimal (s : str) : bool :=
  let '(n1, r1) := skip_digits s in
  let '(n2, r2) :=
    match r1 with
    | 46 :: r => skip_digits r
    | _ => (O, r1)
    end in
  if (n1 + n2 =? 0)%nat then false
  else
    match r2 with
    | [] => true
    | e :: r =>
        if (e =? 101) || (e =? 69) then
          let '(n3, r3) := skip_digits (skip_sign r) in
          (0 <? n3)%nat && match r3 with [] => true | _ :: _ => false end
        else false
    end.

Definition is_inf_or_nan (s : str) : bool :=
  let low := lower s in
  str_eqb low (text "inf") || str_eqb low (text "infinity") || str_eqb low (text "nan").

(** Does [float(s)] return, on an ASCII [str]? *)
Definition float_accepts (s : str) : bool :=
  let s := rstrip is_c_space (lstrip is_c_space s) in
  match (if existsb (N.eqb 95) s then drop_underscores 0 s else Some s) with
  | None => false
  | Some t => is_decimal (skip_sign t) || is_inf_or_nan (skip_sign t)
  end.

(** [parse_scalar(value)] *)
Definition parse_scalar (value : option str) : result json :=
  match value with
  | None => Ok JNull
  | Some value =>
      if negb (is_ascii value) then Unmodelled
      else
        let v := strip value in
        let low := lower v in
        if str_eqb low (text "true") then Ok (JBool true)
        else if str_eqb low (text "false") then Ok (JBool false)
        else if str_eqb low (text "null") || str_eqb low (text "none") then Ok JNull
        else
          match (if startswith v (text "0x") || startswith v (text "0X")
                 then py_int 16 v else py_int 10 v) with
          | Some n => Ok (JInt n)
          | None => if float_accepts v then Unmodelled else Ok (JStr v)
          end
  end.

(** ** Files (core.py lines 178-184 and 236-242)

    A path names nothing, a regular file with its bytes, or something
    that exists and that [open] refuses (a directory, a file without
    read permission). *)
Inductive file :=
| Regular (content : bytes)
| Unreadable.

Definition filesystem := list (str * file).

Fixpoint fs_lookup (path : str) (fs : filesystem) : option file :=
  match fs with
  | [] => None
  | (p, f) :: fs' => if str_eqb path p then Some f else fs_lookup path fs'
  end.

(** [os.path.exists(path)] *)
Definition path_exists (path : str) (fs : filesystem) : bool :=
  match fs_lookup path fs with
  | Some _ => true
  | None => false
  end.

(** [bytes.decode("utf-8")], strict: the decoder of
    [decode_utf8_codes], with [None] where that one drops bytes. *)
Fixpoint decode_utf8_strict_codes (b : list N) : option str :=
  match b with
  | [] => Some []
  | x :: r1 =>
      if x <? 0x80 then option_map (cons x) (decode_utf8_strict_codes r1)
      else if x <? 0xC2 then None
      else if x <? 0xE0 then
        match r1 with
        | [] => None
        | y :: r2 =>
            if is_cont y
            then option_map (cons ((x - 0xC0) * 64 + (y - 0x80)))
                            (decode_utf8_strict_codes r2)
            else None
        end
      else if x <? 0xF0 then
        match r1 with
        | y :: z :: r3 =>
            if negb (is_cont y) || (if y <? 0xA0 then x =? 0xE0 else x =? 0xED)
               || negb (is_cont z)
            then None
            else option_map (cons ((x - 0xE0) * 4096 + (y - 0x80) * 64 + (z - 0x80)))
                            (decode_utf8_strict_codes r3)
        | _ => None
        end
      else if x <? 0xF5 then
        match r1 with
        | y :: z :: t :: r4 =>
            if negb (is_cont y) || (if y <? 0x90 then x =? 0xF0 else x =? 0xF4)
               || negb (is_cont z) || negb (is_cont t)
            then None
            else option_map (cons ((x - 0xF0) * 262144 + (y - 0x80) * 4096
                                   + (z - 0x80) * 64 + (t - 0x80)))
                            (decode_utf8_strict_codes r4)
        | _ => None
        end
      else None
  end.

Definition decode_utf8 (b : bytes) : result str :=
  match decode_utf8_strict_codes (map Byte.to_N b) with
  | Some s => Ok s
  | None => Raise UnicodeDecodeError
  end.

(** Reading in text mode translates every line ending to a line feed. *)
Fixpoint universal_newlines (s : str) : str :=
  match s with
  | [] => []
  | c :: r =>
      if c =? 13 then
        match r with
        | d :: r' => if d =? 10 then 10 :: universal_newlines r'
                     else 10 :: universal_newlines r
        | [] => [10]
        end
      else c :: universal_newlines r
  end.

(** [open(path, "r", encoding="utf-8")] and [f.read()] on a path that
    exists. *)
Definition read_text (f : file) : result str :=
  match f with
  | Unreadable => Raise OSError
  | Regular content =>
      (s <- decode_utf8 content ;; Ok (universal_newlines s))%result
  end.

(** [load_miner_conf(path)] *)
Definition load_miner_conf (path : str) (fs : filesystem) : result json :=
  match fs_lookup path fs with
  | None => Ok (JDict [])
  | Some f => (s <- read_text f ;; loads s)%result
  end.

(** What [resolve_param_inputs] raises. *)
Inductive resolve_error :=
| BadParamJson        (* ValueError, core.py line 234 *)
| ParamFileNotFound   (* FileNotFoundError, core.py line 237 *)
| BadParamFile        (* ValueError, core.py line 242 *)
| OpenFailed.         (* the OSError of open, core.py line 238 *)

Inductive outcome (E A : Type) :=
| Returns (a : A)
| Raises (e : E)
| NotModelled.
Arguments Returns {E A} a.
Arguments Raises {E A} e.
Arguments NotModelled {E A}.

(** [resolve_param_inputs(param_scalar, param_json, param_file)] *)
Definition resolve_param_inputs (param_scalar param_json param_file : option str)
    (fs : filesystem) : outcome resolve_error json :=
  match param_scalar with
  | Some s =>
      match parse_scalar (Some s) with
      | Ok v => Returns v
      | Raise _ => NotModelled      (* no case of [parse_scalar] raises *)
      | Unmodelled => NotModelled
      end
  | None =>
      match param_json with
      | Some s =>
          match loads s with
          | Ok v => Returns v
          | Raise _ => Raises BadParamJson
          | Unmodelled => NotModelled
          end
      | None =>
          match param_file with
          | Some path =>
              match fs_lookup path fs with
              | None => Raises ParamFileNotFound
              | Some Unreadable => Raises OpenFailed
              | Some (Regular content) =>
                  match (s <- read_text (Regular content) ;; loads s)%result with
                  | Ok v => Returns v
                  | Raise _ => Raises BadParamFile
                  | Unmodelled => NotModelled
                  end
              end
          | None => Returns JNull
          end
      end
  end.

(** ** Vocabulary of the further statements *)

(** The characters of the text of an [int]. *)
Definition int_char (c : N) : bool := is_digit c || (c =? 45).

Definition is_hex (c : N) : bool :=
  match hex_value c with
  | Some _ => true
  | None => false
  end.

(** The number a string of hexadecimal digits denotes. *)
Definition hex_number (h : str) : Z :=
  fold_left (fun acc c => (acc * 16 + Z.of_N (match hex_value c with
                                               | Some d => d
                                               | None => 0
                                               end))%Z) h 0%Z.

(** ** Endpoints

    [socket.create_connection] raises [OSError] when it cannot connect;
    it raises other errors for a timeout below zero and for a host
    name the [idna] codec rejects (an empty label, a label of 64
    characters or more). The arguments for which [OSError] is all it
    can raise include these: an ASCII host without NUL whose labels
    have 1 to 63 characters (the last one may be empty), a port from 0
    to 65535 and a timeout from 0 to 2147483 seconds. *)

Fixpoint labels_from (len : nat) (host : str) : bool :=
  match host with
  | [] => (len <? 64)%nat
  | c :: r =>
      if c =? 46 then (0 <? len)%nat && (len <? 64)%nat && labels_from 0 r
      else labels_from (S len) r
  end.

Definition plain_endpoint (host : str) (port timeout : Z) : bool :=
  (forallb (fun c => (0 <? c) && (c <? 0x80)) host && labels_from 0 host
   && (0 <=? port)%Z && (port <=? 65535)%Z
   && (0 <=? timeout)%Z && (timeout <=? 2147483)%Z)%bool.

(** ** The command line (cli.py lines 57-130)

    [main] is embedded from the parsed arguments on: what [argparse]
    makes of [argv] is not part of it. Every connection of a run has
    its own peer, and the clock reads the same through the run;
    standard output encodes with UTF-8, strictly, and [print] is
    recorded by its call. [--save-response], endpoints that are not
    [plain_endpoint] and values that are not of the type the code
    expects (a host that is no string, a salt that is a number) are
    outside the embedding. *)

Inductive action :=
| GetSalt (param : str)
| Call (cmd : str) (param param_json param_file salt : option str) (ts : option Z)
       (show_request : bool) (save_response : option str).

Record arguments := Arguments {
  config : str;
  arg_host : option str;
  arg_port : option Z;
  arg_login : option str;
  arg_password : option str;
  arg_timeout : Z;
  arg_action : action
}.

(** What the [except Exception] clauses of [main] catch. *)
Inductive caught :=
| Exn (e : exn)
| AttributeError.

(** The calls of [print]. *)
Inductive printed :=
| Notice (s : string)                      (* a fixed text, to stdout *)
| Warning (s : string)                     (* a fixed text, to stderr *)
| Pretty (v : json)                        (* json.dumps(v, indent=2, ensure_ascii=False) *)
| ObtainedSalt (salt : str)
| ExtractedSalt (salt : json)
| Failure (label : string) (e : caught)    (* to stderr *)
| Help.

Record session := Session {
  now : Z;
  connections : list (option (list rx_event));
  wire : list net_event;
  files : filesystem;
  console : list printed
}.

Inductive tried (A : Type) :=
| Done (a : A)
| Caught (e : caught)
| Beyond.
Arguments Done {A} a.
Arguments Caught {A} e.
Arguments Beyond {A}.

Definition T (A : Type) : Type := session -> tried A * session.

Definition tdone {A} (a : A) : T A := fun s => (Done a, s).
Definition tcaught {A} (e : caught) : T A := fun s => (Caught e, s).
Definition tbeyond {A} : T A := fun s => (Beyond, s).

Definition tbind {A B} (m : T A) (k : A -> T B) : T B :=
  fun s =>
    match m s with
    | (Done a, s') => k a s'
    | (Caught e, s') => (Caught e, s')
    | (Beyond, s') => (Beyond, s')
    end.

Declare Scope try_scope.
Delimit Scope try_scope with try.
Notation "x <- m ;; k" := (tbind m (fun x => k))
  (at level 61, m at next level, right associativity) : try_scope.
Notation "m ;; k" := (tbind m (fun _ => k))
  (at level 61, right associativity) : try_scope.

Definition is_connect (e : net_event) : bool :=
  match e with
  | Connect _ _ _ => true
  | _ => false
  end.

(** A call of the core on the network of the session: it meets the
    peer of the next connection, and uses it up if it connects. *)
Definition on_network {A} (m : M A) : T A :=
  fun s =>
    let w := World (now s) (hd None (connections s)) (wire s) in
    let '(r, w') := m w in
    let connected := existsb is_connect (skipn (List.length (wire s)) (trace w')) in
    let s' := Session (now s)
                      (if connected then tl (connections s) else connections s)
                      (trace w') (files s) (console s) in
    match r with
    | Ok a => (Done a, s')
    | Raise e => (Caught (Exn e), s')
    | Unmodelled => (Beyond, s')
    end.

Definition say (p : printed) : T unit :=
  fun s => (Done tt, Session (now s) (connections s) (wire s) (files s) (console s ++ [p])).

(** [print(text)] on standard output. *)
Definition print_out (p : printed) (text : str) : T unit :=
  (say p ;;
   if encodable text then tdone tt else tcaught (Exn UnicodeEncodeError))%try.

(** [print(json.dumps(v, indent=2, ensure_ascii=False))]: the text
    holds the characters of the strings of [v], as [dumps v] does. *)
Definition print_json (v : json) : T unit := print_out (Pretty v) (dumps v).

(** Truth value of a Python value. *)
Definition truthy (v : json) : bool :=
  match v with
  | JNull => false
  | JBool b => b
  | JInt z => negb (z =? 0)%Z
  | JStr s => match s with [] => false | _ :: _ => true end
  | JList l => match l with [] => false | _ :: _ => true end
  | JDict d => match d with [] => false | _ :: _ => true end
  end.

Definition of_str (a : option str) : json :=
  match a with
  | Some s => JStr s
  | None => JNull
  end.

Definition of_int (a : option Z) : json :=
  match a with
  | Some z => JInt z
  | None => JNull
  end.

(** [obj.get(key)]: [None] stands for the [AttributeError] of a value
    that is no [dict]. *)
Definition get (obj : json) (key : str) : option json :=
  match obj with
  | JDict d => Some (match dict_get key d with
                     | Some v => v
                     | None => JNull
                     end)
  | _ => None
  end.

(** [x or conf.get(key)] *)
Definition or_conf (x conf : json) (key : str) : option json :=
  if truthy x then Some x else get conf key.

(** [x or y] *)
Definition py_or (x y : json) : json := if truthy x then x else y.

(** Lines 61-64: host, port, account and password, from the command
    line first, then from the configuration. *)
Definition settings (args : arguments) (conf : json) : option (json * json * json * json) :=
  match or_conf (of_str (arg_host args)) conf (text "host") with
  | None => None
  | Some host =>
      match or_conf (of_int (arg_port args)) conf (text "port") with
      | None => None
      | Some port =>
          match or_conf (of_str (arg_login args)) conf (text "login") with
          | None => None
          | Some account =>
              match or_conf (of_str (arg_password args)) conf (text "password") with
              | None => None
              | Some password =>
                  Some (host, py_or port (JInt DEFAULT_PORT),
                        py_or account (JStr (text "super")), password)
              end
          end
      end
  end.

(** Lines 71-83: the action [get-salt]. *)
Definition get_salt (host : str) (port : Z) (account password param : str) (timeout : Z)
  : T unit :=
  (resp <- on_network (call_whatsminer host port account password (text "get.device.info")
                                       (JStr param) None None timeout) ;;
   print_json resp ;;
   match get resp (text "msg") with
   | Some (JDict msg) =>
       match dict_get (text "salt") msg with
       | Some salt => say (ExtractedSalt salt)
       | None => tdone tt
       end
   | _ => tdone tt
   end)%try.

(** Lines 91-98: the salt of a [set.*] command that came without one. *)
Definition fetch_salt (host : str) (port : Z) (account password cmd : str)
    (provided_salt : option str) (timeout : Z) : T (option str) :=
  if startswith cmd (text "set.") && negb (truthy (of_str provided_salt)) then
    (say (Notice "Fetching salt from get.device.info ...") ;;
     info <- on_network (call_whatsminer host port account password (text "get.device.info")
                                         (JStr (text "salt")) None None timeout) ;;
     match get info (text "msg") with
     | None => tcaught AttributeError
     | Some (JDict msg) =>
         match dict_get (text "salt") msg with
         | Some salt =>
             if truthy salt then
               match salt with
               | JStr s => print_out (ObtainedSalt s) s ;; tdone (Some s)
               | _ => tbeyond
               end
             else
               say (Warning "Warning: Could not obtain salt automatically; please supply --salt") ;;
               tdone provided_salt
         | None =>
             say (Warning "Warning: Could not obtain salt automatically; please supply --salt") ;;
             tdone provided_salt
         end
     | Some _ =>
         say (Warning "Warning: Could not obtain salt automatically; please supply --salt") ;;
         tdone provided_salt
     end)%try
  else tdone provided_salt.

(** Lines 100-118: the preview of [--show-request]. *)
Definition preview (account password cmd : str) (param_obj : json)
    (provided_salt : option str) (ts : option Z) : T unit :=
  fun s =>
    let ts_to_use := match ts with
                     | Some t => JInt t
                     | None => if startswith cmd (text "set.") then JInt (now s) else JNull
                     end in
    let preview_req := [(text "cmd", JStr cmd)] in
    let with_param req :=
      if is_none param_obj then req else dict_set (text "param") param_obj req in
    let built : result (list (str * json)) :=
      if startswith cmd (text "set.") then
        if truthy (of_str provided_salt) then
          match provided_salt, ts_to_use with   (* a salt and an int, here *)
          | Some salt, JInt t =>
              ('(token, _) <- generate_token cmd password salt t ;;
               let req := dict_set (text "ts") ts_to_use preview_req in
               let req := dict_set (text "token") (JStr token) req in
               let req := dict_set (text "account") (JStr account) req in
               Ok (if existsb (str_eqb cmd) _ENCRYPTED_COMMANDS
                   then dict_set (text "param") (JStr (text "<ENCRYPTED_BASE64>")) req
                   else with_param req))%result
          | _, _ => Unmodelled
          end
        else Ok (dict_set (text "note") (JStr (text "salt missing; token not computed"))
                          preview_req)
      else Ok (with_param preview_req) in
    match built with
    | Ok req =>
        (say (Notice "=== Request preview ===") ;;
         print_json (JDict req) ;;
         say (Notice "======================="))%try s
    | Raise e => (Caught (Exn e), s)
    | Unmodelled => (Beyond, s)
    end.

(** Lines 90-125: the [try] block of the action [call]. *)
Definition call_body (host : str) (port : Z) (account password cmd : str) (param_obj : json)
    (salt : option str) (ts : option Z) (show_request : bool) (save_response : option str)
    (timeout : Z) : T unit :=
  (provided_salt <- fetch_salt host port account password cmd salt timeout ;;
   (if show_request then preview account password cmd param_obj provided_salt ts
    else tdone tt) ;;
   resp <- on_network (call_whatsminer host port account password cmd param_obj
                                       provided_salt ts timeout) ;;
   print_json resp ;;
   if truthy (of_str save_response) then tbeyond else tdone tt)%try.

(** What leaves [main] uncaught. *)
Inductive main_error :=
| ConfigError (e : exn)            (* from load_miner_conf, line 60 *)
| ConfigNotObject                  (* AttributeError, lines 61-64 *)
| ParamError (e : resolve_error).  (* from resolve_param_inputs, line 87 *)

(** An [except Exception] clause that prints and returns 1. *)
Definition guarded (label : string) (body : T unit) (s : session)
  : outcome main_error Z * session :=
  match body s with
  | (Done _, s') => (Returns 0%Z, s')
  | (Caught e, s') =>
      (Returns 1%Z,
       Session (now s') (connections s') (wire s') (files s')
               (console s' ++ [Failure label e]))
  | (Beyond, s') => (NotModelled, s')
  end.

(** [main], from the parsed arguments on. *)
Definition main (args : arguments) (s : session) : outcome main_error Z * session :=
  match load_miner_conf (config args) (files s) with
  | Raise e => (Raises (ConfigError e), s)
  | Unmodelled => (NotModelled, s)
  | Ok conf =>
      match settings args conf with
      | None => (Raises ConfigNotObject, s)
      | Some (host, port, account, password) =>
          if is_none host || is_none password then
            (Returns 2%Z,
             Session (now s) (connections s) (wire s) (files s)
                     (console s ++ [Warning "Error: host and password must be supplied either via CLI or miner-conf.json"; Help]))
          else
            match host, port, account, password with
            | JStr host, JInt port, JStr account, JStr password =>
                if negb (plain_endpoint host port (arg_timeout args)) then (NotModelled, s)
                else
                match arg_action args with
                | GetSalt param =>
                    guarded "Error:"
                            (get_salt host port account password param (arg_timeout args)) s
                | Call cmd param param_json param_file salt ts show_request save_response =>
                    match resolve_param_inputs param param_json param_file (files s) with
                    | Raises e => (Raises (ParamError e), s)
                    | NotModelled => (NotModelled, s)
                    | Returns param_obj =>
                        guarded "Error while calling API:"
                                (call_body host port account password cmd param_obj salt ts
                                           show_request save_response (arg_timeout args)) s
                    end
                end
            | _, _, _, _ => (NotModelled, s)
            end
      end
  end.

(** A setting that neither the command line nor the configuration
    gives: no value, or an empty one, on the command line, and no key,
    or [null], in the configuration. *)
Definition missing_setting (cli : json) (key : str) (conf : list (str * json)) : Prop :=
  truthy cli = false /\ (dict_get key conf = None \/ dict_get key conf = Some JNull).

(** The world a call of the core runs in. *)
Definition world_of (s : session) : world :=
  World (now s) (hd None (connections s)) (wire s).

(* ================================================================== *)
(** * Part II: properties *)
(* ================================================================== *)

Example sha256_abc :
  hex (SHA256.sha256 (blit "abc"))
  = "ba7816bf8f01cfea414140de5dae2223b00361a396177a9cb410ff61f20015ad"%string.
Proof. vm_compute. reflexivity. Qed.

Example sha256_empty :
  hex (SHA256.sha256 [])
  = "e3b0c44298fc1c149afbf4c8996fb92427ae41e4649b934ca495991b7852b855"%string.
Proof. vm_compute. reflexivity. Qed.

Example sha256_200 :
  hex (SHA256.sha256 (repeat "a"%byte 200))
  = "c2a908d98f5df987ade41b5fce213067efbcc21ef2240212a41e54b5e7c28ae5"%string.
Proof. vm_compute. reflexivity. Qed.

Example generate_token_vector :
  generate_token (text "set.miner.power") (text "passw0rd") (text "salt123") 1700000000
  = Ok (text "lNAXObNk", SHA256.sha256 (blit "set.miner.powerpassw0rdsalt1231700000000")).
Proof. vm_compute. reflexivity. Qed.

(** FIPS 197, appendix C. *)
Example aes128_fips :
  aes_enc "000102030405060708090a0b0c0d0e0f" "00112233445566778899aabbccddeeff"
  = Ok "69c4e0d86a7b0430d8cdb78070b4c55a"%string.
Proof. vm_compute. reflexivity. Qed.

Example aes192_fips :
  aes_enc "000102030405060708090a0b0c0d0e0f1011121314151617" "00112233445566778899aabbccddeeff"
  = Ok "dda97ca4864cdfe06eaf70a0ec0d7191"%string.
Proof. vm_compute. reflexivity. Qed.

Example aes256_fips :
  aes_enc "000102030405060708090a0b0c0d0e0f101112131415161718191a1b1c1d1e1f"
          "00112233445566778899aabbccddeeff"
  = Ok "8ea2b7ca516745bfeafc49904b496089"%string.
Proof. vm_compute. reflexivity. Qed.

Example aes256_fips_inverse :
  aes_dec "000102030405060708090a0b0c0d0e0f101112131415161718191a1b1c1d1e1f"
          "8ea2b7ca516745bfeafc49904b496089"
  = Ok "00112233445566778899aabbccddeeff"%string.
Proof. vm_compute. reflexivity. Qed.

Example b64decode_vector :
  b64decode (text "lNAXObNki/JYik5PQMvPusk4iTyCqn8jkC0Xzb7O5H4=")
  = Ok (SHA256.sha256 (blit "set.miner.powerpassw0rdsalt1231700000000")).
Proof. vm_compute. reflexivity. Qed.

Example dumps_example :
  dumps (JDict [(text "foo", JStr (text "bar")); (text "num", JInt 42);
                (text "l", JList [JNull; JBool true; JInt (-7)])])
  = jtext "{'foo':'bar','num':42,'l':[null,true,-7]}".
Proof. vm_compute. reflexivity. Qed.

Example loads_example :
  loads (jtext " {'foo' : 'b\u00e9\n', 'num':-42,'l':[null, true,[],{}], 'foo': 0 } ")
  = Ok (JDict [(text "foo", JInt 0); (text "num", JInt (-42));
               (text "l", JList [JNull; JBool true; JList []; JDict []])]).
Proof. vm_compute. reflexivity. Qed.

Example loads_not_json : loads (text "Socket connect failed") = Raise JSONDecodeError.
Proof. vm_compute. reflexivity. Qed.

Example loads_trailing : loads (text "[1,]") = Raise JSONDecodeError.
Proof. vm_compute. reflexivity. Qed.

Example loads_float : loads (text "[1.5]") = Unmodelled.
Proof. vm_compute. reflexivity. Qed.

(** ** Results and the monad *)

Ltac inv H := inversion H; subst; clear H.

Lemma Ok_inj {A} (a b : A) : Ok a = Ok b -> a = b.
Proof. congruence. Qed.

Lemma rbind_ok {A B} (r : result A) (k : A -> result B) (b : B) :
  rbind r k = Ok b -> exists a, r = Ok a /\ k a = Ok b.
Proof. destruct r; simpl; intros H; try discriminate. eauto. Qed.

Lemma byte_of_to_N (b : byte) : byte_of_N (Byte.to_N b) = b.
Proof.
  unfold byte_of_N. pose proof (Byte.to_N_bounded b).
  rewrite N.mod_small by lia. now rewrite Byte.of_to_N.
Qed.

Lemma to_N_byte_of (n : N) : n < 256 -> Byte.to_N (byte_of_N n) = n.
Proof.
  intros H. unfold byte_of_N. rewrite N.mod_small by lia.
  destruct (Byte.of_N n) eqn:E.
  - now apply Byte.to_of_N.
  - apply Byte.of_N_None_iff in E. lia.
Qed.

Lemma to_N_inj (a b : byte) : Byte.to_N a = Byte.to_N b -> a = b.
Proof. intros H. rewrite <- (byte_of_to_N a), <- (byte_of_to_N b). now rewrite H. Qed.

(** ** Text *)

Lemma encodable_app (a b : str) :
  encodable (a ++ b) = encodable a && encodable b.
Proof. apply forallb_app. Qed.

Lemma encodable_uint (u : Decimal.uint) : encodable (uint_digits u) = true.
Proof. induction u; simpl; auto. Qed.

Lemma encodable_str_of_int (z : Z) : encodable (str_of_int z) = true.
Proof.
  unfold str_of_int. destruct (Z.to_int z); simpl; apply encodable_uint.
Qed.

Lemma utf8_char_ok (c : N) :
  (c <? 0x110000) && negb (is_surrogate c) = true -> exists b, utf8_char c = Ok b.
Proof.
  intros H. apply andb_prop in H as [H1 H2]. unfold utf8_char.
  destruct (c <? 0x80); [eauto|].
  destruct (c <? 0x800); [eauto|].
  destruct (c <? 0x10000).
  - destruct (is_surrogate c); [discriminate | eauto].
  - rewrite H1. eauto.
Qed.


Lemma encode_utf8_encodable (s : str) (b : bytes) :
  encode_utf8 s = Ok b -> encodable s = true.
Proof.
  revert b. induction s as [|c s IH]; simpl; intros b H; [reflexivity|].
  apply rbind_ok in H as (x & Hx & H). apply rbind_ok in H as (y & Hy & _).
  rewrite (IH _ Hy), andb_true_r. unfold utf8_char in Hx.
  unfold is_surrogate in *.
  destruct (c <? 0x80) eqn:E1; [apply N.ltb_lt in E1|].
  { replace (c <? 0x110000) with true by (symmetry; apply N.ltb_lt; lia).
    replace (0xD800 <=? c) with false by (symmetry; apply N.leb_gt; lia). reflexivity. }
  destruct (c <? 0x800) eqn:E2; [apply N.ltb_lt in E2|].
  { replace (c <? 0x110000) with true by (symmetry; apply N.ltb_lt; lia).
    replace (0xD800 <=? c) with false by (symmetry; apply N.leb_gt; lia). reflexivity. }
  destruct (c <? 0x10000) eqn:E3; [apply N.ltb_lt in E3|].
  { replace (c <? 0x110000) with true by (symmetry; apply N.ltb_lt; lia).
    destruct ((0xD800 <=? c) && (c <=? 0xDFFF)); [discriminate | reflexivity]. }
  destruct (c <? 0x110000); [|discriminate].
  apply N.ltb_ge in E3.
  replace (c <=? 0xDFFF) with false by (symmetry; apply N.leb_gt; lia).
  now rewrite andb_false_r.
Qed.

(** ** UTF-8: decoding undoes encoding *)

Lemma is_cont_low6 (r : N) : r < 64 -> is_cont (0x80 + r) = true.
Proof.
  intros H. unfold is_cont. apply andb_true_intro.
  split; [apply N.leb_le | apply N.ltb_lt]; lia.
Qed.

Ltac settle_tests :=
  repeat match goal with
         | |- context [?a <? ?b] =>
             first [ replace (a <? b) with true by (symmetry; apply N.ltb_lt; lia)
                   | replace (a <? b) with false by (symmetry; apply N.ltb_ge; lia) ]
         | |- context [?a =? ?b] =>
             first [ replace (a =? b) with true by (symmetry; apply N.eqb_eq; lia)
                   | replace (a =? b) with false by (symmetry; apply N.eqb_neq; lia) ]
         end.

Lemma decode_utf8_char (c : N) (b : bytes) (rest : list N) :
  utf8_char c = Ok b ->
  decode_utf8_codes (map Byte.to_N b ++ rest) = c :: decode_utf8_codes rest.
Proof.
  unfold utf8_char.
  assert (N64 : 64 <> 0) by lia.
  pose proof (N.div_mod c 64 N64) as E0.
  pose proof (N.mod_upper_bound c 64 N64) as R0.
  pose proof (N.div_mod (c / 64) 64 N64) as E1.
  pose proof (N.mod_upper_bound (c / 64) 64 N64) as R1.
  pose proof (N.div_mod (c / 64 / 64) 64 N64) as E2.
  pose proof (N.mod_upper_bound (c / 64 / 64) 64 N64) as R2.
  rewrite !N.Div0.div_div in *. change (64 * 64) with 4096 in *.
  change (4096 * 64) with 262144 in *.
  set (r0 := c mod 64) in *. set (q1 := c / 64) in *.
  set (r1 := q1 mod 64) in *. set (q2 := c / 4096) in *.
  set (r2 := q2 mod 64) in *. set (q3 := c / 262144) in *.
  clearbody r0 q1 r1 q2 r2 q3. clear N64.
  destruct (N.ltb_spec c 0x80) as [H1|H1].
  { intros E; apply Ok_inj in E; subst b. cbn [map app]. rewrite to_N_byte_of by lia.
    cbn [decode_utf8_codes]. now settle_tests. }
  destruct (N.ltb_spec c 0x800) as [H2|H2].
  { intros E; apply Ok_inj in E; subst b. cbn [map app]. rewrite !to_N_byte_of by lia.
    cbn [decode_utf8_codes]. settle_tests. rewrite is_cont_low6 by lia.
    f_equal. lia. }
  destruct (N.ltb_spec c 0x10000) as [H3|H3].
  { unfold is_surrogate.
    destruct (N.leb_spec 0xD800 c) as [H4|H4]; [destruct (N.leb_spec c 0xDFFF) as [H5|H5]|];
      cbn [andb]; try discriminate.
    - intros E; apply Ok_inj in E; subst b. cbn [map app]. rewrite !to_N_byte_of by lia.
      cbn [decode_utf8_codes]. settle_tests. rewrite !is_cont_low6 by lia.
      cbn [negb orb]. destruct (128 + r1 <? 160); f_equal; lia.
    - intros E; apply Ok_inj in E; subst b. cbn [map app]. rewrite !to_N_byte_of by lia.
      cbn [decode_utf8_codes]. settle_tests. rewrite !is_cont_low6 by lia.
      cbn [negb orb].
      destruct (N.ltb_spec (128 + r1) 160); settle_tests; cbn [negb orb]; f_equal; lia. }
  destruct (N.ltb_spec c 0x110000) as [H4|H4]; [|discriminate].
  intros E; apply Ok_inj in E; subst b. cbn [map app]. rewrite !to_N_byte_of by lia.
  cbn [decode_utf8_codes]. settle_tests. rewrite !is_cont_low6 by lia.
  cbn [negb orb].
  destruct (N.ltb_spec (128 + r2) 144); settle_tests; cbn [negb orb]; f_equal; lia.
Qed.

(** [s.encode("utf-8").decode("utf-8", errors="ignore") == s] *)
Lemma decode_utf8_encode (s : str) (b : bytes) :
  encode_utf8 s = Ok b -> decode_utf8_ignore b = s.
Proof.
  unfold decode_utf8_ignore. revert b. induction s as [|c s IH]; intros b H.
  - apply Ok_inj in H. now subst.
  - cbn [encode_utf8] in H. apply rbind_ok in H as (x & Hx & H).
    apply rbind_ok in H as (y & Hy & H). apply Ok_inj in H. subst b.
    rewrite map_app, (decode_utf8_char c x _ Hx), (IH y Hy). reflexivity.
Qed.

(** ** SHA-256 and base64 *)

Lemma sha256_length (m : bytes) : List.length (SHA256.sha256 m) = 32%nat.
Proof. reflexivity. Qed.

Arguments SHA256.sha256 : simpl never.

Lemma b64_alphabet_in (x : byte) :
  In x b64_alphabet -> in_b64_alphabet (Byte.to_N x) = true.
Proof.
  assert (H : forallb (fun x => in_b64_alphabet (Byte.to_N x)) b64_alphabet = true)
    by (vm_compute; reflexivity).
  rewrite forallb_forall in H. apply H.
Qed.

Lemma b64_char_text (n : N) : b64_text (Byte.to_N (b64_char n)) = true.
Proof.
  unfold b64_char, b64_text.
  destruct (nth_in_or_default (N.to_nat n) b64_alphabet "="%byte) as [H | ->].
  - now rewrite (b64_alphabet_in _ H).
  - reflexivity.
Qed.


Lemma b64_text_ascii (c : N) : b64_text c = true -> c < 128.
Proof.
  unfold b64_text, in_b64_alphabet. intros H.
  apply orb_prop in H as [H | H].
  - apply existsb_exists in H as (x & Hx & E). apply N.eqb_eq in E. subst c.
    simpl in Hx.
    repeat (destruct Hx as [<- | Hx]; [vm_compute; reflexivity|]). destruct Hx.
  - apply N.eqb_eq in H. lia.
Qed.

Lemma utf8_char_cases (c : N) :
  (exists b, utf8_char c = Ok b) \/ utf8_char c = Raise UnicodeEncodeError.
Proof.
  unfold utf8_char.
  repeat match goal with
         | |- context [if ?x then _ else _] => destruct x
         end; eauto.
Qed.

Lemma encode_utf8_cases (s : str) :
  (exists b, encode_utf8 s = Ok b /\ encodable s = true)
  \/ (encode_utf8 s = Raise UnicodeEncodeError /\ encodable s = false).
Proof.
  induction s as [|c s IH]; simpl.
  - left. eauto.
  - destruct (utf8_char_cases c) as [[b Hb] | Hb].
    + destruct IH as [(bs & Hbs & Es) | [Hbs Es]].
      * left. exists (b ++ bs). rewrite Hb, Hbs. simpl. split; [reflexivity|].
        apply (encode_utf8_encodable (c :: s) (b ++ bs)). simpl. now rewrite Hb, Hbs.
      * right. rewrite Hb, Hbs, Es. simpl. now rewrite andb_false_r.
    + right. rewrite Hb. simpl. split; [reflexivity|].
      destruct ((c <? 0x110000) && negb (is_surrogate c)) eqn:E; [|reflexivity].
      destruct (utf8_char_ok c E) as [b Hb']. congruence.
Qed.

(** Lists three items at a time, as base64 reads them. *)
Lemma list_ind3 {A} (P : list A -> Prop) :
  P [] -> (forall x, P [x]) -> (forall x y, P [x; y]) ->
  (forall x y z l, P l -> P (x :: y :: z :: l)) ->
  forall l, P l.
Proof.
  intros H0 H1 H2 H3.
  assert (H : forall l, P l /\ (forall x, P (x :: l)) /\ (forall x y, P (x :: y :: l))).
  { induction l as [|a l (IH0 & IH1 & IH2)]; repeat split; auto. }
  intros l. apply H.
Qed.

Lemma b64encode_text (b : bytes) :
  forallb (fun x => b64_text (Byte.to_N x)) (b64encode b) = true.
Proof.
  induction b as [|x|x y|x y z l IH] using list_ind3; simpl;
    rewrite ?b64_char_text; auto.
Qed.

Lemma decode_ascii_text (b : bytes) :
  forallb (fun x => b64_text (Byte.to_N x)) b = true ->
  decode_ascii b = Ok (map Byte.to_N b).
Proof.
  induction b as [|x b IH]; simpl; intros H; [reflexivity|].
  apply andb_prop in H as [Hx Hb].
  apply b64_text_ascii in Hx. apply N.ltb_lt in Hx. rewrite Hx, (IH Hb). reflexivity.
Qed.

Lemma decode_ascii_b64encode (b : bytes) :
  decode_ascii (b64encode b) = Ok (map Byte.to_N (b64encode b)).
Proof. apply decode_ascii_text, b64encode_text. Qed.

Lemma b64encode_length (b : bytes) :
  List.length (b64encode b) = (4 * ((List.length b + 2) / 3))%nat.
Proof.
  induction b as [|x|x y|x y z l IH] using list_ind3; try reflexivity.
  cbn [b64encode List.length]. rewrite IH.
  replace (S (S (S (List.length l))) + 2)%nat with (1 * 3 + (List.length l + 2))%nat by lia.
  rewrite Nat.div_add_l by lia. lia.
Qed.

Lemma byte_quot (x : byte) (k : N) : 4 <= k -> Byte.to_N x / k < 64.
Proof.
  intros Hk. pose proof (Byte.to_N_bounded x).
  apply N.Div0.div_lt_upper_bound. nia.
Qed.

Lemma sextet2 (x y : byte) : Byte.to_N x mod 4 * 16 + Byte.to_N y / 16 < 64.
Proof.
  pose proof (N.mod_upper_bound (Byte.to_N x) 4 ltac:(lia)).
  assert (Byte.to_N y / 16 < 16)
    by (pose proof (Byte.to_N_bounded y); apply N.Div0.div_lt_upper_bound; lia).
  lia.
Qed.

Lemma sextet3 (y z : byte) : Byte.to_N y mod 16 * 4 + Byte.to_N z / 64 < 64.
Proof.
  pose proof (N.mod_upper_bound (Byte.to_N y) 16 ltac:(lia)).
  assert (Byte.to_N z / 64 < 4)
    by (pose proof (Byte.to_N_bounded z); apply N.Div0.div_lt_upper_bound; lia).
  lia.
Qed.

Lemma sextet4 (z : byte) : Byte.to_N z mod 64 < 64.
Proof. apply N.mod_upper_bound. lia. Qed.


(** ** Token derivation *)

Lemma generate_token_ok (cmd pw salt : str) (ts : Z) (data : bytes) :
  encode_utf8 (cmd ++ pw ++ salt ++ str_of_int ts) = Ok data ->
  generate_token cmd pw salt ts
  = Ok (firstn 8 (map Byte.to_N (b64encode (SHA256.sha256 data))), SHA256.sha256 data).
Proof.
  intros H. unfold generate_token, sha256_digest_bytes. rewrite H. cbn [rbind].
  rewrite decode_ascii_b64encode. reflexivity.
Qed.

Lemma encodable_concat (cmd pw salt : str) (ts : Z) :
  encodable (cmd ++ pw ++ salt ++ str_of_int ts)
  = encodable cmd && encodable pw && encodable salt.
Proof.
  rewrite !encodable_app, encodable_str_of_int. now rewrite andb_true_r, !andb_assoc.
Qed.

Lemma generate_token_cases (cmd pw salt : str) (ts : Z) :
  (exists data,
      encode_utf8 (cmd ++ pw ++ salt ++ str_of_int ts) = Ok data
      /\ encodable cmd && encodable pw && encodable salt = true
      /\ generate_token cmd pw salt ts
         = Ok (firstn 8 (map Byte.to_N (b64encode (SHA256.sha256 data))),
               SHA256.sha256 data))
  \/ (generate_token cmd pw salt ts = Raise UnicodeEncodeError
      /\ encodable cmd && encodable pw && encodable salt = false).
Proof.
  destruct (encode_utf8_cases (cmd ++ pw ++ salt ++ str_of_int ts))
    as [(data & Hd & E) | [Hd E]]; rewrite encodable_concat in E.
  - left. exists data. auto using generate_token_ok.
  - right. split; [|assumption].
    unfold generate_token, sha256_digest_bytes. now rewrite Hd.
Qed.




(** ** The socket *)

Lemma rx_bytes_unread (d : bytes) (rest : list rx_event) :
  rx_bytes (unread d rest) = d ++ rx_bytes rest.
Proof. destruct d; reflexivity. Qed.

Lemma rx_eof_unread (d : bytes) (rest : list rx_event) :
  rx_eof (unread d rest) = rx_eof rest.
Proof. destruct d; reflexivity. Qed.

(** Taking [m] items from [x ++ r] in two steps: what [x] gives first,
    then the rest. *)
Lemma firstn_two_steps {A} (m : nat) (x r : list A) :
  firstn m (x ++ r)
  = firstn m x ++ firstn (m - List.length (firstn m x)) (skipn m x ++ r).
Proof.
  rewrite firstn_app, length_firstn.
  destruct (Nat.le_gt_cases m (List.length x)) as [H | H].
  - replace (m - List.length x)%nat with 0%nat by lia.
    replace (m - Nat.min m (List.length x))%nat with 0%nat by lia. reflexivity.
  - rewrite (@skipn_all2 _ m x) by lia.
    replace (Nat.min m (List.length x)) with (List.length x) by lia. reflexivity.
Qed.

Lemma skipn_two_steps {A} (m : nat) (x r : list A) :
  skipn m (x ++ r) = skipn (m - List.length (firstn m x)) (skipn m x ++ r).
Proof.
  rewrite skipn_app, length_firstn.
  destruct (Nat.le_gt_cases m (List.length x)) as [H | H].
  - replace (m - List.length x)%nat with 0%nat by lia.
    replace (m - Nat.min m (List.length x))%nat with 0%nat by lia. reflexivity.
  - rewrite (@skipn_all2 _ m x) by lia.
    replace (Nat.min m (List.length x)) with (List.length x) by lia. reflexivity.
Qed.

Lemma leb_two_steps {A} (m : nat) (x r : list A) :
  (m <=? List.length (x ++ r))%nat
  = (m - List.length (firstn m x) <=? List.length (skipn m x ++ r))%nat.
Proof.
  rewrite !length_app, length_firstn, length_skipn.
  destruct (Nat.leb_spec m (List.length x + List.length r));
    symmetry; [apply Nat.leb_le | apply Nat.leb_gt]; lia.
Qed.

Lemma recvall_outcome_step (k : nat) (data : bytes) (b : byte) (d : bytes)
    (rest : list rx_event) :
  recvall_outcome (S k) data (RxData b d :: rest)
  = recvall_outcome (S k - List.length (firstn (S k) (b :: d)))
                    (data ++ firstn (S k) (b :: d))
                    (unread (skipn (S k) (b :: d)) rest).
Proof.
  unfold recvall_outcome. rewrite rx_bytes_unread, rx_eof_unread.
  change (rx_bytes (RxData b d :: rest)) with ((b :: d) ++ rx_bytes rest).
  change (rx_eof (RxData b d :: rest)) with (rx_eof rest).
  rewrite <- leb_two_steps, <- app_assoc, <- firstn_two_steps. reflexivity.
Qed.

Lemma recvall_loop_spec (fuel : nat) :
  forall (n : N) (data : bytes) (w : world) (evs : list rx_event),
    peer w = Some evs ->
    (N.to_nat n - List.length data <= fuel)%nat ->
    exists w' evs' l,
      recvall_loop fuel n data w
      = (recvall_outcome (N.to_nat n - List.length data) data evs, w')
      /\ clock w' = clock w
      /\ peer w' = Some evs'
      /\ trace w' = trace w ++ l /\ forallb is_recv l = true
      /\ ((N.to_nat n - List.length data <= List.length (rx_bytes evs))%nat ->
          rx_bytes evs' = skipn (N.to_nat n - List.length data) (rx_bytes evs)
          /\ rx_eof evs' = rx_eof evs).
Proof.
  assert (Hdone : forall fuel n data w evs,
             peer w = Some evs -> (N.to_nat n - List.length data = 0)%nat ->
             exists w' evs' l,
               recvall_loop fuel n data w
               = (recvall_outcome (N.to_nat n - List.length data) data evs, w')
               /\ clock w' = clock w /\ peer w' = Some evs'
               /\ trace w' = trace w ++ l /\ forallb is_recv l = true
               /\ ((N.to_nat n - List.length data <= List.length (rx_bytes evs))%nat ->
                   rx_bytes evs' = skipn (N.to_nat n - List.length data) (rx_bytes evs)
                   /\ rx_eof evs' = rx_eof evs)).
  { intros f n data w evs Hp E. exists w, evs, [].
    replace (recvall_loop f n data w) with (ret (Some data) w).
    2:{ destruct f; cbn [recvall_loop];
        replace (N.of_nat (List.length data) <? n) with false
          by (symmetry; apply N.ltb_ge; lia); reflexivity. }
    unfold ret, recvall_outcome. rewrite E. cbn. rewrite !app_nil_r. auto 10. }
  induction fuel as [|fuel IH]; intros n data w evs Hp Hf.
  - apply Hdone; [assumption | lia].
  - destruct (Nat.eq_dec (N.to_nat n - List.length data) 0) as [E | E];
      [now apply Hdone|].
    cbn [recvall_loop].
    replace (N.of_nat (List.length data) <? n) with true
      by (symmetry; apply N.ltb_lt; lia).
    remember (N.to_nat n - List.length data)%nat as need eqn:Eneed.
    assert (Hneed : N.to_nat (n - N.of_nat (List.length data)) = need) by lia.
    unfold bind, recv. rewrite Hp, Hneed.
    destruct need as [|k]; [lia|].
    destruct evs as [|[b d|] rest].
    + exists (log (Recv (n - N.of_nat (List.length data))) w), [],
        [Recv (n - N.of_nat (List.length data))].
      unfold ret, recvall_outcome. cbn. repeat split; auto; lia.
    + set (w1 := World _ _ _).
      assert (Hlen : (N.to_nat n - List.length (data ++ firstn (S k) (b :: d))
                      = S k - List.length (firstn (S k) (b :: d)))%nat).
      { rewrite length_app. lia. }
      destruct (IH n (data ++ firstn (S k) (b :: d)) w1
                   (unread (skipn (S k) (b :: d)) rest))
        as (w' & evs' & l & Hrun & Hc & Hp' & Ht & Hl & Hrest); [reflexivity| |].
      { rewrite Hlen. cbn [firstn List.length]. lia. }
      exists w', evs', (Recv (n - N.of_nat (List.length data)) :: l).
      rewrite recvall_outcome_step, <- Hlen.
      change (firstn (S k) (b :: d)) with (b :: firstn k d) in Hrun |- *.
      cbv iota beta. rewrite Hrun.
      split; [reflexivity|]. split; [assumption|]. split; [assumption|].
      split; [rewrite Ht; unfold w1; cbn [trace log]; now rewrite <- app_assoc|].
      split; [assumption|].
      intros H. apply Nat.leb_le in H.
      change (rx_bytes (RxData b d :: rest)) with ((b :: d) ++ rx_bytes rest) in *.
      rewrite leb_two_steps, <- Hlen, <- rx_bytes_unread in H. apply Nat.leb_le in H.
      destruct (Hrest H) as [Hb He]. split.
      * rewrite Hb, Hlen, rx_bytes_unread. symmetry. apply skipn_two_steps.
      * rewrite He, rx_eof_unread. reflexivity.
    + exists (World (clock w) (Some rest)
                    (trace w ++ [Recv (n - N.of_nat (List.length data))])),
        rest, [Recv (n - N.of_nat (List.length data))].
      unfold recvall_outcome. cbn. repeat split; auto; lia.
Qed.

Lemma recvall_spec (n : N) (w : world) (evs : list rx_event) :
  peer w = Some evs ->
  exists w' evs' l,
    recvall n w = (recvall_outcome (N.to_nat n) [] evs, w')
    /\ clock w' = clock w
    /\ peer w' = Some evs'
    /\ trace w' = trace w ++ l /\ forallb is_recv l = true
    /\ ((N.to_nat n <= List.length (rx_bytes evs))%nat ->
        rx_bytes evs' = skipn (N.to_nat n) (rx_bytes evs) /\ rx_eof evs' = rx_eof evs).
Proof.
  intros Hp. unfold recvall.
  destruct (recvall_loop_spec (N.to_nat n) n [] w evs Hp) as (w' & evs' & l & H);
    [cbn; lia|].
  cbn [List.length] in H. rewrite Nat.sub_0_r in H. eauto.
Qed.

(** The turns counted by [recvall] are enough on every stream. *)
Lemma recvall_modelled (n : N) (w : world) : fst (recvall n w) <> Unmodelled.
Proof.
  destruct (peer w) as [evs|] eqn:Hp.
  - destruct (recvall_spec n w evs Hp) as (w' & evs' & l & -> & _).
    cbn [fst]. unfold recvall_outcome.
    destruct (_ <=? _)%nat; [discriminate|]. destruct (rx_eof evs); discriminate.
  - unfold recvall. destruct (N.to_nat n) as [|k] eqn:E; cbn [recvall_loop List.length].
    + replace n with 0 by lia. discriminate.
    + replace (N.of_nat 0 <? n) with true by (symmetry; apply N.ltb_lt; lia).
      unfold bind, recv. rewrite Hp. discriminate.
Qed.

(** [recvall] hands back a [bytes] of exactly [n] items or [None]. *)
Lemma recvall_outcome_some (n : nat) (evs : list rx_event) (d : bytes) :
  recvall_outcome n [] evs = Ok (Some d) ->
  d = firstn n (rx_bytes evs) /\ List.length d = n
  /\ (n <= List.length (rx_bytes evs))%nat.
Proof.
  unfold recvall_outcome. destruct (Nat.leb_spec n (List.length (rx_bytes evs))) as [H|H].
  - intros E. inv E. cbn [app]. rewrite length_firstn. repeat split; lia.
  - destruct (rx_eof evs); discriminate.
Qed.

Lemma recvall_outcome_none (n : nat) (evs : list rx_event) :
  recvall_outcome n [] evs = Ok None
  <-> (List.length (rx_bytes evs) < n)%nat /\ rx_eof evs = true.
Proof.
  unfold recvall_outcome. destruct (Nat.leb_spec n (List.length (rx_bytes evs))) as [H|H].
  - split; [discriminate | lia].
  - destruct (rx_eof evs); split; try discriminate; intuition (auto; discriminate).
Qed.



(** ** Transport *)

Lemma unpack_four (header : bytes) (n : N) :
  unpack_u32_le header = Ok n -> List.length header = 4%nat.
Proof.
  destruct header as [|h0 [|h1 [|h2 [|h3 [|h4 t]]]]]; try discriminate. reflexivity.
Qed.

Lemma exchange_connected (host : str) (port timeout : Z) (req : list (str * json))
    (w : world) (evs : list rx_event) (prefix : bytes) :
  peer w = Some evs ->
  pack_u32_le (N.of_nat (List.length (request_frame req))) = Ok prefix ->
  send_request_and_receive host port req timeout w
  = (fst (receive_response (sent host port timeout prefix (request_frame req) w)),
     log Close (snd (receive_response (sent host port timeout prefix (request_frame req) w)))).
Proof.
  intros Hp Hk. unfold send_request_and_receive, with_connection, create_connection.
  rewrite Hp. unfold bind at 1. unfold lift at 1. rewrite Hk.
  unfold bind at 1. unfold sendall at 1. unfold bind at 1. unfold sendall at 1.
  fold (sent host port timeout prefix (request_frame req) w).
  destruct (receive_response _). reflexivity.
Qed.

Lemma sent_peer host port timeout prefix frame w : peer (sent host port timeout prefix frame w) = peer w.
Proof. reflexivity. Qed.

Lemma receive_short_header (w : world) (evs : list rx_event) :
  peer w = Some evs -> (List.length (rx_bytes evs) < 4)%nat -> rx_eof evs = true ->
  fst (receive_response w) = Raise (ConnectionError ResponseLength).
Proof.
  intros Hp Hl He. unfold receive_response, bind.
  destruct (recvall_spec 4 w evs Hp) as (w' & evs' & l & -> & _).
  change (N.to_nat 4) with 4%nat.
  rewrite (proj2 (recvall_outcome_none _ evs)) by (split; [simpl; lia | assumption]).
  reflexivity.
Qed.

Lemma receive_after_header (w : world) (evs : list rx_event) (header rest : bytes) (n : N) :
  peer w = Some evs -> rx_bytes evs = header ++ rest -> unpack_u32_le header = Ok n ->
  exists w1 evs1 l,
    recvall 4 w = (Ok (Some header), w1)
    /\ peer w1 = Some evs1 /\ rx_bytes evs1 = rest /\ rx_eof evs1 = rx_eof evs
    /\ clock w1 = clock w /\ trace w1 = trace w ++ l /\ forallb is_recv l = true
    /\ receive_response w
       = (if n =? 0 then ret (JDict [])
          else
            (resp_bytes <- recvall n ;;
             match resp_bytes with
             | None => raise (ConnectionError FullResponse)
             | Some resp_bytes =>
                 let resp_text := decode_utf8_ignore resp_bytes in
                 match loads resp_text with
                 | Ok v => ret v
                 | Raise _ => ret (JDict [(text "raw", JStr resp_text)])
                 | Unmodelled => lift Unmodelled
                 end
             end)%monad) w1.
Proof.
  intros Hp Hb Hu. pose proof (unpack_four _ _ Hu) as H4.
  destruct (recvall_spec 4 w evs Hp) as (w1 & evs1 & l & Hr & Hc & Hp1 & Ht & Hl & Hrest).
  change (N.to_nat 4) with 4%nat in *.
  assert (Hout : recvall_outcome 4 [] evs = Ok (Some header)).
  { unfold recvall_outcome. rewrite Hb, length_app.
    destruct (Nat.leb_spec 4 (List.length header + List.length rest)); [|lia].
    cbn [app]. rewrite firstn_app, (@firstn_all2 _ 4 header) by lia.
    replace (4 - List.length header)%nat with 0%nat by lia.
    cbn [firstn]. now rewrite app_nil_r. }
  destruct Hrest as [Hb1 He1]; [rewrite Hb, length_app; lia|].
  exists w1, evs1, l. rewrite Hr, Hout.
  repeat (split; [first [reflexivity | assumption]|]).
  split.
  { rewrite Hb1, Hb, skipn_app, (@skipn_all2 _ 4 header) by lia.
    replace (4 - List.length header)%nat with 0%nat by lia. reflexivity. }
  repeat (split; [first [reflexivity | assumption]|]).
  unfold receive_response. unfold bind at 1. rewrite Hr, Hout.
  replace (List.length header <? 4)%nat with false
    by (symmetry; apply Nat.ltb_ge; lia).
  unfold bind at 1. unfold lift at 1. rewrite Hu. reflexivity.
Qed.

(** C8. Once the request is written: if the four header bytes declare
    length zero, [send_request_and_receive] returns the empty object and
    the socket is closed right after the header was read, the bytes
    behind the header left unread; if the declared payload arrives and
    [json.loads] raises on its text, the result is the object with the
    single key "raw" holding the text [decode("utf-8", errors="ignore")]
    gives, and nothing is raised. *)
Theorem exchange_empty_and_raw (host : str) (port timeout : Z) (req : list (str * json))
    (w : world) (evs : list rx_event) (prefix : bytes) :
  peer w = Some evs ->
  pack_u32_le (N.of_nat (List.length (request_frame req))) = Ok prefix ->
  (forall extra,
      rx_bytes evs = x00 :: x00 :: x00 :: x00 :: extra ->
      exists w_header evs',
        recvall 4 (sent host port timeout prefix (request_frame req) w)
        = (Ok (Some [x00; x00; x00; x00]), w_header)
        /\ send_request_and_receive host port req timeout w
           = (Ok (JDict []), log Close w_header)
        /\ peer w_header = Some evs' /\ rx_bytes evs' = extra)
  /\ (forall header payload extra n e,
         rx_bytes evs = header ++ payload ++ extra ->
         unpack_u32_le header = Ok n -> n <> 0 ->
         List.length payload = N.to_nat n ->
         loads (decode_utf8_ignore payload) = Raise e ->
         fst (send_request_and_receive host port req timeout w)
         = Ok (JDict [(text "raw", JStr (decode_utf8_ignore payload))])).
Proof.
  intros Hp Hk. rewrite (exchange_connected host port timeout req w evs prefix Hp Hk).
  set (w2 := sent host port timeout prefix (request_frame req) w).
  assert (Hp2 : peer w2 = Some evs) by exact Hp.
  split.
  - intros extra Hb.
    destruct (receive_after_header w2 evs [x00; x00; x00; x00] extra 0 Hp2 Hb eq_refl)
      as (w1 & evs1 & l & Hr & Hp1 & Hb1 & _ & _ & _ & _ & Hrun).
    exists w1, evs1. rewrite Hrun. cbn. auto.
  - intros header payload extra n e Hb Hu Hn Hl Hloads.
    destruct (receive_after_header w2 evs header (payload ++ extra) n Hp2 Hb Hu)
      as (w1 & evs1 & l & Hr & Hp1 & Hb1 & _ & _ & _ & _ & Hrun).
    rewrite Hrun. replace (n =? 0) with false by (symmetry; apply N.eqb_neq; assumption).
    unfold bind.
    destruct (recvall_spec n w1 evs1 Hp1) as (w3 & evs3 & l3 & -> & _).
    unfold recvall_outcome. rewrite Hb1, length_app, <- Hl.
    destruct (Nat.leb_spec (List.length payload) (List.length payload + List.length extra));
      [|lia].
    cbn [app]. rewrite firstn_app, firstn_all, Nat.sub_diag. cbn [firstn].
    rewrite app_nil_r, Hloads. reflexivity.
Qed.

Lemma exchange_empty_and_raw_witness :
  fst (send_request_and_receive (text "10.0.0.2") 4433 [(text "cmd", JStr (text "get.x"))] 10
         (World 0 (Some [RxData x03 [x00]; RxData x00 [x00; "o"%byte]; RxData "o"%byte ["p"%byte]])
                []))
  = Ok (JDict [(text "raw", JStr (text "oop"))]).
Proof.
  refine (proj2 (exchange_empty_and_raw (text "10.0.0.2") 4433 10
                   [(text "cmd", JStr (text "get.x"))]
                   (World 0 (Some [RxData x03 [x00]; RxData x00 [x00; "o"%byte];
                                   RxData "o"%byte ["p"%byte]]) [])
                   _ _ eq_refl eq_refl)
                [x03; x00; x00; x00] (blit "oop") [] 3 JSONDecodeError
                eq_refl eq_refl _ eq_refl eq_refl).
  discriminate.
Defined.

(** C9. Once the request is written: if the stream ends before four
    header bytes have arrived, or before the declared number of payload
    bytes has arrived, [send_request_and_receive] raises a connection
    error and returns nothing. [recvall] returns exactly [n] bytes when
    it returns bytes, returns them whenever the stream holds [n] bytes
    before any failure, and returns [None] exactly when the stream ends
    first. *)
Theorem short_read_is_connection_error (host : str) (port timeout : Z)
    (req : list (str * json)) (w : world) (evs : list rx_event) (prefix : bytes) :
  peer w = Some evs ->
  pack_u32_le (N.of_nat (List.length (request_frame req))) = Ok prefix ->
  ((List.length (rx_bytes evs) < 4)%nat -> rx_eof evs = true ->
   fst (send_request_and_receive host port req timeout w)
   = Raise (ConnectionError ResponseLength))
  /\ (forall header partial n,
         rx_bytes evs = header ++ partial ->
         unpack_u32_le header = Ok n ->
         (List.length partial < N.to_nat n)%nat -> rx_eof evs = true ->
         fst (send_request_and_receive host port req timeout w)
         = Raise (ConnectionError FullResponse))
  /\ (forall n : N,
         (forall d, fst (recvall n w) = Ok (Some d) ->
                    List.length d = N.to_nat n /\ d = firstn (N.to_nat n) (rx_bytes evs))
         /\ ((N.to_nat n <= List.length (rx_bytes evs))%nat ->
             fst (recvall n w) = Ok (Some (firstn (N.to_nat n) (rx_bytes evs))))
         /\ (fst (recvall n w) = Ok None
             <-> (List.length (rx_bytes evs) < N.to_nat n)%nat /\ rx_eof evs = true)).
Proof.
  intros Hp Hk. rewrite (exchange_connected host port timeout req w evs prefix Hp Hk).
  set (w2 := sent host port timeout prefix (request_frame req) w).
  assert (Hp2 : peer w2 = Some evs) by exact Hp.
  cbn [fst]. split; [|split].
  - intros Hl He. now apply (receive_short_header w2 evs).
  - intros header partial n Hb Hu Hl He.
    destruct (receive_after_header w2 evs header partial n Hp2 Hb Hu)
      as (w1 & evs1 & l & Hr & Hp1 & Hb1 & He1 & _ & _ & _ & Hrun).
    rewrite Hrun. replace (n =? 0) with false by (symmetry; apply N.eqb_neq; lia).
    unfold bind.
    destruct (recvall_spec n w1 evs1 Hp1) as (w3 & evs3 & l3 & -> & _).
    rewrite (proj2 (recvall_outcome_none _ evs1)); [reflexivity|].
    rewrite Hb1, He1. auto.
  - intros n. destruct (recvall_spec n w evs Hp) as (w' & evs' & l & -> & _).
    cbn [fst]. split; [|split].
    + intros d Hd. apply recvall_outcome_some in Hd as (-> & Hl & _).
      rewrite length_firstn in *. split; [lia | reflexivity].
    + intros Hl. unfold recvall_outcome.
      destruct (Nat.leb_spec (N.to_nat n) (List.length (rx_bytes evs))); [reflexivity | lia].
    + apply recvall_outcome_none.
Qed.

Lemma short_read_is_connection_error_witness :
  fst (send_request_and_receive (text "10.0.0.2") 4433 [(text "cmd", JStr (text "get.x"))] 10
         (World 0 (Some [RxData x05 [x00]; RxData x00 [x00; "{"%byte]]) []))
  = Raise (ConnectionError FullResponse).
Proof.
  exact (proj1 (proj2 (short_read_is_connection_error (text "10.0.0.2") 4433 10
                   [(text "cmd", JStr (text "get.x"))]
                   (World 0 (Some [RxData x05 [x00]; RxData x00 [x00; "{"%byte]]) [])
                   _ _ eq_refl eq_refl))
               [x05; x00; x00; x00] (blit "{") 5 eq_refl eq_refl
               ltac:(vm_compute; lia) eq_refl).
Defined.

(** ** Request builder *)

Lemma build_request_world account pw cmd param salt ts (w : world) :
  snd (build_request account pw cmd param salt ts w) = w.
Proof.
  unfold build_request, bind, ret, raise, lift, now_ts_int.
  destruct (startswith cmd (text "set.")).
  - destruct ts, salt; cbn [fst snd]; try reflexivity;
      destruct (generate_token _ _ _ _) as [[token key]| |]; try reflexivity;
      destruct (existsb _ _); destruct (is_none param); cbn [negb]; try reflexivity;
      destruct (encrypt_param_aes_ecb_base64 _ _); reflexivity.
  - destruct ts; destruct (is_none param); reflexivity.
Qed.

(** The request of a command outside [set.*]. *)
Lemma build_request_get account pw cmd param salt ts (w : world) :
  startswith cmd (text "set.") = false ->
  build_request account pw cmd param salt ts w
  = (Ok (if is_none param then [(text "cmd", JStr cmd)]
         else [(text "cmd", JStr cmd); (text "param", param)]), w).
Proof.
  intros H. unfold build_request, bind, ret, raise, lift, now_ts_int. rewrite H.
  destruct ts; destruct (is_none param); reflexivity.
Qed.

(** The request of a [set.*] command, by cases. *)
Lemma build_request_set account pw cmd param salt ts (w : world) :
  startswith cmd (text "set.") = true ->
  build_request account pw cmd param salt ts w
  = (match salt with
     | None => Raise (ValueError SaltRequired)
     | Some salt =>
         match generate_token cmd pw salt (effective_ts ts w) with
         | Ok (token, key) =>
             let request := [(text "cmd", JStr cmd); (text "ts", JInt (effective_ts ts w));
                             (text "token", JStr token); (text "account", JStr account)] in
             if existsb (str_eqb cmd) _ENCRYPTED_COMMANDS then
               if is_none param then Raise (ValueError (ParamRequired cmd))
               else
                 match encrypt_param_aes_ecb_base64 param (Some key) with
                 | Ok enc_b64 => Ok (request ++ [(text "param", JStr enc_b64)])
                 | Raise e => Raise e
                 | Unmodelled => Unmodelled
                 end
             else
               if is_none param then Ok request
               else Ok (request ++ [(text "param", param)])
         | Raise e => Raise e
         | Unmodelled => Unmodelled
         end
     end, w).
Proof.
  intros H. unfold build_request, bind, ret, raise, lift, now_ts_int. rewrite H.
  destruct ts, salt; cbn [effective_ts]; try reflexivity;
    destruct (generate_token _ _ _ _) as [[token key]| |]; try reflexivity;
    destruct (existsb _ _); destruct (is_none param); cbn [negb]; try reflexivity;
    destruct (encrypt_param_aes_ecb_base64 _ _); reflexivity.
Qed.

Lemma call_whatsminer_built host port account pw cmd param salt ts timeout (w : world) req :
  fst (build_request account pw cmd param salt ts w) = Ok req ->
  call_whatsminer host port account pw cmd param salt ts timeout w
  = send_request_and_receive host port req timeout w.
Proof.
  intros H. unfold call_whatsminer, bind.
  pose proof (build_request_world account pw cmd param salt ts w) as Hw.
  destruct (build_request account pw cmd param salt ts w) as [r w']. cbn in *. now subst.
Qed.

Lemma call_whatsminer_not_built host port account pw cmd param salt ts timeout (w : world) :
  (forall req, fst (build_request account pw cmd param salt ts w) <> Ok req) ->
  call_whatsminer host port account pw cmd param salt ts timeout w
  = (match fst (build_request account pw cmd param salt ts w) with
     | Ok _ => Unmodelled
     | Raise e => Raise e
     | Unmodelled => Unmodelled
     end, w).
Proof.
  intros H. unfold call_whatsminer, bind.
  pose proof (build_request_world account pw cmd param salt ts w) as Hw.
  destruct (build_request account pw cmd param salt ts w) as [[r|e|] w']; cbn in *;
    subst; try reflexivity.
  now destruct (H r).
Qed.

(** C4. In every request [call_whatsminer] builds and hands to the
    transport, each of the keys "ts", "token" and "account" is present
    if and only if [cmd] starts with "set."; the request of a command
    outside [set.*] called without a parameter holds the single key
    "cmd". *)
Theorem auth_keys_iff_mutating (host : str) (port : Z) (account account_password cmd : str)
    (param : json) (salt : option str) (ts : option Z) (timeout : Z) (w : world)
    (request : list (str * json)) :
  fst (build_request account account_password cmd param salt ts w) = Ok request ->
  call_whatsminer host port account account_password cmd param salt ts timeout w
  = send_request_and_receive host port request timeout w
  /\ dict_has (text "ts") request = startswith cmd (text "set.")
  /\ dict_has (text "token") request = startswith cmd (text "set.")
  /\ dict_has (text "account") request = startswith cmd (text "set.")
  /\ dict_get (text "cmd") request = Some (JStr cmd)
  /\ (startswith cmd (text "set.") = false -> param = JNull ->
      request = [(text "cmd", JStr cmd)]).
Proof.
  intros H. split; [now apply call_whatsminer_built|].
  destruct (startswith cmd (text "set.")) eqn:Hset.
  - rewrite build_request_set in H by assumption. cbn [fst] in H.
    destruct salt as [salt|]; [|discriminate].
    destruct (generate_token _ _ _ _) as [[token key]| |]; try discriminate.
    destruct (existsb _ _); destruct (is_none param); try discriminate;
      try destruct (encrypt_param_aes_ecb_base64 _ _); try discriminate;
      inv H; repeat split; try reflexivity; discriminate.
  - rewrite build_request_get in H by assumption. cbn [fst] in H.
    destruct (is_none param) eqn:Hn; inv H; repeat split; try reflexivity.
    intros _ ->. discriminate.
Qed.

Lemma auth_keys_iff_mutating_witness :
  dict_has (text "ts") [(text "cmd", JStr (text "get.device.info"))]
  = startswith (text "get.device.info") (text "set.").
Proof.
  exact (proj1 (proj2 (auth_keys_iff_mutating
                         (text "10.0.0.2") 4433 (text "super") (text "passw0rd")
                         (text "get.device.info") JNull None None 10 quiet_world
                         [(text "cmd", JStr (text "get.device.info"))] eq_refl))).
Defined.

(** C5. A command that starts with "set." called without a salt fails
    with the validation error of the salt, whatever [ts] is, before
    anything else happens; for a command that does not start with
    "set." the salt makes no difference and the request is built. *)
Theorem salt_required (host : str) (port : Z) (account account_password cmd : str)
    (param : json) (ts : option Z) (timeout : Z) (w : world) :
  (startswith cmd (text "set.") = true ->
   call_whatsminer host port account account_password cmd param None ts timeout w
   = (Raise (ValueError SaltRequired), w))
  /\ (startswith cmd (text "set.") = false ->
      forall salt : option str,
        call_whatsminer host port account account_password cmd param salt ts timeout w
        = call_whatsminer host port account account_password cmd param None ts timeout w
        /\ exists request,
            build_request account account_password cmd param salt ts w = (Ok request, w)).
Proof.
  split.
  - intros H. unfold call_whatsminer, bind. rewrite build_request_set by assumption.
    reflexivity.
  - intros H salt. split.
    + unfold call_whatsminer, bind. now rewrite !build_request_get by assumption.
    + rewrite build_request_get by assumption. eauto.
Qed.

Lemma salt_required_witness :
  call_whatsminer (text "host") 1 (text "acc") (text "pwd") (text "set.miner.power")
                  JNull None None DEFAULT_TIMEOUT quiet_world
  = (Raise (ValueError SaltRequired), quiet_world)
  /\ call_whatsminer (text "host") 1 (text "acc") (text "pwd") (text "get.device.info")
                     (JStr (text "salt")) (Some (text "unused")) None DEFAULT_TIMEOUT quiet_world
     = call_whatsminer (text "host") 1 (text "acc") (text "pwd") (text "get.device.info")
                       (JStr (text "salt")) None None DEFAULT_TIMEOUT quiet_world.
Proof.
  split.
  - exact (proj1 (salt_required (text "host") 1 (text "acc") (text "pwd")
                    (text "set.miner.power") JNull None DEFAULT_TIMEOUT quiet_world) eq_refl).
  - exact (proj1 (proj2 (salt_required (text "host") 1 (text "acc") (text "pwd")
                           (text "get.device.info") (JStr (text "salt")) None
                           DEFAULT_TIMEOUT quiet_world) eq_refl (Some (text "unused")))).
Defined.



Import AES.

(** ** Checking a property on every byte *)

Lemma forall_bool_spec (P : bool -> bool) :
  forall_bool P = true -> forall b, P b = true.
Proof.
  unfold forall_bool. intros H b. apply andb_prop in H as [H0 H1]. now destruct b.
Qed.

Lemma forall_byte_spec (P : byte -> bool) :
  forall_byte P = true -> forall b, P b = true.
Proof.
  intros H b. rewrite <- (Byte.of_bits_to_bits b).
  destruct (Byte.to_bits b) as (b0 & b1 & b2 & b3 & b4 & b5 & b6 & b7).
  unfold forall_byte in H.
  apply (forall_bool_spec _ (forall_bool_spec _ (forall_bool_spec _ (forall_bool_spec _
        (forall_bool_spec _ (forall_bool_spec _ (forall_bool_spec _ (forall_bool_spec _
          H b0) b1) b2) b3) b4) b5) b6) b7).
Qed.

Lemma byte_eqb_eq (a b : byte) : Byte.eqb a b = true -> a = b.
Proof. apply Byte.byte_dec_bl. Qed.

Lemma forall_byte_eq (f g : byte -> byte) :
  forall_byte (fun a => Byte.eqb (f a) (g a)) = true -> forall a, f a = g a.
Proof. intros H a. apply byte_eqb_eq. now apply (forall_byte_spec _ H). Qed.

Lemma forall_byte2_eq (f g : byte -> byte -> byte) :
  forall_byte (fun a => forall_byte (fun b => Byte.eqb (f a b) (g a b))) = true ->
  forall a b, f a b = g a b.
Proof.
  intros H a b. apply byte_eqb_eq.
  apply (forall_byte_spec _ (forall_byte_spec _ H a)).
Qed.

(** ** The field arithmetic of AES *)

Lemma inv_sbox_sbox (b : byte) : inv_sbox (sbox b) = b.
Proof. revert b. apply forall_byte_eq. vm_compute. reflexivity. Qed.

Lemma bxor_comm (a b : byte) : bxor a b = bxor b a.
Proof. unfold bxor. now rewrite N.lxor_comm. Qed.

Lemma to_N_bxor (a b : byte) : Byte.to_N (bxor a b) = N.lxor (Byte.to_N a) (Byte.to_N b).
Proof.
  apply N.eqb_eq. revert a b.
  assert (H : forall_byte (fun a => forall_byte (fun b =>
                N.eqb (Byte.to_N (bxor a b)) (N.lxor (Byte.to_N a) (Byte.to_N b)))) = true)
    by (vm_compute; reflexivity).
  intros a b. apply (forall_byte_spec _ (forall_byte_spec _ H a)).
Qed.

Lemma bxor_assoc (a b c : byte) : bxor a (bxor b c) = bxor (bxor a b) c.
Proof. apply to_N_inj. rewrite !to_N_bxor. symmetry. apply N.lxor_assoc. Qed.

Lemma bxor_nilpotent (a : byte) : bxor a a = x00.
Proof. apply to_N_inj. rewrite to_N_bxor, N.lxor_nilpotent. reflexivity. Qed.

Lemma bxor_0_r (a : byte) : bxor a x00 = a.
Proof. apply to_N_inj. rewrite to_N_bxor. apply N.lxor_0_r. Qed.

Lemma bxor_0_l (a : byte) : bxor x00 a = a.
Proof. rewrite bxor_comm. apply bxor_0_r. Qed.

(** Equations between sums of bytes, bit by bit. *)
Ltac bxor_ac :=
  apply to_N_inj; rewrite ?to_N_bxor; apply N.bits_inj; intro;
  rewrite ?N.lxor_spec; btauto.

Ltac byte_pairs := apply forall_byte2_eq; vm_compute; reflexivity.
Ltac byte_cases := apply forall_byte_eq; vm_compute; reflexivity.

Lemma xtime_bxor (a b : byte) : xtime (bxor a b) = bxor (xtime a) (xtime b).
Proof. revert a b. byte_pairs. Qed.

Lemma mul3_bxor (a b : byte) : mul3 (bxor a b) = bxor (mul3 a) (mul3 b).
Proof. unfold mul3. rewrite !xtime_bxor. bxor_ac. Qed.
Lemma mul9_bxor (a b : byte) : mul9 (bxor a b) = bxor (mul9 a) (mul9 b).
Proof. unfold mul9. rewrite !xtime_bxor. bxor_ac. Qed.
Lemma mul11_bxor (a b : byte) : mul11 (bxor a b) = bxor (mul11 a) (mul11 b).
Proof. unfold mul11. rewrite !xtime_bxor. bxor_ac. Qed.
Lemma mul13_bxor (a b : byte) : mul13 (bxor a b) = bxor (mul13 a) (mul13 b).
Proof. unfold mul13. rewrite !xtime_bxor. bxor_ac. Qed.
Lemma mul14_bxor (a b : byte) : mul14 (bxor a b) = bxor (mul14 a) (mul14 b).
Proof. unfold mul14. rewrite !xtime_bxor. bxor_ac. Qed.

(** The rows of InvMixColumns times the columns of MixColumns, one
    input byte at a time: the diagonal gives the byte back, the rest
    cancels. *)
Lemma row_col_diag (a : byte) :
  bxor (bxor (mul14 (mul2 a)) (mul11 a)) (bxor (mul13 a) (mul9 (mul3 a))) = a.
Proof. revert a. byte_cases. Qed.
Lemma row_col_1 (a : byte) :
  bxor (bxor (mul14 (mul3 a)) (mul11 (mul2 a))) (bxor (mul13 a) (mul9 a)) = x00.
Proof. revert a. byte_cases. Qed.
Lemma row_col_2 (a : byte) :
  bxor (bxor (mul14 a) (mul11 (mul3 a))) (bxor (mul13 (mul2 a)) (mul9 a)) = x00.
Proof. revert a. byte_cases. Qed.
Lemma row_col_3 (a : byte) :
  bxor (bxor (mul14 a) (mul11 a)) (bxor (mul13 (mul3 a)) (mul9 (mul2 a))) = x00.
Proof. revert a. byte_cases. Qed.

Ltac distribute :=
  unfold bxor4;
  rewrite ?mul9_bxor, ?mul11_bxor, ?mul13_bxor, ?mul14_bxor.

Lemma inv_mix_column_0 (a0 a1 a2 a3 : byte) :
  bxor4 (mul14 (bxor4 (mul2 a0) (mul3 a1) a2 a3)) (mul11 (bxor4 a0 (mul2 a1) (mul3 a2) a3))
        (mul13 (bxor4 a0 a1 (mul2 a2) (mul3 a3))) (mul9 (bxor4 (mul3 a0) a1 a2 (mul2 a3)))
  = a0.
Proof.
  distribute.
  transitivity
    (bxor (bxor (bxor (bxor (mul14 (mul2 a0)) (mul11 a0)) (bxor (mul13 a0) (mul9 (mul3 a0))))
                (bxor (bxor (mul14 (mul3 a1)) (mul11 (mul2 a1))) (bxor (mul13 a1) (mul9 a1))))
          (bxor (bxor (bxor (mul14 a2) (mul11 (mul3 a2))) (bxor (mul13 (mul2 a2)) (mul9 a2)))
                (bxor (bxor (mul14 a3) (mul11 a3)) (bxor (mul13 (mul3 a3)) (mul9 (mul2 a3)))))).
  { bxor_ac. }
  rewrite row_col_diag, row_col_1, row_col_2, row_col_3.
  now rewrite !bxor_0_r.
Qed.

Lemma inv_mix_column_1 (a0 a1 a2 a3 : byte) :
  bxor4 (mul9 (bxor4 (mul2 a0) (mul3 a1) a2 a3)) (mul14 (bxor4 a0 (mul2 a1) (mul3 a2) a3))
        (mul11 (bxor4 a0 a1 (mul2 a2) (mul3 a3))) (mul13 (bxor4 (mul3 a0) a1 a2 (mul2 a3)))
  = a1.
Proof.
  distribute.
  transitivity
    (bxor (bxor (bxor (bxor (mul14 (mul2 a1)) (mul11 a1)) (bxor (mul13 a1) (mul9 (mul3 a1))))
                (bxor (bxor (mul14 (mul3 a2)) (mul11 (mul2 a2))) (bxor (mul13 a2) (mul9 a2))))
          (bxor (bxor (bxor (mul14 a3) (mul11 (mul3 a3))) (bxor (mul13 (mul2 a3)) (mul9 a3)))
                (bxor (bxor (mul14 a0) (mul11 a0)) (bxor (mul13 (mul3 a0)) (mul9 (mul2 a0)))))).
  { bxor_ac. }
  rewrite row_col_diag, row_col_1, row_col_2, row_col_3.
  now rewrite !bxor_0_r.
Qed.

Lemma inv_mix_column_2 (a0 a1 a2 a3 : byte) :
  bxor4 (mul13 (bxor4 (mul2 a0) (mul3 a1) a2 a3)) (mul9 (bxor4 a0 (mul2 a1) (mul3 a2) a3))
        (mul14 (bxor4 a0 a1 (mul2 a2) (mul3 a3))) (mul11 (bxor4 (mul3 a0) a1 a2 (mul2 a3)))
  = a2.
Proof.
  distribute.
  transitivity
    (bxor (bxor (bxor (bxor (mul14 (mul2 a2)) (mul11 a2)) (bxor (mul13 a2) (mul9 (mul3 a2))))
                (bxor (bxor (mul14 (mul3 a3)) (mul11 (mul2 a3))) (bxor (mul13 a3) (mul9 a3))))
          (bxor (bxor (bxor (mul14 a0) (mul11 (mul3 a0))) (bxor (mul13 (mul2 a0)) (mul9 a0)))
                (bxor (bxor (mul14 a1) (mul11 a1)) (bxor (mul13 (mul3 a1)) (mul9 (mul2 a1)))))).
  { bxor_ac. }
  rewrite row_col_diag, row_col_1, row_col_2, row_col_3.
  now rewrite !bxor_0_r.
Qed.

Lemma inv_mix_column_3 (a0 a1 a2 a3 : byte) :
  bxor4 (mul11 (bxor4 (mul2 a0) (mul3 a1) a2 a3)) (mul13 (bxor4 a0 (mul2 a1) (mul3 a2) a3))
        (mul9 (bxor4 a0 a1 (mul2 a2) (mul3 a3))) (mul14 (bxor4 (mul3 a0) a1 a2 (mul2 a3)))
  = a3.
Proof.
  distribute.
  transitivity
    (bxor (bxor (bxor (bxor (mul14 (mul2 a3)) (mul11 a3)) (bxor (mul13 a3) (mul9 (mul3 a3))))
                (bxor (bxor (mul14 (mul3 a0)) (mul11 (mul2 a0))) (bxor (mul13 a0) (mul9 a0))))
          (bxor (bxor (bxor (mul14 a1) (mul11 (mul3 a1))) (bxor (mul13 (mul2 a1)) (mul9 a1)))
                (bxor (bxor (mul14 a2) (mul11 a2)) (bxor (mul13 (mul3 a2)) (mul9 (mul2 a2)))))).
  { bxor_ac. }
  rewrite row_col_diag, row_col_1, row_col_2, row_col_3.
  now rewrite !bxor_0_r.
Qed.

(** ** The rounds of AES and their inverses *)

Lemma block_destruct (s : bytes) :
  List.length s = 16%nat ->
  exists a0 a1 a2 a3 a4 a5 a6 a7 a8 a9 a10 a11 a12 a13 a14 a15,
    s = [a0; a1; a2; a3; a4; a5; a6; a7; a8; a9; a10; a11; a12; a13; a14; a15].
Proof.
  intros H.
  do 16 (destruct s as [|? s]; [discriminate|]).
  destruct s; [|discriminate]. repeat eexists.
Qed.

Ltac block s H :=
  destruct (block_destruct s H)
    as (?a & ?a & ?a & ?a & ?a & ?a & ?a & ?a & ?a & ?a & ?a & ?a & ?a & ?a & ?a & ?a & ->).

Lemma inv_sub_bytes_sub_bytes (s : bytes) : inv_sub_bytes (sub_bytes s) = s.
Proof.
  unfold inv_sub_bytes, sub_bytes. rewrite map_map.
  rewrite <- (map_id s) at 2. apply map_ext. apply inv_sbox_sbox.
Qed.

Lemma inv_shift_rows_shift_rows (s : bytes) :
  List.length s = 16%nat -> inv_shift_rows (shift_rows s) = s.
Proof. intros H. block s H. reflexivity. Qed.

Lemma inv_mix_columns_mix_columns (s : bytes) :
  List.length s = 16%nat -> inv_mix_columns (mix_columns s) = s.
Proof.
  intros H. block s H. cbn [mix_columns inv_mix_columns].
  now rewrite !inv_mix_column_0, !inv_mix_column_1, !inv_mix_column_2, !inv_mix_column_3.
Qed.

Lemma xor_bytes_involutive (s k : bytes) :
  (List.length s <= List.length k)%nat -> xor_bytes (xor_bytes s k) k = s.
Proof.
  revert k. induction s as [|x s IH]; intros [|y k] H; cbn in *; try reflexivity; [lia|].
  rewrite IH by lia. f_equal.
  rewrite <- bxor_assoc, bxor_nilpotent. apply bxor_0_r.
Qed.

Lemma xor_bytes_length (s k : bytes) :
  List.length (xor_bytes s k) = Nat.min (List.length s) (List.length k).
Proof.
  revert k. induction s as [|x s IH]; intros [|y k]; cbn; try reflexivity.
  now rewrite IH.
Qed.

Lemma sub_bytes_length (s : bytes) : List.length (sub_bytes s) = List.length s.
Proof. apply length_map. Qed.

Lemma shift_rows_length (s : bytes) : List.length (shift_rows s) = 16%nat.
Proof. reflexivity. Qed.

Lemma mix_columns_length (s : bytes) :
  List.length s = 16%nat -> List.length (mix_columns s) = 16%nat.
Proof. intros H. block s H. reflexivity. Qed.

Lemma round_length (s k : bytes) :
  List.length s = 16%nat -> round_key k ->
  List.length (add_round_key (mix_columns (shift_rows (sub_bytes s))) k) = 16%nat.
Proof.
  intros Hs Hk. unfold add_round_key.
  rewrite xor_bytes_length, mix_columns_length by apply shift_rows_length.
  rewrite Hk. reflexivity.
Qed.

Lemma rounds_length (ks : list bytes) :
  Forall round_key ks -> forall s, List.length s = 16%nat ->
  List.length (rounds ks s) = 16%nat.
Proof.
  induction 1 as [|k ks Hk Hks IH]; intros s Hs; [assumption|].
  destruct ks as [|k' ks'].
  - cbn [rounds]. unfold add_round_key. rewrite xor_bytes_length, shift_rows_length, Hk.
    reflexivity.
  - change (rounds (k :: k' :: ks') s)
      with (rounds (k' :: ks') (add_round_key (mix_columns (shift_rows (sub_bytes s))) k)).
    apply IH. now apply round_length.
Qed.

Lemma inv_rounds_rounds (ks : list bytes) :
  Forall round_key ks -> forall s, List.length s = 16%nat ->
  inv_rounds ks (rounds ks s) = s.
Proof.
  induction 1 as [|k ks Hk Hks IH]; intros s Hs; [reflexivity|].
  destruct ks as [|k' ks'].
  - cbn [rounds inv_rounds]. unfold add_round_key.
    rewrite xor_bytes_involutive by (rewrite shift_rows_length, Hk; lia).
    rewrite inv_shift_rows_shift_rows by (now rewrite sub_bytes_length).
    apply inv_sub_bytes_sub_bytes.
  - change (rounds (k :: k' :: ks') s)
      with (rounds (k' :: ks') (add_round_key (mix_columns (shift_rows (sub_bytes s))) k)).
    change (inv_rounds (k :: k' :: ks') ?t)
      with (inv_sub_bytes (inv_shift_rows (inv_mix_columns
              (add_round_key (inv_rounds (k' :: ks') t) k)))).
    rewrite IH by (now apply round_length).
    unfold add_round_key.
    rewrite xor_bytes_involutive
      by (rewrite mix_columns_length, Hk by apply shift_rows_length; lia).
    rewrite inv_mix_columns_mix_columns by apply shift_rows_length.
    rewrite inv_shift_rows_shift_rows by (now rewrite sub_bytes_length).
    apply inv_sub_bytes_sub_bytes.
Qed.

Lemma encrypt_block_length (ks : list bytes) (b : bytes) :
  Forall round_key ks -> List.length b = 16%nat ->
  List.length (encrypt_block ks b) = 16%nat.
Proof.
  intros Hks Hb. destruct Hks as [|k ks Hk Hks]; [assumption|].
  cbn [encrypt_block]. apply rounds_length; [assumption|].
  unfold add_round_key. rewrite xor_bytes_length, Hb, Hk. reflexivity.
Qed.

(** The inverse cipher undoes the cipher on every block, whatever the
    round keys. *)
Lemma decrypt_block_encrypt_block (ks : list bytes) (b : bytes) :
  Forall round_key ks -> List.length b = 16%nat ->
  decrypt_block ks (encrypt_block ks b) = b.
Proof.
  intros Hks Hb. destruct Hks as [|k ks Hk Hks]; [reflexivity|].
  cbn [encrypt_block decrypt_block].
  rewrite inv_rounds_rounds; [|assumption|].
  - unfold add_round_key. apply xor_bytes_involutive. rewrite Hb, Hk. lia.
  - unfold add_round_key. rewrite xor_bytes_length, Hb, Hk. reflexivity.
Qed.


(** ** Key expansion and ECB *)

Lemma chunks_length (size n : nat) (b : bytes) : List.length (chunks size n b) = n.
Proof. revert b. induction n as [|n IH]; intros b; cbn; [reflexivity | now rewrite IH]. Qed.

Lemma chunks_sized (size n : nat) (b : bytes) :
  (size * n <= List.length b)%nat ->
  Forall (fun c => List.length c = size) (chunks size n b).
Proof.
  revert b. induction n as [|n IH]; intros b H; cbn; constructor.
  - rewrite length_firstn. nia.
  - apply IH. rewrite length_skipn. nia.
Qed.

Lemma concat_chunks (size n : nat) (b : bytes) :
  List.length b = (size * n)%nat -> concat (chunks size n b) = b.
Proof.
  revert b. induction n as [|n IH]; intros b H; cbn.
  - destruct b; [reflexivity | cbn in H; lia].
  - rewrite IH by (rewrite length_skipn; nia). apply firstn_skipn.
Qed.

Lemma chunks_concat (size : nat) (l : list bytes) :
  Forall (fun c => List.length c = size) l ->
  chunks size (List.length l) (concat l) = l.
Proof.
  induction 1 as [|c l Hc Hl IH]; cbn; [reflexivity|].
  rewrite firstn_app, firstn_all2, skipn_app, skipn_all2 by lia.
  replace (size - List.length c)%nat with 0%nat by lia. cbn.
  now rewrite app_nil_r, IH.
Qed.

Lemma concat_sized (size : nat) (l : list bytes) :
  Forall (fun c => List.length c = size) l ->
  List.length (concat l) = (size * List.length l)%nat.
Proof.
  induction 1 as [|c l Hc Hl IH]; cbn; [lia|]. rewrite length_app, IH, Hc. nia.
Qed.

Lemma nth_sized (size i : nat) (l : list bytes) :
  Forall (fun c => List.length c = size) l -> (i < List.length l)%nat ->
  List.length (nth i l []) = size.
Proof.
  intros H Hi. rewrite Forall_forall in H. apply H. now apply nth_In.
Qed.

Lemma rot_word_length (w : bytes) : List.length (rot_word w) = List.length w.
Proof. destruct w; cbn; [reflexivity|]. rewrite length_app. cbn. lia. Qed.

Lemma expand_sized (n nk : nat) :
  (1 <= nk)%nat ->
  forall (i : nat) (rcon : byte) (w : list bytes),
    Forall (fun c => List.length c = 4%nat) w -> (nk <= List.length w)%nat ->
    Forall (fun c => List.length c = 4%nat) (expand n nk i rcon w)
    /\ List.length (expand n nk i rcon w) = (n + List.length w)%nat.
Proof.
  intros Hnk. induction n as [|n IH]; intros i rcon w Hw Hl; [now split|].
  assert (Hprev : List.length (nth 0 w []) = 4%nat) by (apply nth_sized; [assumption | lia]).
  assert (Hback : List.length (nth (nk - 1) w []) = 4%nat)
    by (apply nth_sized; [assumption | lia]).
  cbn [expand].
  destruct (i mod nk =? 0)%nat; [|destruct ((6 <? nk) && (i mod nk =? 4))%nat].
  - destruct (IH (S i) (xtime rcon)
                (xor_bytes (nth (nk - 1) w [])
                   (xor_bytes (map sbox (rot_word (nth 0 w []))) [rcon; x00; x00; x00]) :: w))
      as [H1 H2].
    + constructor; [|assumption].
      rewrite !xor_bytes_length, length_map, rot_word_length, Hprev, Hback. reflexivity.
    + cbn. lia.
    + split; [assumption|]. rewrite H2. cbn. lia.
  - destruct (IH (S i) rcon (xor_bytes (nth (nk - 1) w []) (map sbox (nth 0 w [])) :: w))
      as [H1 H2].
    + constructor; [|assumption].
      rewrite !xor_bytes_length, length_map, Hprev, Hback. reflexivity.
    + cbn. lia.
    + split; [assumption|]. rewrite H2. cbn. lia.
  - destruct (IH (S i) rcon (xor_bytes (nth (nk - 1) w []) (nth 0 w []) :: w)) as [H1 H2].
    + constructor; [|assumption].
      rewrite !xor_bytes_length, Hprev, Hback. reflexivity.
    + cbn. lia.
    + split; [assumption|]. rewrite H2. cbn. lia.
Qed.

Lemma round_keys_sized (key : bytes) (nk : nat) :
  (1 <= nk)%nat -> List.length key = (4 * nk)%nat ->
  Forall round_key (round_keys key).
Proof.
  intros Hnk Hk. unfold round_keys.
  replace (List.length key / 4)%nat with nk
    by (rewrite Hk, Nat.mul_comm, Nat.div_mul; lia).
  destruct (expand_sized (4 * (nk + 7) - nk) nk Hnk nk x01 (rev (chunks 4 nk key)))
    as [Hw Hl].
  { apply Forall_rev, chunks_sized. lia. }
  { rewrite length_rev, chunks_length. lia. }
  rewrite length_rev, chunks_length in Hl.
  apply chunks_sized. rewrite (concat_sized 4) by now apply Forall_rev.
  rewrite length_rev, Hl. lia.
Qed.

Lemma new_ok (key : bytes) (c : cipher) : new key = Ok c -> Forall round_key c.
Proof.
  unfold new. intros H.
  destruct (Nat.eqb_spec (List.length key) 16) as [E|_];
    [inv H; apply (round_keys_sized key 4); [lia | exact E]|].
  destruct (Nat.eqb_spec (List.length key) 24) as [E|_];
    [inv H; apply (round_keys_sized key 6); [lia | exact E]|].
  destruct (Nat.eqb_spec (List.length key) 32) as [E|_];
    [inv H; apply (round_keys_sized key 8); [lia | exact E]|].
  discriminate.
Qed.

Lemma new_32 (key : bytes) : List.length key = 32%nat -> new key = Ok (round_keys key).
Proof. intros H. unfold new. now rewrite H. Qed.

(** ECB: decryption undoes encryption of any whole number of blocks. *)
Lemma ecb_encrypt_ok (c : cipher) (data : bytes) :
  (List.length data mod 16 = 0)%nat ->
  encrypt c data
  = Ok (concat (map (encrypt_block c) (chunks 16 (List.length data / 16) data))).
Proof. intros H. unfold encrypt, ecb. now rewrite H. Qed.

Lemma ecb_ok (f : bytes -> bytes) (data out : bytes) :
  ecb f data = Ok out ->
  exists n, List.length data = (16 * n)%nat /\ out = concat (map f (chunks 16 n data)).
Proof.
  unfold ecb. destruct (Nat.eqb_spec (List.length data mod 16) 0) as [Hm|]; [|discriminate].
  intros H. apply Ok_inj in H. exists (List.length data / 16)%nat. split; [|now symmetry].
  rewrite (Nat.div_mod_eq (List.length data) 16) at 1. lia.
Qed.

Lemma ecb_sized (f : bytes -> bytes) (n : nat) (data : bytes) :
  List.length data = (16 * n)%nat ->
  ecb f data = Ok (concat (map f (chunks 16 n data))).
Proof.
  intros H. unfold ecb. rewrite H, Nat.mul_comm, Nat.Div0.mod_mul, Nat.div_mul by lia.
  reflexivity.
Qed.

Lemma decrypt_encrypt (c : cipher) (data ct : bytes) :
  Forall round_key c -> encrypt c data = Ok ct -> decrypt c ct = Ok data.
Proof.
  intros Hc H. apply ecb_ok in H as (n & Hn & ->). unfold decrypt.
  assert (Hb : Forall (fun b => List.length b = 16%nat) (chunks 16 n data))
    by (apply chunks_sized; lia).
  assert (He : Forall (fun b => List.length b = 16%nat)
                      (map (encrypt_block c) (chunks 16 n data))).
  { apply Forall_map. eapply Forall_impl; [|exact Hb].
    intros b. now apply encrypt_block_length. }
  rewrite (ecb_sized _ n)
    by (now rewrite (concat_sized 16 _ He), length_map, chunks_length).
  replace n with (List.length (map (encrypt_block c) (chunks 16 n data))) at 1
    by (now rewrite length_map, chunks_length).
  rewrite (chunks_concat 16 _ He), map_map. f_equal.
  rewrite <- (concat_chunks 16 n data) at 2 by assumption. f_equal.
  rewrite <- (map_id (chunks 16 n data)) at 2.
  apply map_ext_Forall. eapply Forall_impl; [|exact Hb].
  intros b Hlen. now apply decrypt_block_encrypt_block.
Qed.

(** ** PKCS#7 *)

Lemma pkcs7_pad_16 (data : bytes) :
  let pad_len := (16 - List.length data mod 16)%nat in
  pkcs7_pad data 16 = Ok (data ++ repeat (byte_of_N (N.of_nat pad_len)) pad_len)
  /\ (1 <= pad_len <= 16)%nat
  /\ (List.length (data ++ repeat (byte_of_N (N.of_nat pad_len)) pad_len) mod 16 = 0)%nat.
Proof.
  intros pad_len.
  pose proof (Nat.mod_upper_bound (List.length data) 16 ltac:(lia)) as Hm.
  assert (Hp : (16 - Z.of_nat (List.length data) mod 16)%Z = Z.of_nat pad_len).
  { unfold pad_len. rewrite <- (Nat2Z.inj_mod _ 16). lia. }
  split; [|split].
  - unfold pkcs7_pad. cbn [Z.eqb]. rewrite Hp.
    replace ((0 <=? Z.of_nat pad_len)%Z && (Z.of_nat pad_len <? 256)%Z) with true.
    2:{ symmetry. apply andb_true_intro. split; [apply Z.leb_le | apply Z.ltb_lt];
        unfold pad_len; lia. }
    now rewrite Nat2Z.id, <- nat_N_Z, N2Z.id.
  - unfold pad_len. lia.
  - rewrite length_app, repeat_length. unfold pad_len.
    rewrite (Nat.div_mod_eq (List.length data) 16) at 1.
    replace (16 * (List.length data / 16) + List.length data mod 16
             + (16 - List.length data mod 16))%nat
      with ((List.length data / 16 + 1) * 16)%nat by lia.
    apply Nat.Div0.mod_mul.
Qed.

Lemma unpad_pad (data : bytes) (pad_len : nat) :
  (1 <= pad_len <= 255)%nat ->
  unpad_pkcs7 (data ++ repeat (byte_of_N (N.of_nat pad_len)) pad_len) = Ok data.
Proof.
  intros H. unfold unpad_pkcs7.
  destruct pad_len as [|k]; [lia|].
  cbn [repeat]. rewrite repeat_cons, app_assoc, rev_app_distr. cbn [rev app].
  rewrite Byte.to_nat_via_N, to_N_byte_of by lia. rewrite Nat2N.id.
  cbn [Nat.eqb]. f_equal.
  rewrite !length_app, repeat_length. cbn [List.length].
  replace (List.length data + k + 1 - S k)%nat with (List.length data) by lia.
  rewrite <- app_assoc, firstn_app, firstn_all, Nat.sub_diag. cbn [firstn].
  apply app_nil_r.
Qed.

(** ** base64: decoding undoes encoding *)

Lemma b64_value_char (n : N) :
  n < 64 ->
  b64_value (b64_char n) = Some n /\ Byte.eqb (b64_char n) "="%byte = false.
Proof.
  intros H.
  assert (Hall : forallb sextet_ok (seq 0 64) = true) by (vm_compute; reflexivity).
  rewrite forallb_forall in Hall.
  specialize (Hall (N.to_nat n)). rewrite in_seq in Hall.
  specialize (Hall ltac:(lia)). unfold sextet_ok in Hall. rewrite N2Nat.id in Hall.
  destruct (b64_value (b64_char n)) as [v|]; [|discriminate].
  apply andb_prop in Hall as [Hv He]. apply N.eqb_eq in Hv. subst v.
  split; [reflexivity|]. now destruct (Byte.eqb (b64_char n) "="%byte).
Qed.

Lemma join1 (x y : byte) :
  byte_of_N (Byte.to_N x / 4 * 4 + (Byte.to_N x mod 4 * 16 + Byte.to_N y / 16) / 16) = x.
Proof. revert x y. byte_pairs. Qed.

Lemma join2 (x y z : byte) :
  byte_of_N ((Byte.to_N x mod 4 * 16 + Byte.to_N y / 16) mod 16 * 16
             + (Byte.to_N y mod 16 * 4 + Byte.to_N z / 64) / 4) = y.
Proof.
  pose proof (Byte.to_N_bounded x). pose proof (Byte.to_N_bounded y).
  pose proof (Byte.to_N_bounded z).
  assert (Hy : Byte.to_N y / 16 < 16) by (apply N.Div0.div_lt_upper_bound; lia).
  assert (Hz : Byte.to_N z / 64 < 4) by (apply N.Div0.div_lt_upper_bound; lia).
  rewrite (N.add_comm (Byte.to_N x mod 4 * 16)), N.Div0.mod_add, (N.mod_small _ 16) by lia.
  rewrite (N.add_comm (Byte.to_N y mod 16 * 4)), N.div_add by lia.
  rewrite (N.div_small _ 4) by lia. cbn [N.add].
  rewrite <- (byte_of_to_N y) at 3. f_equal.
  rewrite (N.div_mod (Byte.to_N y) 16) at 3 by lia. lia.
Qed.

Lemma join3 (y z : byte) :
  byte_of_N ((Byte.to_N y mod 16 * 4 + Byte.to_N z / 64) mod 4 * 64 + Byte.to_N z mod 64) = z.
Proof. revert y z. byte_pairs. Qed.

Lemma join1_last (x : byte) :
  byte_of_N (Byte.to_N x / 4 * 4 + Byte.to_N x mod 4 * 16 / 16) = x.
Proof. revert x. byte_cases. Qed.

Lemma join2_last (x y : byte) :
  byte_of_N ((Byte.to_N x mod 4 * 16 + Byte.to_N y / 16) mod 16 * 16
             + Byte.to_N y mod 16 * 4 / 4) = y.
Proof. revert x y. byte_pairs. Qed.

Ltac sextet n :=
  let Hv := fresh "Hv" in
  let He := fresh "He" in
  destruct (b64_value_char n) as [Hv He];
  [auto using sextet2, sextet3, sextet4, byte_quot; try (apply byte_quot; lia) | rewrite ?Hv, ?He].

Lemma a2b_b64encode (b : bytes) : a2b_base64 0 0 0 (b64encode b) = Ok b.
Proof.
  induction b as [|x|x y|x y z l IH] using list_ind3.
  - reflexivity.
  - cbn [b64encode a2b_base64].
    destruct (b64_value_char (Byte.to_N x / 4)) as [-> ->]; [apply byte_quot; lia|].
    destruct (b64_value_char (Byte.to_N x mod 4 * 16)) as [-> ->].
    { pose proof (N.mod_upper_bound (Byte.to_N x) 4 ltac:(lia)). lia. }
    cbn. now rewrite join1_last.
  - cbn [b64encode a2b_base64].
    destruct (b64_value_char (Byte.to_N x / 4)) as [-> ->]; [apply byte_quot; lia|].
    destruct (b64_value_char _ (sextet2 x y)) as [-> ->].
    destruct (b64_value_char (Byte.to_N y mod 16 * 4)) as [-> ->].
    { pose proof (N.mod_upper_bound (Byte.to_N y) 16 ltac:(lia)). lia. }
    cbn. now rewrite join1, join2_last.
  - cbn [b64encode a2b_base64].
    destruct (b64_value_char (Byte.to_N x / 4)) as [-> ->]; [apply byte_quot; lia|].
    destruct (b64_value_char _ (sextet2 x y)) as [-> ->].
    destruct (b64_value_char _ (sextet3 y z)) as [-> ->].
    destruct (b64_value_char _ (sextet4 z)) as [-> ->].
    cbn [N.eqb Pos.eqb]. rewrite IH. cbn [rbind].
    now rewrite join1, join2, join3.
Qed.

Lemma encode_ascii_of_bytes (b : bytes) :
  forallb (fun x => b64_text (Byte.to_N x)) b = true ->
  encode_ascii (map Byte.to_N b) = Ok b.
Proof.
  induction b as [|x b IH]; cbn; intros H; [reflexivity|].
  apply andb_prop in H as [Hx Hb].
  apply b64_text_ascii in Hx. apply N.ltb_lt in Hx. rewrite Hx, (IH Hb). cbn.
  now rewrite byte_of_to_N.
Qed.

(** [base64.b64decode(base64.b64encode(b).decode("ascii")) == b] *)
Lemma b64decode_b64encode (b : bytes) (s : str) :
  decode_ascii (b64encode b) = Ok s -> b64decode s = Ok b.
Proof.
  rewrite decode_ascii_b64encode. intros H. apply Ok_inj in H. subst s.
  unfold b64decode. rewrite encode_ascii_of_bytes by apply b64encode_text.
  apply a2b_b64encode.
Qed.

(** ** Parameter encryption *)

Lemma encrypt_param_ok (v : json) (key data : bytes) :
  List.length key = 32%nat ->
  encode_utf8 (dumps v) = Ok data ->
  exists pad_len ct,
    (1 <= pad_len <= 16)%nat
    /\ pad_len = (16 - List.length data mod 16)%nat
    /\ encrypt (round_keys key) (data ++ repeat (byte_of_N (N.of_nat pad_len)) pad_len)
       = Ok ct
    /\ encrypt_param_aes_ecb_base64 v (Some key) = Ok (map Byte.to_N (b64encode ct))
    /\ decrypt_param (map Byte.to_N (b64encode ct)) key = Ok data.
Proof.
  intros Hk Hd.
  destruct (pkcs7_pad_16 data) as (Hpad & Hrange & Hmod).
  set (pad_len := (16 - List.length data mod 16)%nat) in *.
  set (padded := data ++ repeat (byte_of_N (N.of_nat pad_len)) pad_len) in *.
  pose proof (ecb_encrypt_ok (round_keys key) padded Hmod) as Henc.
  exists pad_len, (concat (map (encrypt_block (round_keys key))
                               (chunks 16 (List.length padded / 16) padded))).
  split; [assumption|]. split; [reflexivity|]. split; [assumption|].
  split.
  - unfold encrypt_param_aes_ecb_base64. rewrite Hd. cbn [rbind].
    rewrite Hpad. cbn [rbind]. rewrite (new_32 key Hk). cbn [rbind].
    rewrite Henc. cbn [rbind]. apply decode_ascii_b64encode.
  - unfold decrypt_param. rewrite (new_32 key Hk). cbn [rbind].
    rewrite (b64decode_b64encode _ _ (decode_ascii_b64encode _)). cbn [rbind].
    rewrite (decrypt_encrypt _ _ _ (round_keys_sized key 8 ltac:(lia) Hk) Henc).
    cbn [rbind]. apply unpad_pad. lia.
Qed.

Lemma encrypt_param_cases (v : json) (key : bytes) :
  List.length key = 32%nat ->
  (exists enc, encrypt_param_aes_ecb_base64 v (Some key) = Ok enc)
  \/ encrypt_param_aes_ecb_base64 v (Some key) = Raise UnicodeEncodeError.
Proof.
  intros Hk. destruct (encode_utf8_cases (dumps v)) as [(data & Hd & _) | [Hd _]].
  - left. destruct (encrypt_param_ok v key data Hk Hd) as (p & ct & _ & _ & _ & H & _).
    eauto.
  - right. unfold encrypt_param_aes_ecb_base64. now rewrite Hd.
Qed.

(** ** Integers as JSON text *)

Lemma scan_digits_uint (u : Decimal.uint) :
  forall (acc : Z) (rest : str),
    ends_number rest = true ->
    scan_digits acc (uint_digits u ++ rest) = (horner acc u, rest).
Proof.
  induction u; intros acc rest H; cbn [uint_digits horner app];
    try (cbn [scan_digits is_digit]; cbn; apply IHu; assumption).
  destruct rest as [|c rest]; [reflexivity|].
  cbn [scan_digits]. cbn [ends_number] in H.
  destruct (is_digit c); [discriminate | reflexivity].
Qed.

Lemma horner_pos (u : Decimal.uint) :
  forall a : positive, horner (Z.pos a) u = Z.pos (Pos.of_uint_acc u a).
Proof.
  induction u; intros a; cbn [horner Pos.of_uint_acc]; try reflexivity;
    rewrite <- IHu; f_equal; lia.
Qed.

Lemma horner_0 (u : Decimal.uint) : horner 0 u = Z.of_N (Pos.of_uint u).
Proof.
  induction u; cbn [horner Pos.of_uint]; try reflexivity;
    try (cbn [Z.mul Z.add]; rewrite (horner_pos u); reflexivity).
  exact IHu.
Qed.

Lemma horner_to_uint (p : positive) : horner 0 (Pos.to_uint p) = Z.pos p.
Proof. now rewrite horner_0, DecimalPos.Unsigned.of_to. Qed.

Lemma to_uint_head (p : positive) :
  match Pos.to_uint p with
  | Decimal.Nil | Decimal.D0 _ => False
  | _ => True
  end.
Proof.
  pose proof (DecimalPos.Unsigned.to_of (Pos.to_uint p)) as H.
  rewrite DecimalPos.Unsigned.of_to in H. cbn [N.to_uint] in H.
  pose proof (DecimalPos.Unsigned.to_uint_nonzero p) as Hz.
  pose proof (DecimalPos.Unsigned.to_uint_nonnil p) as Hn.
  destruct (Pos.to_uint p) as [|u|u|u|u|u|u|u|u|u|u]; try exact I; [congruence|].
  rewrite DecimalFacts.unorm_D0 in H.
  pose proof (DecimalFacts.nb_digits_unorm u) as Hd. rewrite <- H in Hd. cbn [Decimal.nb_digits] in Hd.
  destruct u; [exfalso; apply Hz; reflexivity | | | | | | | | | |];
    specialize (Hd ltac:(discriminate)); lia.
Qed.

Lemma value_end_cases (rest : str) :
  value_end rest = true ->
  rest = [] \/ exists t, rest = 44 :: t \/ rest = 93 :: t \/ rest = 125 :: t.
Proof.
  destruct rest as [|c t]; [now left|]. cbn. intros H. right. exists t.
  apply orb_prop in H as [H|H]; [apply orb_prop in H as [H|H]|];
    apply N.eqb_eq in H; subst; auto.
Qed.

Lemma value_end_number (rest : str) : value_end rest = true -> ends_number rest = true.
Proof.
  intros H. destruct (value_end_cases rest H) as [-> | (t & [-> | [-> | ->]])]; reflexivity.
Qed.

Lemma value_end_not_float (rest : str) : value_end rest = true -> float_follows rest = false.
Proof.
  intros H. destruct (value_end_cases rest H) as [-> | (t & [-> | [-> | ->]])];
    try reflexivity; destruct t; reflexivity.
Qed.

Lemma value_end_skip_ws (rest : str) : value_end rest = true -> skip_ws rest = rest.
Proof.
  intros H. destruct (value_end_cases rest H) as [-> | (t & [-> | [-> | ->]])]; reflexivity.
Qed.

Lemma digit_cases (c : N) :
  is_digit c = true ->
  c = 48 \/ c = 49 \/ c = 50 \/ c = 51 \/ c = 52 \/ c = 53 \/ c = 54 \/ c = 55
  \/ c = 56 \/ c = 57.
Proof.
  unfold is_digit. intros H. apply andb_prop in H as [H1 H2].
  apply N.leb_le in H1, H2. lia.
Qed.

Lemma scan_once_digit (fuel : nat) (c : N) (t : str) :
  is_digit c = true -> scan_once (S fuel) (c :: t) = scan_number false (c :: t).
Proof.
  intros H. destruct (digit_cases c H) as [-> | [-> | [-> | [-> | [-> | [-> | [-> | [-> | [-> | ->]]]]]]]]];
    reflexivity.
Qed.

Lemma scan_once_minus (fuel : nat) (d : N) (t : str) :
  is_digit d = true -> scan_once (S fuel) (45 :: d :: t) = scan_number true (d :: t).
Proof.
  intros H. destruct (digit_cases d H) as [-> | [-> | [-> | [-> | [-> | [-> | [-> | [-> | [-> | ->]]]]]]]]];
    reflexivity.
Qed.

Lemma uint_digits_head (p : positive) :
  exists c t, uint_digits (Pos.to_uint p) = c :: t /\ is_digit c = true /\ c <> 48.
Proof.
  pose proof (to_uint_head p) as H.
  destruct (Pos.to_uint p); try contradiction; cbn [uint_digits];
    (eexists; eexists; split; [reflexivity|]; split; [reflexivity | discriminate]).
Qed.

Lemma scan_number_pos (negative : bool) (p : positive) (rest : str) :
  value_end rest = true ->
  scan_number negative (uint_digits (Pos.to_uint p) ++ rest)
  = Ok (JInt (if negative then Z.neg p else Z.pos p), rest).
Proof.
  intros H. pose proof (scan_digits_uint (Pos.to_uint p) 0 rest (value_end_number _ H)) as Hs.
  rewrite horner_to_uint in Hs.
  destruct (uint_digits_head p) as (c & t & E & Hc & Hz). rewrite E in *.
  cbn [app] in *. unfold scan_number. rewrite Hc.
  replace (c =? 48) with false by (symmetry; now apply N.eqb_neq).
  rewrite Hs, (value_end_not_float _ H). now destruct negative.
Qed.

Lemma scan_once_int (fuel : nat) (z : Z) (rest : str) :
  value_end rest = true ->
  scan_once (S fuel) (str_of_int z ++ rest) = Ok (JInt z, rest).
Proof.
  intros H. destruct z as [|p|p]; unfold str_of_int; cbn [Z.to_int].
  - change (uint_digits Decimal.zero ++ rest) with (48 :: rest).
    rewrite scan_once_digit by reflexivity. unfold scan_number. cbn [is_digit N.leb N.eqb].
    cbn. now rewrite (value_end_not_float _ H).
  - pose proof (scan_number_pos false p rest H) as Hn.
    destruct (uint_digits_head p) as (c & t & E & Hc & _). rewrite E in *.
    cbn [app] in *. now rewrite scan_once_digit.
  - pose proof (scan_number_pos true p rest H) as Hn.
    destruct (uint_digits_head p) as (c & t & E & Hc & _). rewrite E in *.
    cbn [app] in *. now rewrite scan_once_minus.
Qed.

(** ** Strings as JSON text *)

Lemma hex_value_char (n : N) : n < 16 -> hex_value (hex_char n) = Some n.
Proof.
  intros H.
  assert (Hall : forallb (fun i => match hex_value (hex_char (N.of_nat i)) with
                                   | Some v => v =? N.of_nat i
                                   | None => false
                                   end) (seq 0 16) = true) by (vm_compute; reflexivity).
  rewrite forallb_forall in Hall. specialize (Hall (N.to_nat n)).
  rewrite in_seq, N2Nat.id in Hall. specialize (Hall ltac:(lia)).
  destruct (hex_value (hex_char n)); [|discriminate]. apply N.eqb_eq in Hall. now subst.
Qed.

Lemma scanstring_unicode (h1 h2 h3 h4 c : N) (s : str) :
  hex4_value h1 h2 h3 h4 = Some c -> is_high_surrogate c = false ->
  scanstring (92 :: 117 :: h1 :: h2 :: h3 :: h4 :: s) = cons_char c (scanstring s).
Proof.
  intros H Hs.
  change (scanstring (92 :: 117 :: h1 :: h2 :: h3 :: h4 :: s))
    with (match hex4_value h1 h2 h3 h4 with
          | None => Raise JSONDecodeError
          | Some c1 =>
              match s with
              | b :: u :: l1 :: l2 :: l3 :: l4 :: s12 =>
                  if is_high_surrogate c1 && (b =? 92) && (u =? 117) then
                    match hex4_value l1 l2 l3 l4 with
                    | None => Raise JSONDecodeError
                    | Some c2 =>
                        if is_low_surrogate c2
                        then cons_char (join_surrogates c1 c2) (scanstring s12)
                        else cons_char c1 (scanstring s)
                    end
                  else cons_char c1 (scanstring s)
              | _ => cons_char c1 (scanstring s)
              end
          end).
  rewrite H, Hs. cbn [andb].
  destruct s as [|? [|? [|? [|? [|? [|? ?]]]]]]; reflexivity.
Qed.

Lemma scanstring_escape (c : N) (s : str) :
  scanstring (escape_char c ++ s) = cons_char c (scanstring s).
Proof.
  unfold escape_char.
  destruct (N.eqb_spec c 34) as [->|H34]; [reflexivity|].
  destruct (N.eqb_spec c 92) as [->|H92]; [reflexivity|].
  destruct (N.eqb_spec c 10) as [->|H10]; [reflexivity|].
  destruct (N.eqb_spec c 13) as [->|H13]; [reflexivity|].
  destruct (N.eqb_spec c 9) as [->|H9]; [reflexivity|].
  destruct (N.eqb_spec c 12) as [->|H12]; [reflexivity|].
  destruct (N.eqb_spec c 8) as [->|H8]; [reflexivity|].
  destruct (N.ltb_spec c 32) as [Hlt|Hge].
  - cbn [app]. apply scanstring_unicode.
    + unfold hex4_value. change (hex_value 48) with (Some 0).
      rewrite !hex_value_char.
      * f_equal. rewrite (N.div_mod c 16) at 3 by lia. lia.
      * apply N.mod_upper_bound. lia.
      * apply N.Div0.div_lt_upper_bound. lia.
    + unfold is_high_surrogate.
      replace (0xD800 <=? c) with false by (symmetry; apply N.leb_gt; lia). reflexivity.
  - cbn [app scanstring].
    replace (c =? 34) with false by (symmetry; now apply N.eqb_neq).
    replace (c =? 92) with false by (symmetry; now apply N.eqb_neq).
    replace (c <=? 31) with false by (symmetry; apply N.leb_gt; lia).
    reflexivity.
Qed.

Lemma scanstring_basestring (s rest : str) :
  scanstring (flat_map escape_char s ++ 34 :: rest) = Ok (s, rest).
Proof.
  induction s as [|c s IH]; [reflexivity|].
  cbn [flat_map]. rewrite <- app_assoc, scanstring_escape, IH. reflexivity.
Qed.

Lemma scan_once_str (fuel : nat) (s rest : str) :
  scan_once (S fuel) (encode_basestring s ++ rest) = Ok (JStr s, rest).
Proof.
  unfold encode_basestring. cbn [app scan_once N.eqb Pos.eqb].
  rewrite <- app_assoc. cbn [app]. now rewrite scanstring_basestring.
Qed.

(** ** Values as JSON text *)

Lemma dumps_list (l : list json) : dumps (JList l) = 91 :: dumps_items l ++ [93].
Proof. reflexivity. Qed.

Lemma dumps_dict (d : list (str * json)) : dumps (JDict d) = 123 :: dumps_pairs d ++ [125].
Proof. reflexivity. Qed.

Lemma dumps_head (v : json) : exists c t, dumps v = c :: t /\ opens_value c.
Proof.
  assert (Hd : forall c, is_digit c = true -> opens_value c).
  { intros c H. destruct (digit_cases c H) as [-> | [-> | [-> | [-> | [-> | [-> | [-> | [-> | [-> | ->]]]]]]]]];
      repeat split; discriminate. }
  destruct v as [|[|]|z|s|l|d]; cbn [dumps];
    try (eexists; eexists; split; [reflexivity|]; repeat split; discriminate).
  destruct z as [|p|p]; unfold str_of_int; cbn [Z.to_int].
  - exists 48, []. split; [reflexivity|]. now apply Hd.
  - destruct (uint_digits_head p) as (c & t & -> & Hc & _). eauto.
  - eexists; eexists; split; [reflexivity|]; repeat split; discriminate.
Qed.

Lemma skip_ws_opens (c : N) (t : str) : opens_value c -> skip_ws (c :: t) = c :: t.
Proof. intros (H & _). cbn. now rewrite H. Qed.

Lemma skip_ws_dumps (v : json) (rest : str) : skip_ws (dumps v ++ rest) = dumps v ++ rest.
Proof. destruct (dumps_head v) as (c & t & -> & H). now apply skip_ws_opens. Qed.

Lemma str_eqb_eq (a b : str) : str_eqb a b = true <-> a = b.
Proof.
  revert b. induction a as [|x a IH]; intros [|y b]; cbn; split; try easy.
  - intros H. apply andb_prop in H as [H1 H2]. apply N.eqb_eq in H1. apply IH in H2.
    now subst.
  - intros [= -> ->]. rewrite N.eqb_refl. now apply IH.
Qed.

Lemma str_eqb_sym (a b : str) : str_eqb a b = str_eqb b a.
Proof.
  destruct (str_eqb a b) eqn:E1, (str_eqb b a) eqn:E2; try reflexivity.
  - apply str_eqb_eq in E1. subst. now rewrite (proj2 (str_eqb_eq b b) eq_refl) in E2.
  - apply str_eqb_eq in E2. subst. now rewrite (proj2 (str_eqb_eq a a) eq_refl) in E1.
Qed.

Lemma dict_set_fresh (k : str) (v : json) (d : list (str * json)) :
  existsb (str_eqb k) (map fst d) = false -> dict_set k v d = d ++ [(k, v)].
Proof.
  induction d as [|[k' v'] d IH]; cbn; intros H; [reflexivity|].
  apply orb_false_elim in H as [H1 H2]. now rewrite H1, IH.
Qed.

Lemma distinct_middle (a b : list str) (k : str) :
  distinct (a ++ k :: b) = true -> existsb (str_eqb k) a = false.
Proof.
  induction a as [|x a IH]; cbn; intros H; [reflexivity|].
  apply andb_prop in H as [H1 H2]. rewrite (IH H2), orb_false_r.
  apply negb_true_iff in H1. rewrite existsb_app in H1.
  apply orb_false_elim in H1 as [_ H1]. cbn in H1.
  apply orb_false_elim in H1 as [H1 _]. now rewrite str_eqb_sym.
Qed.

Lemma dict_of_pairs_distinct (l : list (str * json)) :
  distinct (map fst l) = true -> dict_of_pairs l = l.
Proof.
  unfold dict_of_pairs.
  assert (H : forall acc, distinct (map fst (acc ++ l)) = true ->
                          fold_left (fun d kv => dict_set (fst kv) (snd kv) d) l acc
                          = acc ++ l).
  { induction l as [|[k v] l IH]; intros acc Hd; cbn [fold_left fst snd].
    - now rewrite app_nil_r.
    - rewrite dict_set_fresh.
      + rewrite IH; rewrite <- app_assoc; [reflexivity | assumption].
      + rewrite map_app in Hd. cbn [map fst] in Hd. now apply distinct_middle in Hd. }
  intros Hd. apply (H [] Hd).
Qed.

Lemma array_items_dumps (l : list json) :
  l <> [] -> Forall reads_back l ->
  forall (fuel : nat) (rest : str),
    (items_size l <= fuel)%nat -> forallb well_formed l = true ->
    array_items fuel (dumps_items l ++ 93 :: rest) = Ok (l, rest).
Proof.
  intros Hne H. induction H as [|x l Hx Hl IH]; [contradiction|].
  intros fuel rest Hf Hw. cbn [forallb] in Hw. apply andb_prop in Hw as [Hwx Hwl].
  unfold items_size in Hf. cbn [fold_right] in Hf. fold (items_size l) in Hf.
  destruct fuel as [|fuel]; [lia|]. cbn [array_items].
  destruct l as [|y l].
  - cbn [dumps_items]. rewrite (Hx fuel (93 :: rest)) by (auto; lia).
    reflexivity.
  - change (dumps_items (x :: y :: l)) with (dumps x ++ 44 :: dumps_items (y :: l)).
    rewrite <- app_assoc. cbn [app].
    rewrite (Hx fuel (44 :: dumps_items (y :: l) ++ 93 :: rest)) by (auto; lia).
    cbn [rbind skip_ws is_ws N.eqb Pos.eqb orb].
    replace (skip_ws (dumps_items (y :: l) ++ 93 :: rest))
      with (dumps_items (y :: l) ++ 93 :: rest).
    2:{ destruct l; cbn [dumps_items]; rewrite <- ?app_assoc; now rewrite skip_ws_dumps. }
    rewrite IH by (auto; try discriminate; lia). reflexivity.
Qed.

Lemma object_items_dumps (d : list (str * json)) :
  d <> [] -> Forall (fun kv => reads_back (snd kv)) d ->
  forall (fuel : nat) (rest : str),
    (pairs_size d <= fuel)%nat -> forallb (fun kv => well_formed (snd kv)) d = true ->
    object_items fuel (dumps_pairs d ++ 125 :: rest) = Ok (d, rest).
Proof.
  intros Hne H. induction H as [|[k x] d Hx Hd IH]; [contradiction|].
  intros fuel rest Hf Hw. cbn [forallb snd] in Hw, Hx. apply andb_prop in Hw as [Hwx Hwd].
  unfold pairs_size in Hf. cbn [fold_right snd] in Hf. fold (pairs_size d) in Hf.
  destruct fuel as [|fuel]; [lia|].
  assert (Hkey : forall tail,
             object_items (S fuel) (encode_basestring k ++ 58 :: dumps x ++ tail)
             = (rbind (scan_once fuel (dumps x ++ tail))
                  (fun '(v, rest') =>
                     match skip_ws rest' with
                     | y :: r' =>
                         if y =? 125 then Ok ([(k, v)], r')
                         else if y =? 44 then
                           rbind (object_items fuel (skip_ws r'))
                                 (fun '(l, rest'') => Ok ((k, v) :: l, rest''))
                         else Raise JSONDecodeError
                     | [] => Raise JSONDecodeError
                     end))).
  { intros tail. unfold encode_basestring. cbn [app object_items N.eqb Pos.eqb].
    rewrite <- app_assoc. cbn [app]. rewrite scanstring_basestring.
    cbn [rbind skip_ws is_ws N.eqb Pos.eqb orb]. now rewrite skip_ws_dumps. }
  destruct d as [|[k' y] d].
  - cbn [dumps_pairs]. rewrite <- app_assoc. cbn [app].
    rewrite Hkey, (Hx fuel (125 :: rest)) by (auto; lia). reflexivity.
  - change (dumps_pairs ((k, x) :: (k', y) :: d))
      with (encode_basestring k ++ 58 :: dumps x ++ 44 :: dumps_pairs ((k', y) :: d)).
    rewrite <- app_assoc. cbn [app]. rewrite <- app_assoc. cbn [app].
    rewrite Hkey, (Hx fuel (44 :: dumps_pairs ((k', y) :: d) ++ 125 :: rest)) by (auto; lia).
    cbn [rbind skip_ws is_ws N.eqb Pos.eqb orb].
    replace (skip_ws (dumps_pairs ((k', y) :: d) ++ 125 :: rest))
      with (dumps_pairs ((k', y) :: d) ++ 125 :: rest)
      by (destruct d as [|[? ?] ?]; reflexivity).
    rewrite IH by (auto; try discriminate; lia). reflexivity.
Qed.

Lemma reads_back_all (v : json) : reads_back v.
Proof.
  induction v as [|b|z|s|l IH|d IH] using json_ind; intros fuel rest Hf Hw Hr;
    cbn [size] in Hf; (destruct fuel as [|fuel]; [lia|]).
  - reflexivity.
  - destruct b; reflexivity.
  - now apply scan_once_int.
  - apply scan_once_str.
  - rewrite dumps_list. cbn [app]. rewrite <- app_assoc. cbn [app scan_once N.eqb Pos.eqb].
    destruct l as [|x l]; [reflexivity|].
    fold (items_size (x :: l)) in Hf.
    pose proof (array_items_dumps (x :: l) ltac:(discriminate) IH fuel rest
                  ltac:(lia) Hw) as Ha.
    assert (Hhead : exists c t, dumps_items (x :: l) ++ 93 :: rest = c :: t /\ opens_value c).
    { destruct (dumps_head x) as (c & t & E & Hc).
      destruct l; cbn [dumps_items]; rewrite E; cbn [app]; eauto. }
    destruct Hhead as (c & t & E & Hc). rewrite E in *.
    rewrite (skip_ws_opens c t Hc).
    replace (c =? 93) with false by (symmetry; apply N.eqb_neq; apply Hc).
    rewrite Ha. reflexivity.
  - rewrite dumps_dict. cbn [app]. rewrite <- app_assoc. cbn [app scan_once N.eqb Pos.eqb].
    destruct d as [|[k x] d]; [reflexivity|].
    fold (pairs_size ((k, x) :: d)) in Hf.
    cbn [well_formed] in Hw. apply andb_prop in Hw as [Hk Hw].
    pose proof (object_items_dumps ((k, x) :: d) ltac:(discriminate) IH fuel rest
                  ltac:(lia) Hw) as Ha.
    assert (Hhead : exists t, dumps_pairs ((k, x) :: d) ++ 125 :: rest = 34 :: t).
    { destruct d as [|[? ?] ?]; cbn [dumps_pairs]; unfold encode_basestring; cbn [app]; eauto. }
    destruct Hhead as (t & E). rewrite E in *.
    cbn [skip_ws is_ws N.eqb Pos.eqb orb]. rewrite Ha. cbn [rbind].
    now rewrite dict_of_pairs_distinct.
Qed.

Lemma items_size_length (l : list json) :
  Forall (fun v => (size v <= List.length (dumps v))%nat) l ->
  (items_size l <= List.length (dumps_items l) + 1)%nat.
Proof.
  induction 1 as [|x l Hx Hl IH]; [cbn; lia|].
  unfold items_size in *. cbn [fold_right].
  destruct l as [|y l].
  - cbn [dumps_items fold_right]. lia.
  - change (dumps_items (x :: y :: l)) with (dumps x ++ 44 :: dumps_items (y :: l)).
    rewrite length_app. cbn [List.length]. lia.
Qed.

Lemma pairs_size_length (d : list (str * json)) :
  Forall (fun kv => (size (snd kv) <= List.length (dumps (snd kv)))%nat) d ->
  (pairs_size d <= List.length (dumps_pairs d) + 1)%nat.
Proof.
  induction 1 as [|[k x] d Hx Hd IH]; [cbn; lia|].
  unfold pairs_size in *. cbn [fold_right snd] in *.
  destruct d as [|[k' y] d].
  - cbn [dumps_pairs fold_right]. rewrite length_app. cbn [List.length]. lia.
  - change (dumps_pairs ((k, x) :: (k', y) :: d))
      with (encode_basestring k ++ 58 :: dumps x ++ 44 :: dumps_pairs ((k', y) :: d)).
    rewrite length_app. cbn [List.length]. rewrite length_app. cbn [List.length]. lia.
Qed.

Lemma size_length (v : json) : (size v <= List.length (dumps v))%nat.
Proof.
  induction v as [|b|z|s|l IH|d IH] using json_ind.
  - cbn. lia.
  - destruct b; cbn; lia.
  - destruct (dumps_head (JInt z)) as (c & t & -> & _). cbn. lia.
  - cbn. lia.
  - rewrite dumps_list. cbn [size List.length]. rewrite length_app. cbn [List.length].
    fold (items_size l). pose proof (items_size_length l IH). lia.
  - rewrite dumps_dict. cbn [size List.length]. rewrite length_app. cbn [List.length].
    fold (pairs_size d). pose proof (pairs_size_length d IH). lia.
Qed.

(** [json.loads(json.dumps(v, separators=(",", ":"), ensure_ascii=False))]
    gives [v] back. *)
Lemma loads_dumps (v : json) : well_formed v = true -> loads (dumps v) = Ok v.
Proof.
  intros Hw. unfold loads.
  destruct (dumps_head v) as (c & t & E & Hc).
  replace (startswith (dumps v) [0xFEFF]) with false.
  2:{ rewrite E. cbn [startswith]. destruct Hc as (_ & _ & _ & Hc).
      apply N.eqb_neq in Hc. now rewrite Hc. }
  assert (Hscan : scan_once (2 * List.length (dumps v) + 1)%nat (skip_ws (dumps v)) = Ok (v, [])).
  { pose proof (skip_ws_dumps v []) as Hs. rewrite List.app_nil_r in Hs. rewrite Hs.
    pose proof (reads_back_all v (2 * List.length (dumps v) + 1)%nat []) as H.
    rewrite List.app_nil_r in H. apply H; auto.
    pose proof (size_length v). lia. }
  rewrite Hscan. reflexivity.
Qed.

(** ** The fuel of the JSON scanner is enough *)

Lemma cons_char_ok (c : N) (r : result (str * str)) (t rest : str) :
  cons_char c r = Ok (t, rest) -> exists t', r = Ok (t', rest).
Proof.
  unfold cons_char. destruct r as [[t' rest']| |]; cbn; try discriminate.
  intros H. apply Ok_inj in H. inv H. eauto.
Qed.

Lemma skip_ws_length (s : str) : (List.length (skip_ws s) <= List.length s)%nat.
Proof.
  induction s as [|c s IH]; cbn; [lia|]. destruct (is_ws c); cbn; lia.
Qed.

Lemma scanstring_shorter (n : nat) :
  forall s t rest,
    (List.length s <= n)%nat -> scanstring s = Ok (t, rest) ->
    (List.length rest < List.length s)%nat.
Proof.
  induction n as [|n IH]; intros s t rest Hn H.
  - destruct s; [discriminate | cbn in Hn; lia].
  - destruct s as [|c s1]; [discriminate|]. cbn [scanstring] in H.
    destruct (c =? 34).
    { apply Ok_inj in H. inv H. cbn. lia. }
    destruct (c =? 92).
    + destruct s1 as [|e s2]; [discriminate|].
      destruct (e =? 117).
      * destruct s2 as [|h1 [|h2 [|h3 [|h4 s6]]]]; try discriminate.
        destruct (hex4_value h1 h2 h3 h4) as [c1|]; [|discriminate].
        assert (Hs6 : forall t', scanstring s6 = Ok (t', rest) ->
                                 (List.length rest < List.length s6)%nat).
        { intros t'. apply IH. cbn in Hn. lia. }
        destruct s6 as [|b [|u [|l1 [|l2 [|l3 [|l4 s12]]]]]];
          try (apply cons_char_ok in H as [t' H]; apply Hs6 in H; cbn in *; lia).
        destruct (is_high_surrogate c1 && (b =? 92) && (u =? 117));
          [|apply cons_char_ok in H as [t' H]; apply Hs6 in H; cbn in *; lia].
        destruct (hex4_value l1 l2 l3 l4) as [c2|]; [|discriminate].
        destruct (is_low_surrogate c2);
          [|apply cons_char_ok in H as [t' H]; apply Hs6 in H; cbn in *; lia].
        apply cons_char_ok in H as [t' H]. apply IH in H; cbn in *; lia.
      * destruct (simple_escape e); [|discriminate].
        apply cons_char_ok in H as [t' H]. apply IH in H; cbn in *; lia.
    + destruct (c <=? 31); [discriminate|].
      apply cons_char_ok in H as [t' H]. apply IH in H; cbn in *; lia.
Qed.

Lemma scan_digits_length (s : str) :
  forall acc, (List.length (snd (scan_digits acc s)) <= List.length s)%nat.
Proof.
  induction s as [|c s IH]; intros acc; cbn; [lia|].
  destruct (is_digit c); cbn; [|lia]. specialize (IH (acc * 10 + Z.of_N (c - 48))%Z). lia.
Qed.

Lemma scan_number_shorter (negative : bool) (s : str) (v : json) (rest : str) :
  scan_number negative s = Ok (v, rest) -> (List.length rest < List.length s)%nat.
Proof.
  unfold scan_number. destruct s as [|c s']; [discriminate|].
  destruct (is_digit c) eqn:Hc; [|discriminate].
  destruct (c =? 48).
  - destruct (float_follows s'); [discriminate|]. intros H. apply Ok_inj in H. inv H.
    cbn. lia.
  - pose proof (scan_digits_length (c :: s') 0) as Hl.
    destruct (scan_digits 0 (c :: s')) as [n r] eqn:E.
    destruct (float_follows r); [discriminate|]. intros H. apply Ok_inj in H. inv H.
    cbn [scan_digits] in E. rewrite Hc in E.
    pose proof (scan_digits_length s' (0 * 10 + Z.of_N (c - 48))%Z) as Hl'.
    rewrite E in Hl'. cbn in *. lia.
Qed.

Lemma skip_ws_cons_length (s : str) (x : N) (r : str) :
  skip_ws s = x :: r -> (List.length r < List.length s)%nat.
Proof.
  intros H. pose proof (skip_ws_length s) as Hl. rewrite H in Hl. cbn in Hl. lia.
Qed.

Lemma skipn_S_shorter {A} (n : nat) (c : A) (s : list A) :
  (List.length (skipn (S n) (c :: s)) < List.length (c :: s))%nat.
Proof. rewrite length_skipn. cbn. lia. Qed.

(** Every scanner that returns a value has consumed some input. *)
Lemma scan_shorter (fuel : nat) :
  (forall s v rest, scan_once fuel s = Ok (v, rest) ->
                    (List.length rest < List.length s)%nat) /\
  (forall s l rest, array_items fuel s = Ok (l, rest) ->
                    (List.length rest < List.length s)%nat) /\
  (forall s l rest, object_items fuel s = Ok (l, rest) ->
                    (List.length rest < List.length s)%nat).
Proof.
  induction fuel as [|f (IHs & IHa & IHo)]; [repeat split; discriminate|].
  repeat split.
  - intros s v rest H. cbn [scan_once] in H.
    destruct s as [|c s']; [discriminate|].
    destruct (c =? 34).
    { destruct (scanstring s') as [[t r]| |] eqn:E; try discriminate.
      cbn [rbind] in H. apply Ok_inj in H. inv H.
      apply (scanstring_shorter (List.length s')) in E; cbn; lia. }
    destruct (c =? 123).
    { destruct (skip_ws s') as [|x r] eqn:E; [discriminate|].
      apply skip_ws_cons_length in E.
      destruct (x =? 125).
      - apply Ok_inj in H. inv H. cbn. lia.
      - destruct (object_items f (x :: r)) as [[l r']| |] eqn:E'; try discriminate.
        cbn [rbind] in H. apply Ok_inj in H. inv H. apply IHo in E'. cbn in *. lia. }
    destruct (c =? 91).
    { destruct (skip_ws s') as [|x r] eqn:E; [discriminate|].
      apply skip_ws_cons_length in E.
      destruct (x =? 93).
      - apply Ok_inj in H. inv H. cbn. lia.
      - destruct (array_items f (x :: r)) as [[l r']| |] eqn:E'; try discriminate.
        cbn [rbind] in H. apply Ok_inj in H. inv H. apply IHa in E'. cbn in *. lia. }
    destruct (startswith (c :: s') (text "null")).
    { apply Ok_inj in H. inv H. apply (skipn_S_shorter 3 c s'). }
    destruct (startswith (c :: s') (text "true")).
    { apply Ok_inj in H. inv H. apply (skipn_S_shorter 3 c s'). }
    destruct (startswith (c :: s') (text "false")).
    { apply Ok_inj in H. inv H. apply (skipn_S_shorter 4 c s'). }
    destruct (startswith (c :: s') (text "NaN")); [discriminate|].
    destruct (startswith (c :: s') (text "Infinity")); [discriminate|].
    destruct (startswith (c :: s') (text "-Infinity")); [discriminate|].
    destruct (c =? 45).
    + apply scan_number_shorter in H. cbn. lia.
    + now apply scan_number_shorter in H.
  - intros s l rest H. cbn [array_items] in H.
    destruct (scan_once f s) as [[v r0]| |] eqn:E; try discriminate.
    cbn [rbind] in H. apply IHs in E.
    destruct (skip_ws r0) as [|x r] eqn:E0; [discriminate|].
    apply skip_ws_cons_length in E0.
    destruct (x =? 93).
    { apply Ok_inj in H. inv H. lia. }
    destruct (x =? 44); [|discriminate].
    destruct (array_items f (skip_ws r)) as [[l' r']| |] eqn:E'; try discriminate.
    cbn [rbind] in H. apply Ok_inj in H. inv H. apply IHa in E'.
    pose proof (skip_ws_length r). lia.
  - intros s l rest H. cbn [object_items] in H.
    destruct s as [|q s']; [discriminate|].
    destruct (q =? 34); [|discriminate].
    destruct (scanstring s') as [[k r0]| |] eqn:E; try discriminate.
    cbn [rbind] in H. apply (scanstring_shorter (List.length s')) in E; [|lia].
    destruct (skip_ws r0) as [|x r] eqn:E0; [discriminate|].
    apply skip_ws_cons_length in E0.
    destruct (x =? 58); [|discriminate].
    destruct (scan_once f (skip_ws r)) as [[v r1]| |] eqn:E1; try discriminate.
    cbn [rbind] in H. apply IHs in E1. pose proof (skip_ws_length r).
    destruct (skip_ws r1) as [|y r2] eqn:E2; [discriminate|].
    apply skip_ws_cons_length in E2.
    destruct (y =? 125).
    { apply Ok_inj in H. inv H. cbn. lia. }
    destruct (y =? 44); [|discriminate].
    destruct (object_items f (skip_ws r2)) as [[l' r']| |] eqn:E'; try discriminate.
    cbn [rbind] in H. apply Ok_inj in H. inv H. apply IHo in E'.
    pose proof (skip_ws_length r2). cbn. lia.
Qed.

(** Beyond twice the length of the input, more fuel changes nothing:
    the [Unmodelled] of an exhausted fuel is never what [loads]
    returns. *)
Lemma scan_fuel (f1 : nat) :
  forall f2,
    (forall s, (2 * List.length s + 1 <= f1)%nat -> (2 * List.length s + 1 <= f2)%nat ->
               scan_once f1 s = scan_once f2 s) /\
    (forall s, (2 * List.length s + 2 <= f1)%nat -> (2 * List.length s + 2 <= f2)%nat ->
               array_items f1 s = array_items f2 s) /\
    (forall s, (2 * List.length s + 2 <= f1)%nat -> (2 * List.length s + 2 <= f2)%nat ->
               object_items f1 s = object_items f2 s).
Proof.
  induction f1 as [|g1 IH]; intros f2; [repeat split; intros; lia|].
  destruct f2 as [|g2]; [repeat split; intros; lia|].
  destruct (IH g2) as (IHs & IHa & IHo). clear IH.
  repeat split.
  - intros s H1 H2. cbn [scan_once].
    destruct s as [|c s']; [reflexivity|]. cbn [List.length] in H1, H2.
    destruct (c =? 34); [reflexivity|].
    destruct (c =? 123).
    { destruct (skip_ws s') as [|x r] eqn:E; [reflexivity|].
      pose proof (skip_ws_length s') as Hl. rewrite E in Hl.
      destruct (x =? 125); [reflexivity|]. now rewrite IHo by lia. }
    destruct (c =? 91); [|reflexivity].
    destruct (skip_ws s') as [|x r] eqn:E; [reflexivity|].
    pose proof (skip_ws_length s') as Hl. rewrite E in Hl.
    destruct (x =? 93); [reflexivity|]. now rewrite IHa by lia.
  - intros s H1 H2. cbn [array_items]. rewrite IHs by lia.
    destruct (scan_once g2 s) as [[v r0]| |] eqn:E; try reflexivity.
    cbn [rbind]. apply (scan_shorter g2) in E.
    destruct (skip_ws r0) as [|x r] eqn:E0; [reflexivity|].
    apply skip_ws_cons_length in E0.
    destruct (x =? 93); [reflexivity|]. destruct (x =? 44); [|reflexivity].
    pose proof (skip_ws_length r). now rewrite IHa by lia.
  - intros s H1 H2. cbn [object_items].
    destruct s as [|q s']; [reflexivity|]. cbn [List.length] in H1, H2.
    destruct (q =? 34); [|reflexivity].
    destruct (scanstring s') as [[k r0]| |] eqn:E; try reflexivity.
    cbn [rbind]. apply (scanstring_shorter (List.length s')) in E; [|lia].
    destruct (skip_ws r0) as [|x r] eqn:E0; [reflexivity|].
    apply skip_ws_cons_length in E0.
    destruct (x =? 58); [|reflexivity].
    pose proof (skip_ws_length r). rewrite IHs by lia.
    destruct (scan_once g2 (skip_ws r)) as [[v r1]| |] eqn:E1; try reflexivity.
    cbn [rbind]. apply (scan_shorter g2) in E1.
    destruct (skip_ws r1) as [|y r2] eqn:E2; [reflexivity|].
    apply skip_ws_cons_length in E2.
    destruct (y =? 125); [reflexivity|]. destruct (y =? 44); [|reflexivity].
    pose proof (skip_ws_length r2). now rewrite IHo by lia.
Qed.

(** [loads] with any larger fuel is [loads]. *)
Lemma loads_fuel (s : str) (fuel : nat) :
  (2 * List.length s + 1 <= fuel)%nat ->
  loads s =
  if startswith s [0xFEFF] then Raise JSONDecodeError
  else
    ('(v, rest) <- scan_once fuel (skip_ws s) ;;
     match skip_ws rest with
     | [] => Ok v
     | _ :: _ => Raise JSONDecodeError
     end)%result.
Proof.
  intros H. unfold loads. pose proof (skip_ws_length s) as Hl.
  destruct (scan_fuel (2 * List.length s + 1) fuel) as (Hs & _).
  now rewrite (Hs (skip_ws s)) by lia.
Qed.

(** ** The compact form *)











(** ** What the transport can raise *)

Lemma recvall_outcome_cases (n : nat) (evs : list rx_event) :
  (exists d, recvall_outcome n [] evs = Ok (Some d))
  \/ recvall_outcome n [] evs = Ok None
  \/ recvall_outcome n [] evs = Raise OSError.
Proof.
  unfold recvall_outcome. destruct (n <=? _)%nat; [eauto|]. destruct (rx_eof evs); auto.
Qed.

Lemma receive_response_errors (w : world) (evs : list rx_event) (e : exn) :
  peer w = Some evs -> fst (receive_response w) = Raise e -> transport_error e.
Proof.
  intros Hp. unfold receive_response. unfold bind at 1.
  destruct (recvall_spec 4 w evs Hp) as (w1 & evs1 & l & -> & _ & Hp1 & _).
  destruct (recvall_outcome_cases (N.to_nat 4) evs) as [[h ->] | [-> | ->]].
  - destruct (List.length h <? 4)%nat.
    + cbn. intros [= <-]. right. right. eauto.
    + unfold bind at 1, lift at 1.
      destruct (unpack_u32_le h) as [n| |] eqn:Hu.
      * destruct (n =? 0); [cbn; discriminate|].
        unfold bind.
        destruct (recvall_spec n w1 evs1 Hp1) as (w2 & evs2 & l2 & -> & _).
        destruct (recvall_outcome_cases (N.to_nat n) evs1) as [[d ->] | [-> | ->]].
        -- destruct (loads _); cbn; discriminate.
        -- cbn. intros [= <-]. right. right. eauto.
        -- cbn. intros [= <-]. now left.
      * destruct h as [|? [|? [|? [|? [|? ?]]]]]; cbn in Hu; try discriminate;
          inv Hu; cbn; intros [= <-]; right; now left.
      * cbn. discriminate.
  - cbn. intros [= <-]. right. right. eauto.
  - cbn. intros [= <-]. now left.
Qed.

Lemma exchange_unreachable host port req timeout (w : world) :
  peer w = None ->
  send_request_and_receive host port req timeout w
  = (Raise OSError, log (Connect host port timeout) w).
Proof.
  intros Hp. unfold send_request_and_receive, with_connection, create_connection.
  now rewrite Hp.
Qed.

Lemma exchange_too_long host port req timeout (w : world) (evs : list rx_event) :
  peer w = Some evs ->
  pack_u32_le (N.of_nat (List.length (request_frame req))) = Raise StructError ->
  send_request_and_receive host port req timeout w
  = (Raise StructError, log Close (log (Connect host port timeout) w)).
Proof.
  intros Hp Hk. unfold send_request_and_receive, with_connection, create_connection.
  rewrite Hp. unfold bind at 1, lift at 1. now rewrite Hk.
Qed.

Lemma pack_u32_le_cases (n : N) :
  (exists b, pack_u32_le n = Ok b) \/ pack_u32_le n = Raise StructError.
Proof. unfold pack_u32_le. destruct (n <? 4294967296); eauto. Qed.

Lemma send_request_and_receive_errors host port req timeout (w : world) (e : exn) :
  fst (send_request_and_receive host port req timeout w) = Raise e -> transport_error e.
Proof.
  destruct (peer w) as [evs|] eqn:Hp.
  - destruct (pack_u32_le_cases (N.of_nat (List.length (request_frame req))))
      as [[prefix Hk] | Hk].
    + rewrite (exchange_connected host port timeout req w evs prefix Hp Hk).
      apply receive_response_errors with (evs := evs). exact Hp.
    + rewrite (exchange_too_long host port req timeout w evs Hp Hk).
      intros [= <-]. right. now left.
  - rewrite (exchange_unreachable host port req timeout w Hp).
    intros [= <-]. now left.
Qed.

Lemma is_none_null (v : json) : is_none v = true <-> v = JNull.
Proof. destruct v; cbn; split; congruence. Qed.

Lemma encrypted_command (cmd : str) :
  existsb (str_eqb cmd) _ENCRYPTED_COMMANDS = true ->
  startswith cmd (text "set.") = true /\ encodable cmd = true.
Proof.
  cbn [existsb _ENCRYPTED_COMMANDS]. rewrite orb_false_r. intros H.
  apply orb_prop in H as [H|H]; apply str_eqb_eq in H; subst; split; reflexivity.
Qed.

Lemma b64encode_text_str (b : bytes) :
  forallb b64_text (map Byte.to_N (b64encode b)) = true.
Proof.
  pose proof (b64encode_text b) as H. induction (b64encode b) as [|x l IH]; [reflexivity|].
  cbn [map forallb] in *. apply andb_prop in H as [H1 H2]. now rewrite H1, IH.
Qed.



(** C10. When [call_whatsminer] fails with a validation error, the
    error is the missing salt or the missing parameter, it comes from
    building the request, and the state of the network is untouched:
    no connection, nothing sent. The transport runs only once the
    request has been built. *)
Theorem validation_precedes_network (host : str) (port : Z)
    (account account_password cmd : str) (param : json) (salt : option str)
    (ts : option Z) (timeout : Z) (w : world) :
  (forall why,
      fst (call_whatsminer host port account account_password cmd param salt ts timeout w)
      = Raise (ValueError why) ->
      (why = SaltRequired \/ why = ParamRequired cmd)
      /\ fst (build_request account account_password cmd param salt ts w)
         = Raise (ValueError why)
      /\ snd (call_whatsminer host port account account_password cmd param salt ts timeout w)
         = w)
  /\ ((forall request,
          fst (build_request account account_password cmd param salt ts w) <> Ok request) ->
      snd (call_whatsminer host port account account_password cmd param salt ts timeout w)
      = w)
  /\ (trace (snd (call_whatsminer host port account account_password cmd param salt ts
                                  timeout w)) <> trace w ->
      exists request,
        build_request account account_password cmd param salt ts w = (Ok request, w)).
Proof.
  assert (Hcases :
            (exists request,
                build_request account account_password cmd param salt ts w = (Ok request, w))
            \/ (forall request,
                   fst (build_request account account_password cmd param salt ts w)
                   <> Ok request)).
  { pose proof (build_request_world account account_password cmd param salt ts w) as Hw.
    destruct (build_request account account_password cmd param salt ts w) as [[r|e|] w'];
      cbn [fst snd] in *; subst; [left; eauto | right; discriminate | right; discriminate]. }
  split; [|split].
  - intros why H. destruct Hcases as [(request & Hb) | Hb].
    + rewrite (call_whatsminer_built host port account account_password cmd param salt ts
                 timeout w request) in H by (now rewrite Hb).
      apply send_request_and_receive_errors in H as [H | [H | [c H]]]; discriminate.
    + rewrite (call_whatsminer_not_built host port account account_password cmd param salt
                 ts timeout w Hb) in *. cbn [fst snd] in *.
      split; [|split; [|reflexivity]].
      * destruct (startswith cmd (text "set.")) eqn:Hset.
        -- rewrite build_request_set in H by assumption. cbn [fst] in H.
           destruct salt as [salt|]; [|inv H; now left].
           destruct (generate_token_cases cmd account_password salt (effective_ts ts w))
             as [(data & _ & _ & Hg) | [Hg _]]; rewrite Hg in H; [|discriminate].
           destruct (existsb _ _); destruct (is_none param); try discriminate.
           ++ inv H. now right.
           ++ destruct (encrypt_param_cases param (SHA256.sha256 data) (sha256_length data))
                as [[enc He] | He]; rewrite He in H; discriminate.
        -- rewrite build_request_get in H by assumption. cbn [fst] in H.
           destruct (is_none param); discriminate.
      * destruct (fst (build_request account account_password cmd param salt ts w));
          congruence.
  - intros Hb. now rewrite (call_whatsminer_not_built host port account account_password
                              cmd param salt ts timeout w Hb).
  - intros Ht. destruct Hcases as [Hb | Hb]; [assumption|].
    rewrite (call_whatsminer_not_built host port account account_password cmd param salt
               ts timeout w Hb) in Ht. now destruct Ht.
Qed.

Lemma validation_precedes_network_witness :
  (SaltRequired = SaltRequired \/ SaltRequired = ParamRequired (text "set.miner.power"))
  /\ fst (build_request (text "acc") (text "pwd") (text "set.miner.power") JNull None None
                        (World 1700000000 (Some []) []))
     = Raise (ValueError SaltRequired)
  /\ snd (call_whatsminer (text "host") 1 (text "acc") (text "pwd") (text "set.miner.power")
                          JNull None None DEFAULT_TIMEOUT (World 1700000000 (Some []) []))
     = World 1700000000 (Some []) [].
Proof.
  exact (proj1 (validation_precedes_network (text "host") 1 (text "acc") (text "pwd")
                  (text "set.miner.power") JNull None None DEFAULT_TIMEOUT
                  (World 1700000000 (Some []) []))
               SaltRequired eq_refl).
Defined.

(* ================================================================== *)
(** * Part III: further properties of the code *)
(* ================================================================== *)

(** ** Padding to any block size *)

(** X1. For every block size from 1 to 255 [pkcs7_pad] returns: the
    data followed by [pad_len] bytes of value [pad_len], with
    [1 <= pad_len <= block_size], the length of the whole a multiple of
    the block size; and [_unpad_pkcs7] of the test suite gives the data
    back. *)
Theorem pkcs7_pad_any_block (data : bytes) (block_size : Z) :
  (1 <= block_size <= 255)%Z ->
  exists pad_len : nat,
    pkcs7_pad data block_size
    = Ok (data ++ repeat (byte_of_N (N.of_nat pad_len)) pad_len)
    /\ Z.of_nat pad_len = (block_size - Z.of_nat (List.length data) mod block_size)%Z
    /\ (1 <= Z.of_nat pad_len <= block_size)%Z
    /\ (Z.of_nat (List.length (data ++ repeat (byte_of_N (N.of_nat pad_len)) pad_len))
        mod block_size = 0)%Z
    /\ unpad_pkcs7 (data ++ repeat (byte_of_N (N.of_nat pad_len)) pad_len) = Ok data.
Proof.
  intros Hb.
  pose proof (Z.mod_pos_bound (Z.of_nat (List.length data)) block_size ltac:(lia)) as Hm.
  set (p := (block_size - Z.of_nat (List.length data) mod block_size)%Z) in *.
  exists (Z.to_nat p).
  assert (Hp : Z.of_nat (Z.to_nat p) = p) by (unfold p; lia).
  split; [|split; [|split; [|split]]].
  - unfold pkcs7_pad. replace (block_size =? 0)%Z with false by (symmetry; apply Z.eqb_neq; lia).
    fold p. replace ((0 <=? p)%Z && (p <? 256)%Z) with true.
    2:{ symmetry. apply andb_true_intro. split; [apply Z.leb_le | apply Z.ltb_lt]; unfold p; lia. }
    now rewrite Z_nat_N.
  - exact Hp.
  - rewrite Hp. unfold p. lia.
  - rewrite length_app, repeat_length, Nat2Z.inj_add, Hp. unfold p.
    replace (Z.of_nat (List.length data)
             + (block_size - Z.of_nat (List.length data) mod block_size))%Z
      with (Z.of_nat (List.length data) - Z.of_nat (List.length data) mod block_size
            + 1 * block_size)%Z by lia.
    rewrite Z.mod_add by lia. rewrite Zminus_mod, Zmod_mod, Z.sub_diag. apply Zmod_0_l.
  - apply unpad_pad. unfold p in *. lia.
Qed.

Lemma pkcs7_pad_any_block_witness :
  exists pad_len : nat,
    pkcs7_pad (blit "whatsminer") 8
    = Ok (blit "whatsminer" ++ repeat (byte_of_N (N.of_nat pad_len)) pad_len)
    /\ Z.of_nat pad_len = 6%Z.
Proof.
  destruct (pkcs7_pad_any_block (blit "whatsminer") 8 ltac:(lia)) as (p & H1 & H2 & _).
  exists p. split; [exact H1 | exact H2].
Defined.

(** X2. [pkcs7_pad] raises [ZeroDivisionError] for block size 0 and
    [ValueError] (from [bytes([pad_len])]) for a negative block size and
    whenever the pad length would exceed 255, as for 256-aligned data
    with block size 256; when it returns, the block size is positive
    and the result is the data with 1 to 255 bytes appended, each equal
    to their number. *)
Theorem pkcs7_pad_failures (data : bytes) (block_size : Z) :
  (block_size = 0%Z -> pkcs7_pad data block_size = Raise ZeroDivisionError)
  /\ ((block_size < 0)%Z -> pkcs7_pad data block_size = Raise (ValueError BytesRange))
  /\ ((0 < block_size)%Z ->
      (256 <= block_size - Z.of_nat (List.length data) mod block_size)%Z ->
      pkcs7_pad data block_size = Raise (ValueError BytesRange))
  /\ (forall out, pkcs7_pad data block_size = Ok out ->
        (0 < block_size)%Z
        /\ exists pad_len : nat,
            (1 <= pad_len <= 255)%nat
            /\ out = data ++ repeat (byte_of_N (N.of_nat pad_len)) pad_len).
Proof.
  unfold pkcs7_pad. split; [|split; [|split]].
  - now intros ->.
  - intros H. replace (block_size =? 0)%Z with false by (symmetry; apply Z.eqb_neq; lia).
    pose proof (Z.mod_neg_bound (Z.of_nat (List.length data)) block_size H).
    replace (0 <=? _)%Z with false by (symmetry; apply Z.leb_gt; lia). reflexivity.
  - intros H H'. replace (block_size =? 0)%Z with false by (symmetry; apply Z.eqb_neq; lia).
    replace (_ <? 256)%Z with false by (symmetry; apply Z.ltb_ge; lia).
    now rewrite andb_false_r.
  - intros out. destruct (Z.eqb_spec block_size 0) as [E|E]; [discriminate|].
    destruct (0 <=? _)%Z eqn:H0; [|discriminate].
    destruct (_ <? 256)%Z eqn:H1; [|discriminate].
    apply Z.leb_le in H0. apply Z.ltb_lt in H1. cbn [andb]. intros H. apply Ok_inj in H.
    assert (Hpos : (0 < block_size)%Z).
    { destruct (Z.lt_trichotomy block_size 0) as [Hn|[Hn|Hn]]; [|lia|lia].
      pose proof (Z.mod_neg_bound (Z.of_nat (List.length data)) block_size Hn). lia. }
    pose proof (Z.mod_pos_bound (Z.of_nat (List.length data)) block_size Hpos).
    split; [assumption|].
    exists (Z.to_nat (block_size - Z.of_nat (List.length data) mod block_size)).
    split; [lia|]. now rewrite Z_nat_N.
Qed.

Lemma pkcs7_pad_failures_witness :
  pkcs7_pad [] 256 = Raise (ValueError BytesRange).
Proof.
  exact (proj1 (proj2 (proj2 (pkcs7_pad_failures [] 256))) ltac:(lia) ltac:(cbn; lia)).
Defined.

(** ** More on the token and the key *)

(** X3. The digest input has no separators: moving characters across
    the boundary of two neighbouring arguments leaves token and key
    unchanged, and so does moving a digit from the end of the salt to
    the front of the timestamp. *)
Theorem generate_token_no_separators (cmd account_password salt x : str) (ts : Z) :
  generate_token (cmd ++ x) account_password salt ts
  = generate_token cmd (x ++ account_password) salt ts
  /\ generate_token cmd (account_password ++ x) salt ts
     = generate_token cmd account_password (x ++ salt) ts
  /\ generate_token cmd account_password (salt ++ text "1") 700000000
     = generate_token cmd account_password salt 1700000000.
Proof.
  unfold generate_token. rewrite <- !app_assoc. repeat split.
Qed.

(** X4. The token is the base64 text of the first six bytes of the
    key: whoever reads the token of a request knows 48 bits of the AES
    key, [base64.b64decode(token) == key[:6]]. *)
Theorem token_is_key_prefix (cmd account_password salt : str) (ts : Z)
    (token : str) (key : bytes) :
  generate_token cmd account_password salt ts = Ok (token, key) ->
  token = map Byte.to_N (b64encode (firstn 6 key))
  /\ b64decode token = Ok (firstn 6 key)
  /\ List.length (firstn 6 key) = 6%nat.
Proof.
  intros H.
  destruct (generate_token_cases cmd account_password salt ts)
    as [(data & _ & _ & Hg) | [Hg _]]; rewrite Hg in H; [|discriminate].
  apply Ok_inj in H. pose proof (sha256_length data) as Hl.
  remember (SHA256.sha256 data) as d eqn:Ed. clear Ed Hg.
  destruct d as [|a [|b [|c [|d0 [|e [|f rest]]]]]]; try (cbn in Hl; lia).
  assert (Ht : token = map Byte.to_N (b64encode [a; b; c; d0; e; f])).
  { inversion H. reflexivity. }
  assert (Hk : firstn 6 key = [a; b; c; d0; e; f]).
  { inversion H. reflexivity. }
  rewrite Hk. split; [exact Ht|]. split; [|reflexivity].
  rewrite Ht. apply b64decode_b64encode, decode_ascii_b64encode.
Qed.

Lemma token_is_key_prefix_witness :
  b64decode (text "lNAXObNk")
  = Ok (firstn 6 (SHA256.sha256 (blit "set.miner.powerpassw0rdsalt1231700000000"))).
Proof.
  exact (proj1 (proj2 (token_is_key_prefix
                         (text "set.miner.power") (text "passw0rd") (text "salt123")
                         1700000000 (text "lNAXObNk")
                         (SHA256.sha256 (blit "set.miner.powerpassw0rdsalt1231700000000"))
                         ltac:(vm_compute; reflexivity)))).
Defined.

(** ** More on parameter encryption *)

Lemma chunks_app (size n m : nat) (a b : bytes) :
  List.length a = (size * n)%nat ->
  chunks size (n + m) (a ++ b) = chunks size n a ++ chunks size m b.
Proof.
  revert a. induction n as [|n IH]; intros a H.
  - destruct a; [reflexivity | cbn in H; lia].
  - cbn [Nat.add chunks app].
    rewrite firstn_app, skipn_app.
    replace (size - List.length a)%nat with 0%nat by nia.
    cbn [firstn skipn]. rewrite app_nil_r. f_equal.
    apply IH. rewrite length_skipn. nia.
Qed.

Lemma new_sized (key : bytes) :
  (List.length key = 16 \/ List.length key = 24 \/ List.length key = 32)%nat ->
  new key = Ok (round_keys key) /\ Forall round_key (round_keys key).
Proof.
  intros H. assert (Hn : new key = Ok (round_keys key)).
  { unfold new. destruct H as [-> | [-> | ->]]; reflexivity. }
  split; [assumption | now apply (new_ok key)].
Qed.

Lemma encrypt_length (c : cipher) (data ct : bytes) :
  Forall round_key c -> encrypt c data = Ok ct -> List.length ct = List.length data.
Proof.
  intros Hc H. apply ecb_ok in H as (n & Hn & ->).
  rewrite (concat_sized 16).
  - now rewrite length_map, chunks_length.
  - apply Forall_map. eapply Forall_impl; [|apply chunks_sized; lia].
    intros b. now apply encrypt_block_length.
Qed.

Lemma encrypt_param_sized (v : json) (key data : bytes) :
  (List.length key = 16 \/ List.length key = 24 \/ List.length key = 32)%nat ->
  encode_utf8 (dumps v) = Ok data ->
  exists ct,
    encrypt (round_keys key)
            (data ++ repeat (byte_of_N (N.of_nat (16 - List.length data mod 16)))
                            (16 - List.length data mod 16))
    = Ok ct
    /\ List.length ct = (16 * (List.length data / 16 + 1))%nat
    /\ encrypt_param_aes_ecb_base64 v (Some key) = Ok (map Byte.to_N (b64encode ct))
    /\ decrypt_param (map Byte.to_N (b64encode ct)) key = Ok data.
Proof.
  intros Hk Hd. destruct (new_sized key Hk) as [Hnew Hrk].
  destruct (pkcs7_pad_16 data) as (Hpad & Hrange & Hmod).
  set (pad_len := (16 - List.length data mod 16)%nat) in *.
  set (padded := data ++ repeat (byte_of_N (N.of_nat pad_len)) pad_len) in *.
  pose proof (ecb_encrypt_ok (round_keys key) padded Hmod) as Henc.
  eexists. split; [exact Henc|]. split; [|split].
  - rewrite (encrypt_length _ _ _ Hrk Henc). unfold padded.
    rewrite length_app, repeat_length. unfold pad_len.
    pose proof (Nat.div_mod_eq (List.length data) 16).
    pose proof (Nat.mod_upper_bound (List.length data) 16 ltac:(lia)). lia.
  - unfold encrypt_param_aes_ecb_base64. rewrite Hd. cbn [rbind].
    rewrite Hpad. cbn [rbind]. rewrite Hnew. cbn [rbind].
    rewrite Henc. cbn [rbind]. apply decode_ascii_b64encode.
  - unfold decrypt_param. rewrite Hnew. cbn [rbind].
    rewrite (b64decode_b64encode _ _ (decode_ascii_b64encode _)). cbn [rbind].
    rewrite (decrypt_encrypt _ _ _ Hrk Henc).
    cbn [rbind]. apply unpad_pad. lia.
Qed.

(** X5. With a key of 16, 24 or 32 bytes and a parameter whose
    serialization has [n] UTF-8 bytes, [encrypt_param_aes_ecb_base64]
    returns base64 text of the ciphertext: [16 * (n // 16 + 1)] bytes,
    so the text has [4 * ((16 * (n // 16 + 1) + 2) // 3)] characters,
    all of the base64 alphabet or the pad character. The length tells
    the size of the parameter up to 16 bytes, nothing else about it. *)
Theorem encrypted_param_length (value : json) (key plain : bytes) (encoded : str) :
  (List.length key = 16 \/ List.length key = 24 \/ List.length key = 32)%nat ->
  encode_utf8 (dumps value) = Ok plain ->
  encrypt_param_aes_ecb_base64 value (Some key) = Ok encoded ->
  List.length encoded = (4 * ((16 * (List.length plain / 16 + 1) + 2) / 3))%nat
  /\ forallb b64_text encoded = true
  /\ exists ct, b64decode encoded = Ok ct
                /\ List.length ct = (16 * (List.length plain / 16 + 1))%nat.
Proof.
  intros Hk Hd He.
  destruct (encrypt_param_sized value key plain Hk Hd) as (ct & _ & Hl & He' & _).
  rewrite He' in He. apply Ok_inj in He. subst encoded.
  rewrite length_map, b64encode_length, Hl. split; [reflexivity|].
  split; [apply b64encode_text_str|].
  exists ct. split; [|exact Hl].
  apply b64decode_b64encode, decode_ascii_b64encode.
Qed.

Lemma encrypted_param_length_witness :
  List.length (text "cA8F8WEO8gZo61NMCbiKvQ==") = 24%nat
  /\ forallb b64_text (text "cA8F8WEO8gZo61NMCbiKvQ==") = true.
Proof.
  destruct (encrypted_param_length (JInt 7) (blit "0123456789abcdef") (blit "7")
              (text "cA8F8WEO8gZo61NMCbiKvQ==")
              (or_introl eq_refl) eq_refl ltac:(vm_compute; reflexivity))
    as (H1 & H2 & _).
  split; [exact H1 | exact H2].
Defined.

(** X6. The round trip of the encrypted parameter holds for AES-128
    and AES-192 keys as well: with a key of 16 or 24 bytes the function
    returns, and decoding, decrypting and unpadding its result gives
    the UTF-8 bytes of the serialization. *)
Theorem encrypt_param_roundtrip_short_keys (value : json) (key plain : bytes) :
  (List.length key = 16 \/ List.length key = 24)%nat ->
  encode_utf8 (dumps value) = Ok plain ->
  exists encoded : str,
    encrypt_param_aes_ecb_base64 value (Some key) = Ok encoded
    /\ decrypt_param encoded key = Ok plain
    /\ decode_utf8_ignore plain = dumps value.
Proof.
  intros Hk Hd.
  destruct (encrypt_param_sized value key plain) as (ct & _ & _ & He & Hdec);
    [tauto | assumption |].
  exists (map Byte.to_N (b64encode ct)).
  split; [exact He|]. split; [exact Hdec|]. now apply decode_utf8_encode.
Qed.

Lemma encrypt_param_roundtrip_short_keys_witness :
  exists encoded : str,
    encrypt_param_aes_ecb_base64 (JInt 7) (Some (blit "0123456789abcdef")) = Ok encoded
    /\ decrypt_param encoded (blit "0123456789abcdef") = Ok (blit "7")
    /\ decode_utf8_ignore (blit "7") = dumps (JInt 7).
Proof.
  exact (encrypt_param_roundtrip_short_keys (JInt 7) (blit "0123456789abcdef") (blit "7")
           (or_introl eq_refl) eq_refl).
Defined.



Lemma encrypt_app (c : cipher) (n : nat) (a b : bytes) :
  List.length a = (16 * n)%nat -> (List.length b mod 16 = 0)%nat ->
  encrypt c (a ++ b)
  = Ok (concat (map (encrypt_block c) (chunks 16 n a))
        ++ concat (map (encrypt_block c) (chunks 16 (List.length b / 16) b))).
Proof.
  intros Ha Hb.
  assert (Hl : List.length (a ++ b) = (16 * (n + List.length b / 16))%nat).
  { rewrite length_app, Ha. pose proof (Nat.div_mod_eq (List.length b) 16). lia. }
  unfold encrypt. rewrite (ecb_sized _ _ _ Hl), (chunks_app 16 n _ a b Ha).
  now rewrite map_app, concat_app.
Qed.

(** X8. ECB encrypts block by block: two parameters whose
    serializations share their first [16 * n] bytes give, under the
    same key, ciphertexts that share their first [16 * n] bytes. *)
Theorem ecb_common_prefix (v1 v2 : json) (key p r1 r2 : bytes) (n : nat) :
  (List.length key = 16 \/ List.length key = 24 \/ List.length key = 32)%nat ->
  List.length p = (16 * n)%nat ->
  encode_utf8 (dumps v1) = Ok (p ++ r1) ->
  encode_utf8 (dumps v2) = Ok (p ++ r2) ->
  exists enc1 enc2 ct1 ct2,
    encrypt_param_aes_ecb_base64 v1 (Some key) = Ok enc1
    /\ encrypt_param_aes_ecb_base64 v2 (Some key) = Ok enc2
    /\ b64decode enc1 = Ok ct1 /\ b64decode enc2 = Ok ct2
    /\ firstn (16 * n) ct1 = firstn (16 * n) ct2
    /\ (16 * n < List.length ct1)%nat /\ (16 * n < List.length ct2)%nat.
Proof.
  intros Hk Hp H1 H2. destruct (new_sized key Hk) as [_ Hrk].
  destruct (encrypt_param_sized v1 key _ Hk H1) as (ct1 & Hc1 & Hl1 & He1 & _).
  destruct (encrypt_param_sized v2 key _ Hk H2) as (ct2 & Hc2 & Hl2 & He2 & _).
  exists (map Byte.to_N (b64encode ct1)), (map Byte.to_N (b64encode ct2)), ct1, ct2.
  split; [exact He1|]. split; [exact He2|].
  split; [apply b64decode_b64encode, decode_ascii_b64encode|].
  split; [apply b64decode_b64encode, decode_ascii_b64encode|].
  assert (Hfirst : forall r ct,
             encrypt (round_keys key)
               ((p ++ r) ++ repeat (byte_of_N (N.of_nat (16 - List.length (p ++ r) mod 16)))
                                   (16 - List.length (p ++ r) mod 16)) = Ok ct ->
             firstn (16 * n) ct
             = concat (map (encrypt_block (round_keys key)) (chunks 16 n p))).
  { intros r ct Hc. rewrite <- app_assoc in Hc.
    rewrite (encrypt_app _ n p _ Hp) in Hc.
    - apply Ok_inj in Hc. subst ct.
      assert (Hlen : List.length (concat (map (encrypt_block (round_keys key))
                                              (chunks 16 n p))) = (16 * n)%nat).
      { rewrite (concat_sized 16).
        - now rewrite length_map, chunks_length.
        - apply Forall_map. eapply Forall_impl; [|apply chunks_sized; lia].
          intros b. now apply encrypt_block_length. }
      rewrite firstn_app, Hlen, Nat.sub_diag, firstn_all2 by lia.
      cbn [firstn]. apply app_nil_r.
    - pose proof (proj2 (proj2 (pkcs7_pad_16 (p ++ r)))) as Hm. cbv zeta in Hm.
      rewrite <- app_assoc, length_app, Hp in Hm.
      rewrite Nat.add_comm, Nat.mul_comm, Nat.Div0.mod_add in Hm. exact Hm. }
  rewrite (Hfirst r1 ct1 Hc1), (Hfirst r2 ct2 Hc2).
  split; [reflexivity|].
  rewrite Hl1, Hl2, !length_app, Hp.
  split.
  - pose proof (Nat.div_mod_eq (16 * n + List.length r1) 16).
    pose proof (Nat.mod_upper_bound (16 * n + List.length r1) 16 ltac:(lia)). lia.
  - pose proof (Nat.div_mod_eq (16 * n + List.length r2) 16).
    pose proof (Nat.mod_upper_bound (16 * n + List.length r2) 16 ltac:(lia)). lia.
Qed.

Lemma ecb_common_prefix_witness :
  exists enc1 enc2 ct1 ct2,
    encrypt_param_aes_ecb_base64 (JStr (text "0123456789abcde-one"))
                                 (Some (blit "0123456789abcdef")) = Ok enc1
    /\ encrypt_param_aes_ecb_base64 (JStr (text "0123456789abcde-two!"))
                                    (Some (blit "0123456789abcdef")) = Ok enc2
    /\ b64decode enc1 = Ok ct1 /\ b64decode enc2 = Ok ct2
    /\ firstn (16 * 1) ct1 = firstn (16 * 1) ct2
    /\ (16 * 1 < List.length ct1)%nat /\ (16 * 1 < List.length ct2)%nat.
Proof.
  exact (ecb_common_prefix (JStr (text "0123456789abcde-one"))
           (JStr (text "0123456789abcde-two!")) (blit "0123456789abcdef")
           ([x22] ++ blit "0123456789abcde") (blit "-one" ++ [x22]) (blit "-two!" ++ [x22]) 1
           (or_introl eq_refl) eq_refl eq_refl eq_refl).
Defined.

(** ** More on the transport *)

(** X9. [recvall] reads exactly what it is asked for: [recvall(sock, 0)]
    returns the empty [bytes] without calling [recv]; when [recvall]
    returns [n] bytes the stream still holds every byte behind them;
    and the outcome depends on the bytes of the stream and on how it
    ends, not on how the bytes are cut into segments. *)
Theorem recvall_reads_exactly (n : N) (w : world) (evs : list rx_event) :
  peer w = Some evs ->
  recvall 0 w = (Ok (Some []), w)
  /\ (forall d w', recvall n w = (Ok (Some d), w') ->
        exists evs',
          peer w' = Some evs' /\ rx_bytes evs = d ++ rx_bytes evs'
          /\ List.length d = N.to_nat n /\ rx_eof evs' = rx_eof evs)
  /\ (forall w2 evs2,
        peer w2 = Some evs2 -> rx_bytes evs2 = rx_bytes evs -> rx_eof evs2 = rx_eof evs ->
        fst (recvall n w2) = fst (recvall n w)).
Proof.
  intros Hp. split; [reflexivity|]. split.
  - intros d w' H.
    destruct (recvall_spec n w evs Hp) as (w1 & evs1 & l & Hr & _ & Hp1 & _ & _ & Hrest).
    rewrite Hr in H. inversion H as [[Hout Hw]]. subst w1.
    apply recvall_outcome_some in Hout as (Hd & Hl & Hle).
    destruct (Hrest Hle) as [Hb He].
    exists evs1. rewrite Hb, Hd. rewrite firstn_skipn. rewrite <- Hd. auto.
  - intros w2 evs2 Hp2 Hb He.
    destruct (recvall_spec n w evs Hp) as (w1 & evs1 & l & -> & _).
    destruct (recvall_spec n w2 evs2 Hp2) as (w3 & evs3 & l3 & -> & _).
    cbn [fst]. unfold recvall_outcome. now rewrite Hb, He.
Qed.

Lemma recvall_reads_exactly_witness :
  fst (recvall 3 (World 0 (Some [RxData x01 [x02; x03; x04]]) []))
  = fst (recvall 3 (World 0 (Some [RxData x01 []; RxData x02 [x03]; RxData x04 []]) [])).
Proof.
  exact (proj2 (proj2 (recvall_reads_exactly 3
                         (World 0 (Some [RxData x01 []; RxData x02 [x03]; RxData x04 []]) [])
                         _ eq_refl))
               (World 0 (Some [RxData x01 [x02; x03; x04]]) []) _ eq_refl eq_refl eq_refl).
Defined.

Lemma receive_response_trace (w : world) (evs : list rx_event) :
  peer w = Some evs ->
  exists l, trace (snd (receive_response w)) = trace w ++ l /\ forallb is_recv l = true.
Proof.
  intros Hp. unfold receive_response. unfold bind at 1.
  destruct (recvall_spec 4 w evs Hp) as (w1 & evs1 & l1 & -> & _ & Hp1 & Ht1 & Hl1 & _).
  destruct (recvall_outcome_cases (N.to_nat 4) evs) as [[h ->] | [-> | ->]];
    try (exists l1; split; [exact Ht1 | exact Hl1]).
  destruct (List.length h <? 4)%nat; [exists l1; split; [exact Ht1 | exact Hl1]|].
  unfold bind at 1, lift at 1.
  destruct (unpack_u32_le h) as [n| |]; try (exists l1; split; [exact Ht1 | exact Hl1]).
  destruct (n =? 0); [exists l1; split; [exact Ht1 | exact Hl1]|].
  unfold bind.
  destruct (recvall_spec n w1 evs1 Hp1) as (w2 & evs2 & l2 & -> & _ & _ & Ht2 & Hl2 & _).
  assert (Hfin : trace w2 = trace w ++ l1 ++ l2 /\ forallb is_recv (l1 ++ l2) = true).
  { split; [now rewrite Ht2, Ht1, app_assoc | now rewrite forallb_app, Hl1, Hl2]. }
  destruct (recvall_outcome_cases (N.to_nat n) evs1) as [[d ->] | [-> | ->]];
    try (exists (l1 ++ l2); exact Hfin).
  destruct (loads _); exists (l1 ++ l2); exact Hfin.
Qed.



Lemma encode_utf8_ascii (s : str) :
  forallb (fun c => c <? 0x80) s = true -> encode_utf8 s = Ok (map byte_of_N s).
Proof.
  induction s as [|c s IH]; [reflexivity|]. cbn [forallb map encode_utf8].
  intros H. apply andb_prop in H as [Hc Hs]. unfold utf8_char. rewrite Hc.
  cbn [rbind]. now rewrite (IH Hs).
Qed.

Lemma filter_all {A} (f : A -> bool) (l : list A) :
  forallb f l = true -> filter f l = l.
Proof.
  induction l as [|x l IH]; [reflexivity|]. cbn. intros H.
  apply andb_prop in H as [-> Hl]. now rewrite IH.
Qed.

Lemma escape_char_ascii (c : N) :
  (c <? 0x80) = true -> forallb (fun c => c <? 0x80) (escape_char c) = true.
Proof.
  intros H. unfold escape_char.
  repeat match goal with
         | |- context [if (?a =? ?b) then _ else _] => destruct (a =? b); [reflexivity|]
         end.
  destruct (N.ltb_spec c 32) as [H32|H32]; [|cbn; now rewrite H].
  assert (Hh : forall n, n < 16 -> (hex_char n <? 0x80) = true).
  { intros n Hn. unfold hex_char. destruct (n <? 10); apply N.ltb_lt; lia. }
  cbn [forallb]. rewrite !Hh; [reflexivity | |].
  - apply N.mod_upper_bound. lia.
  - apply N.Div0.div_lt_upper_bound. lia.
Qed.

Lemma ascii_only_basestring (s : str) :
  encode_ascii_ignore (encode_basestring s)
  = encode_ascii_ignore (encode_basestring (filter (fun c => c <? 0x80) s)).
Proof.
  unfold encode_ascii_ignore, encode_basestring. f_equal. cbn [filter N.ltb N.compare].
  cbn. f_equal. rewrite !filter_app. f_equal.
  induction s as [|c s IH]; [reflexivity|].
  cbn [flat_map filter]. destruct (c <? 0x80) eqn:Hc.
  - cbn [flat_map]. now rewrite !filter_app, IH.
  - rewrite filter_app, IH. unfold escape_char.
    apply N.ltb_ge in Hc.
    repeat match goal with
           | |- context [if (?a =? ?b) then _ else _] =>
               destruct (N.eqb_spec a b); [lia|]
           end.
    destruct (N.ltb_spec c 32); [lia|]. cbn [filter].
    replace (c <? 0x80) with false by (symmetry; apply N.ltb_ge; lia). reflexivity.
Qed.

Lemma frame_of_ascii (req : list (str * json)) :
  forallb (fun c => c <? 0x80) (dumps (JDict req)) = true ->
  decode_ascii (request_frame req) = Ok (dumps (JDict req))
  /\ decode_utf8_ignore (request_frame req) = dumps (JDict req).
Proof.
  intros Ha. unfold request_frame, encode_ascii_ignore. rewrite (filter_all _ _ Ha).
  split; [|now apply decode_utf8_encode, encode_utf8_ascii].
  induction (dumps (JDict req)) as [|c s IH]; [reflexivity|].
  cbn [forallb] in Ha. apply andb_prop in Ha as [Hc Hs]. cbn [map decode_ascii].
  apply N.ltb_lt in Hc. rewrite to_N_byte_of by lia.
  replace (c <? 0x80) with true by (symmetry; apply N.ltb_lt; lia).
  now rewrite (IH Hs).
Qed.

(** X11. The request goes out as ASCII: every byte of the frame is
    below 128 and characters outside ASCII are dropped, so a string
    parameter arrives as if they had never been typed. When the
    serialization is ASCII the frame is its text, which [json.loads]
    reads back as the request. *)
Theorem request_frame_ascii (req : list (str * json)) :
  Forall (fun b => Byte.to_N b < 128) (request_frame req)
  /\ (List.length (request_frame req) <= List.length (dumps (JDict req)))%nat
  /\ (forall (cmd s : str),
         request_frame [(text "cmd", JStr cmd); (text "param", JStr s)]
         = request_frame [(text "cmd", JStr cmd);
                          (text "param", JStr (filter (fun c => c <? 0x80) s))])
  /\ (forallb (fun c => c <? 0x80) (dumps (JDict req)) = true ->
      decode_ascii (request_frame req) = Ok (dumps (JDict req))
      /\ (well_formed (JDict req) = true ->
          loads (decode_utf8_ignore (request_frame req)) = Ok (JDict req))).
Proof.
  unfold request_frame. split; [|split; [|split]].
  - unfold encode_ascii_ignore. apply Forall_map, Forall_forall.
    intros c Hc. apply filter_In in Hc as [_ Hc]. apply N.ltb_lt in Hc.
    rewrite to_N_byte_of; lia.
  - unfold encode_ascii_ignore. rewrite length_map. apply filter_length_le.
  - intros cmd s. rewrite !dumps_dict. cbn [dumps_pairs dumps].
    assert (Hshape : forall x : str,
               123 :: (encode_basestring (text "cmd") ++ 58 :: encode_basestring cmd
                       ++ 44 :: encode_basestring (text "param") ++ 58 :: x) ++ [125]
               = (123 :: encode_basestring (text "cmd") ++ 58 :: encode_basestring cmd
                      ++ 44 :: encode_basestring (text "param") ++ [58]) ++ x ++ [125]).
    { intros x. repeat (rewrite <- app_assoc || rewrite <- app_comm_cons). reflexivity. }
    assert (Happ : forall a b, encode_ascii_ignore (a ++ b)
                               = encode_ascii_ignore a ++ encode_ascii_ignore b).
    { intros a b. unfold encode_ascii_ignore. now rewrite filter_app, map_app. }
    now rewrite !Hshape, !Happ, (ascii_only_basestring s).
  - intros Ha. destruct (frame_of_ascii req Ha) as [H1 H2].
    split; [exact H1|]. intros Hw. fold (request_frame req). rewrite H2.
    now apply loads_dumps.
Qed.

Lemma request_frame_ascii_witness :
  decode_ascii (request_frame [(text "cmd", JStr (text "get.device.info"))])
  = Ok (dumps (JDict [(text "cmd", JStr (text "get.device.info"))])).
Proof.
  exact (proj1 (proj2 (proj2 (proj2 (request_frame_ascii
                                       [(text "cmd", JStr (text "get.device.info"))])))
                 eq_refl)).
Defined.





(** X13. A read that fails (timeout, reset) is not turned into the
    connection error of a short read: when the stream breaks before the
    four header bytes or before the declared payload is complete, the
    error of [recv] leaves [send_request_and_receive] as it is, after
    the socket is closed. *)
Theorem read_failure_propagates (host : str) (port timeout : Z)
    (req : list (str * json)) (w : world) (evs : list rx_event) (prefix : bytes) :
  peer w = Some evs ->
  pack_u32_le (N.of_nat (List.length (request_frame req))) = Ok prefix ->
  rx_eof evs = false ->
  ((List.length (rx_bytes evs) < 4)%nat ->
   fst (send_request_and_receive host port req timeout w) = Raise OSError)
  /\ (forall header partial n,
         rx_bytes evs = header ++ partial ->
         unpack_u32_le header = Ok n ->
         (List.length partial < N.to_nat n)%nat ->
         fst (send_request_and_receive host port req timeout w) = Raise OSError)
  /\ exists reads,
       trace (snd (send_request_and_receive host port req timeout w))
       = trace w ++ [Connect host port timeout; Send prefix; Send (request_frame req)]
                 ++ reads ++ [Close].
Proof.
  intros Hp Hk He. split; [|split].
  - intros Hl. rewrite (exchange_connected host port timeout req w evs prefix Hp Hk).
    cbn [fst]. unfold receive_response, bind.
    destruct (recvall_spec 4 (sent host port timeout prefix (request_frame req) w) evs Hp)
      as (w' & evs' & l & -> & _).
    unfold recvall_outcome. change (N.to_nat 4) with 4%nat.
    destruct (Nat.leb_spec 4 (List.length (rx_bytes evs))); [lia|]. now rewrite He.
  - intros header partial n Hb Hu Hl.
    rewrite (exchange_connected host port timeout req w evs prefix Hp Hk). cbn [fst].
    set (w2 := sent host port timeout prefix (request_frame req) w).
    assert (Hp2 : peer w2 = Some evs) by exact Hp.
    destruct (receive_after_header w2 evs header partial n Hp2 Hb Hu)
      as (w1 & evs1 & l & Hr & Hp1 & Hb1 & He1 & _ & _ & _ & Hrun).
    rewrite Hrun. replace (n =? 0) with false by (symmetry; apply N.eqb_neq; lia).
    unfold bind.
    destruct (recvall_spec n w1 evs1 Hp1) as (w3 & evs3 & l3 & -> & _).
    unfold recvall_outcome. rewrite Hb1, He1, He.
    destruct (Nat.leb_spec (N.to_nat n) (List.length partial)); [lia | reflexivity].
  - rewrite (exchange_connected host port timeout req w evs prefix Hp Hk). cbn [snd].
    destruct (receive_response_trace (sent host port timeout prefix (request_frame req) w) evs Hp)
      as (l & Ht & _).
    exists l. cbn [log trace]. rewrite Ht. cbn [sent log trace]. now rewrite <- !app_assoc.
Qed.

Lemma read_failure_propagates_witness :
  fst (send_request_and_receive (text "10.0.0.2") 4433 [(text "cmd", JStr (text "get.x"))] 10
         (World 0 (Some [RxData x05 [x00; x00; x00; "{"%byte]; RxFail]) []))
  = Raise OSError.
Proof.
  exact (proj1 (proj2 (read_failure_propagates (text "10.0.0.2") 4433 10
                         [(text "cmd", JStr (text "get.x"))]
                         (World 0 (Some [RxData x05 [x00; x00; x00; "{"%byte]; RxFail]) [])
                         _ _ eq_refl eq_refl eq_refl))
               [x05; x00; x00; x00] (blit "{") 5 eq_refl eq_refl ltac:(simpl; lia)).
Defined.

(** ** More on the request builder *)



(** X15. A command outside [set.*] uses neither the account, nor the
    password, nor the salt, nor the timestamp: the call is the exchange
    of the request that holds "cmd" and, when one is given, "param". *)
Theorem read_command_ignores_credentials (host : str) (port : Z)
    (account account_password cmd : str) (param : json) (salt : option str)
    (ts : option Z) (timeout : Z) (w : world) :
  startswith cmd (text "set.") = false ->
  call_whatsminer host port account account_password cmd param salt ts timeout w
  = send_request_and_receive host port
      (if is_none param then [(text "cmd", JStr cmd)]
       else [(text "cmd", JStr cmd); (text "param", param)]) timeout w
  /\ forall account' account_password' salt' ts',
       call_whatsminer host port account' account_password' cmd param salt' ts' timeout w
       = call_whatsminer host port account account_password cmd param salt ts timeout w.
Proof.
  intros H.
  assert (Hc : forall a p s t,
             call_whatsminer host port a p cmd param s t timeout w
             = send_request_and_receive host port
                 (if is_none param then [(text "cmd", JStr cmd)]
                  else [(text "cmd", JStr cmd); (text "param", param)]) timeout w).
  { intros a p s t. apply call_whatsminer_built. now rewrite build_request_get. }
  split; [apply Hc|]. intros a p s t. now rewrite !Hc.
Qed.

Lemma read_command_ignores_credentials_witness :
  call_whatsminer (text "10.0.0.2") 4433 (text "admin") (text "secret")
                  (text "get.device.info") (JStr (text "salt")) (Some (text "s")) (Some 5%Z)
                  10 quiet_world
  = call_whatsminer (text "10.0.0.2") 4433 (text "super") (text "passw0rd")
                    (text "get.device.info") (JStr (text "salt")) None None 10 quiet_world.
Proof.
  exact (proj2 (read_command_ignores_credentials (text "10.0.0.2") 4433 (text "super")
                  (text "passw0rd") (text "get.device.info") (JStr (text "salt")) None None
                  10 quiet_world eq_refl)
               (text "admin") (text "secret") (Some (text "s")) (Some 5%Z)).
Defined.

(** ** Encrypted parameters on the ASCII wire *)

Lemma ascii_basestring (s : str) :
  forallb (fun c => c <? 0x80) s = true ->
  forallb (fun c => c <? 0x80) (encode_basestring s) = true.
Proof.
  intros H. unfold encode_basestring. cbn [forallb]. rewrite forallb_app.
  cbn [forallb]. replace (34 <? 0x80) with true by reflexivity. cbn [andb].
  rewrite andb_true_r.
  induction s as [|c s IH]; [reflexivity|]. cbn [forallb flat_map] in *.
  apply andb_prop in H as [Hc Hs]. now rewrite forallb_app, escape_char_ascii, IH.
Qed.

Lemma ascii_uint (u : Decimal.uint) : forallb (fun c => c <? 0x80) (uint_digits u) = true.
Proof. induction u; cbn; auto. Qed.

Lemma ascii_int (z : Z) : forallb (fun c => c <? 0x80) (str_of_int z) = true.
Proof. unfold str_of_int. destruct (Z.to_int z); cbn; apply ascii_uint. Qed.

Lemma ascii_b64_text (s : str) :
  forallb b64_text s = true -> forallb (fun c => c <? 0x80) s = true.
Proof.
  induction s as [|c s IH]; [reflexivity|]. cbn [forallb]. intros H.
  apply andb_prop in H as [Hc Hs]. apply b64_text_ascii in Hc.
  rewrite (IH Hs). replace (c <? 0x80) with true by (symmetry; apply N.ltb_lt; lia).
  reflexivity.
Qed.

Lemma forallb_firstn {A} (f : A -> bool) (n : nat) (l : list A) :
  forallb f l = true -> forallb f (firstn n l) = true.
Proof.
  revert l. induction n as [|n IH]; intros [|x l]; cbn; try reflexivity.
  intros H. apply andb_prop in H as [-> Hl]. now rewrite IH.
Qed.

(** X16. For a command of the encrypted set with an ASCII account
    name, nothing is lost on the ASCII wire: the frame is the text of
    the request, the peer reads the request back from it, and its
    "param" decrypts to the serialization of the parameter with every
    character outside ASCII in place. *)
Theorem encrypted_request_on_the_wire (account account_password cmd : str) (param : json)
    (salt : str) (ts : option Z) (w : world) (request : list (str * json)) :
  existsb (str_eqb cmd) _ENCRYPTED_COMMANDS = true ->
  forallb (fun c => c <? 0x80) account = true ->
  fst (build_request account account_password cmd param (Some salt) ts w) = Ok request ->
  decode_ascii (request_frame request) = Ok (dumps (JDict request))
  /\ loads (decode_utf8_ignore (request_frame request)) = Ok (JDict request)
  /\ exists encoded token key plain,
       generate_token cmd account_password salt (effective_ts ts w) = Ok (token, key)
       /\ dict_get (text "param") request = Some (JStr encoded)
       /\ decrypt_param encoded key = Ok plain
       /\ decode_utf8_ignore plain = dumps param.
Proof.
  intros Henc Hacc H. destruct (encrypted_command cmd Henc) as [Hset _].
  assert (Hcmd : forallb (fun c => c <? 0x80) cmd = true).
  { cbn [existsb _ENCRYPTED_COMMANDS] in Henc. rewrite orb_false_r in Henc.
    apply orb_prop in Henc as [E|E]; apply str_eqb_eq in E; subst; reflexivity. }
  rewrite build_request_set in H by assumption. cbn [fst] in H.
  destruct (generate_token_cases cmd account_password salt (effective_ts ts w))
    as [(data & _ & _ & Hg) | [Hg _]]; rewrite Hg in H; [|discriminate].
  rewrite Henc in H. destruct (is_none param); [discriminate|].
  destruct (encode_utf8_cases (dumps param)) as [(plain & Hd & _) | [Hd _]].
  2:{ unfold encrypt_param_aes_ecb_base64 in H. rewrite Hd in H. discriminate. }
  destruct (encrypt_param_ok param (SHA256.sha256 data) plain (sha256_length data) Hd)
    as (p & ct & _ & _ & _ & He & Hdec).
  rewrite He in H. apply Ok_inj in H. subst request. cbn [app].
  set (token := firstn 8 (map Byte.to_N (b64encode (SHA256.sha256 data)))) in *.
  set (enc := map Byte.to_N (b64encode ct)) in *.
  assert (Ha : forallb (fun c => c <? 0x80)
                 (dumps (JDict [(text "cmd", JStr cmd);
                                (text "ts", JInt (effective_ts ts w));
                                (text "token", JStr token); (text "account", JStr account);
                                (text "param", JStr enc)])) = true).
  { rewrite dumps_dict. cbn [dumps_pairs dumps forallb].
    assert (Htok : forallb (fun c => c <? 0x80) token = true).
    { apply forallb_firstn, ascii_b64_text, b64encode_text_str. }
    assert (Henc' : forallb (fun c => c <? 0x80) enc = true).
    { apply ascii_b64_text, b64encode_text_str. }
    repeat (rewrite forallb_app; cbn [forallb]).
    rewrite !ascii_basestring by (assumption || reflexivity).
    rewrite ascii_int. reflexivity. }
  destruct (frame_of_ascii _ Ha) as [H1 H2].
  split; [exact H1|]. split.
  - rewrite H2. apply loads_dumps. reflexivity.
  - exists enc, token, (SHA256.sha256 data), plain.
    split; [exact Hg|]. split; [reflexivity|]. split; [exact Hdec|].
    now apply decode_utf8_encode.
Qed.

Lemma encrypted_request_on_the_wire_witness :
  exists request,
    fst (build_request (text "super") (text "password") (text "set.miner.pools")
           (JDict [(text "user", JStr [0x442; 0x435; 0x441; 0x442])])
           (Some (text "salty")) (Some 1111%Z) quiet_world) = Ok request
    /\ decode_ascii (request_frame request) = Ok (dumps (JDict request)).
Proof.
  eexists. split; [vm_compute; reflexivity|].
  refine (proj1 (encrypted_request_on_the_wire (text "super") (text "password")
                   (text "set.miner.pools")
                   (JDict [(text "user", JStr [0x442; 0x435; 0x441; 0x442])])
                   (text "salty") (Some 1111%Z) quiet_world _ eq_refl eq_refl _)).
  vm_compute. reflexivity.
Defined.

(** ** Scalars from the command line *)

Lemma lstrip_head (space : N -> bool) (c : N) (t : str) :
  space c = false -> lstrip space (c :: t) = c :: t.
Proof. intros H. cbn [lstrip]. now rewrite H. Qed.

Lemma lstrip_spaces (space : N -> bool) (a s : str) :
  forallb space a = true -> lstrip space (a ++ s) = lstrip space s.
Proof.
  induction a as [|c a IH]; [reflexivity|]. cbn [forallb app lstrip]. intros H.
  apply andb_prop in H as [-> Ha]. now apply IH.
Qed.

Lemma lstrip_all_spaces (space : N -> bool) (a : str) :
  forallb space a = true -> lstrip space a = [].
Proof. intros H. rewrite <- (app_nil_r a). now rewrite lstrip_spaces. Qed.

(** Either the whole text is whitespace, or stripping stops inside it. *)
Lemma lstrip_cases (space : N -> bool) (s : str) :
  forallb space s = true
  \/ exists a c t, s = a ++ c :: t /\ forallb space a = true /\ space c = false
                   /\ lstrip space s = c :: t.
Proof.
  induction s as [|c s IH]; [now left|]. cbn [forallb lstrip].
  destruct (space c) eqn:Hc.
  - destruct IH as [H | (a & d & t & -> & Ha & Hd & E)]; [now left|].
    right. exists (c :: a), d, t. cbn [forallb app]. now rewrite Hc, Ha.
  - right. exists [], c, s. auto.
Qed.

Lemma lstrip_app (space : N -> bool) (s b : str) :
  forallb space s = false -> lstrip space (s ++ b) = lstrip space s ++ b.
Proof.
  intros H. destruct (lstrip_cases space s) as [E | (a & c & t & -> & Ha & Hc & E)];
    [congruence|].
  rewrite E, <- app_assoc, lstrip_spaces by assumption. cbn [app lstrip]. now rewrite Hc.
Qed.

Lemma forallb_rev_true {A} (f : A -> bool) (l : list A) :
  forallb f l = true -> forallb f (rev l) = true.
Proof.
  intros H. apply forallb_forall. intros x Hx. apply in_rev in Hx.
  now apply (proj1 (forallb_forall f l) H).
Qed.

Lemma rstrip_spaces (space : N -> bool) (s b : str) :
  forallb space b = true -> rstrip space (s ++ b) = rstrip space s.
Proof.
  intros H. unfold rstrip. rewrite rev_app_distr, lstrip_spaces; [reflexivity|].
  now apply forallb_rev_true.
Qed.

Lemma strip_spaces (a s b : str) :
  forallb is_space a = true -> forallb is_space b = true ->
  strip (a ++ s ++ b) = strip s.
Proof.
  intros Ha Hb. unfold strip. rewrite lstrip_spaces by assumption.
  destruct (forallb is_space s) eqn:Hs.
  - rewrite (lstrip_all_spaces _ (s ++ b)) by (now rewrite forallb_app, Hs, Hb).
    now rewrite (lstrip_all_spaces _ s).
  - rewrite lstrip_app by assumption. now apply rstrip_spaces.
Qed.

Lemma rstrip_last (space : N -> bool) (s : str) (c : N) :
  space c = false -> rstrip space (s ++ [c]) = s ++ [c].
Proof.
  intros H. unfold rstrip. rewrite rev_app_distr. cbn [rev app lstrip].
  rewrite H. cbn [rev]. now rewrite rev_involutive.
Qed.

Lemma strip_clean (s : str) :
  forallb (fun c => negb (is_space c)) s = true -> strip s = s.
Proof.
  intros H. unfold strip. destruct s as [|c t]; [reflexivity|].
  assert (Hc : is_space c = false).
  { cbn [forallb] in H. apply andb_prop in H as [Hc _]. now apply negb_true_iff in Hc. }
  rewrite (lstrip_head _ c t Hc).
  destruct (exists_last (l := c :: t) ltac:(discriminate)) as (s' & d & E).
  rewrite E in *. rewrite forallb_app in H. apply andb_prop in H as [_ Hd].
  cbn [forallb] in Hd. rewrite andb_true_r in Hd. apply negb_true_iff in Hd.
  now apply rstrip_last.
Qed.

Lemma lower_clean (s : str) :
  forallb (fun c => negb ((65 <=? c) && (c <=? 90))) s = true -> lower s = s.
Proof.
  induction s as [|c s IH]; [reflexivity|]. cbn [forallb lower map]. intros H.
  apply andb_prop in H as [Hc Hs]. apply negb_true_iff in Hc. rewrite Hc.
  f_equal. now apply IH.
Qed.

Lemma scan_int_digit (c : N) (acc : Z) (n : nat) (s : str) :
  is_digit c = true ->
  scan_int 10 false acc n (c :: s)
  = scan_int 10 false (acc * 10 + Z.of_N (c - 48)) (S n) s.
Proof.
  intros H.
  destruct (digit_cases c H) as [-> | [-> | [-> | [-> | [-> | [-> | [-> | [-> | [-> | ->]]]]]]]]];
    reflexivity.
Qed.

Lemma scan_int_uint (u : Decimal.uint) :
  forall (acc : Z) (n : nat),
    scan_int 10 false acc n (uint_digits u)
    = Some (horner acc u, (n + List.length (uint_digits u))%nat, []).
Proof.
  induction u; intros acc n; cbn [uint_digits horner List.length];
    try (rewrite scan_int_digit by reflexivity; simpl (Z.of_N _); rewrite IHu;
         now rewrite Nat.add_succ_r).
  cbn [scan_int]. now rewrite Nat.add_0_r.
Qed.

Lemma py_int_digit (c : N) (t : str) :
  is_digit c = true ->
  py_int 10 (c :: t)
  = match scan_int 10 false 0 0 (c :: t) with
    | None => None
    | Some (n, digits, rest) =>
        if (digits =? 0)%nat then None
        else if (MAX_STR_DIGITS <? digits)%nat then None
        else match lstrip is_c_space rest with
             | [] => Some n
             | _ :: _ => None
             end
    end.
Proof.
  intros H.
  destruct (digit_cases c H) as [-> | [-> | [-> | [-> | [-> | [-> | [-> | [-> | [-> | ->]]]]]]]]];
    try reflexivity.
  destruct t as [|x r]; reflexivity.
Qed.

Lemma py_int_minus (c : N) (t : str) :
  is_digit c = true ->
  py_int 10 (45 :: c :: t)
  = match scan_int 10 false 0 0 (c :: t) with
    | None => None
    | Some (n, digits, rest) =>
        if (digits =? 0)%nat then None
        else if (MAX_STR_DIGITS <? digits)%nat then None
        else match lstrip is_c_space rest with
             | [] => Some (- n)%Z
             | _ :: _ => None
             end
    end.
Proof.
  intros H.
  destruct (digit_cases c H) as [-> | [-> | [-> | [-> | [-> | [-> | [-> | [-> | [-> | ->]]]]]]]]];
    try reflexivity.
  destruct t as [|x r]; reflexivity.
Qed.

Lemma uint_digits_nonempty (p : positive) :
  exists c t, uint_digits (Pos.to_uint p) = c :: t /\ is_digit c = true /\ c <> 48.
Proof. apply uint_digits_head. Qed.

(** [int(str(z)) == z], up to the digit limit. *)
Lemma py_int_str_of_int (z : Z) :
  (List.length (str_of_int z) <= MAX_STR_DIGITS)%nat ->
  py_int 10 (str_of_int z) = Some z.
Proof.
  intros Hl. destruct z as [|p|p]; unfold str_of_int in *; cbn [Z.to_int] in *.
  - reflexivity.
  - pose proof (scan_int_uint (Pos.to_uint p) 0 0) as Hs. rewrite horner_to_uint in Hs.
    destruct (uint_digits_head p) as (c & t & E & Hc & _). rewrite E in *.
    rewrite (py_int_digit c t Hc), Hs. cbn [Nat.add].
    replace (_ <? _)%nat with false by (symmetry; apply Nat.ltb_ge; exact Hl).
    reflexivity.
  - pose proof (scan_int_uint (Pos.to_uint p) 0 0) as Hs. rewrite horner_to_uint in Hs.
    destruct (uint_digits_head p) as (c & t & E & Hc & _). rewrite E in *.
    rewrite (py_int_minus c t Hc), Hs. cbn [Nat.add].
    replace (_ <? _)%nat with false
      by (symmetry; apply Nat.ltb_ge; cbn [List.length] in *; lia).
    reflexivity.
Qed.

Lemma forallb_weaken {A} (f g : A -> bool) (l : list A) :
  (forall x, f x = true -> g x = true) -> forallb f l = true -> forallb g l = true.
Proof.
  intros Hfg H. apply forallb_forall. intros x Hx.
  apply Hfg. now apply (proj1 (forallb_forall f l) H).
Qed.

Lemma int_chars_uint (u : Decimal.uint) : forallb int_char (uint_digits u) = true.
Proof. induction u; cbn; auto. Qed.

Lemma int_chars (z : Z) : forallb int_char (str_of_int z) = true.
Proof. unfold str_of_int. destruct (Z.to_int z); cbn; apply int_chars_uint. Qed.

Lemma int_char_cases (c : N) :
  int_char c = true ->
  c = 45 \/ c = 48 \/ c = 49 \/ c = 50 \/ c = 51 \/ c = 52 \/ c = 53 \/ c = 54 \/ c = 55
  \/ c = 56 \/ c = 57.
Proof.
  unfold int_char. intros H. apply orb_prop in H as [H|H].
  - right. now apply digit_cases.
  - left. now apply N.eqb_eq.
Qed.

Ltac int_char_facts c H :=
  destruct (int_char_cases c H)
    as [-> | [-> | [-> | [-> | [-> | [-> | [-> | [-> | [-> | [-> | ->]]]]]]]]]];
  reflexivity.

Lemma str_of_int_0x (z : Z) (x : N) :
  x = 120 \/ x = 88 -> startswith (str_of_int z) [48; x] = false.
Proof.
  intros Hx. pose proof (int_chars z) as H.
  destruct (str_of_int z) as [|c [|d t]]; try reflexivity.
  - cbn [startswith]. now rewrite andb_false_r.
  - cbn [forallb] in H. apply andb_prop in H as [_ H]. apply andb_prop in H as [Hd _].
    cbn [startswith]. replace (d =? x) with false; [now rewrite andb_false_r|].
    symmetry. apply N.eqb_neq. intros ->.
    destruct Hx as [-> | ->]; discriminate.
Qed.

Lemma int_text_not_keyword (s k : str) :
  forallb int_char s = true -> forallb int_char k = false -> str_eqb s k = false.
Proof.
  intros Hs Hk. destruct (str_eqb s k) eqn:E; [|reflexivity].
  apply str_eqb_eq in E. congruence.
Qed.

Lemma parse_scalar_str_of_int (z : Z) :
  (List.length (str_of_int z) <= MAX_STR_DIGITS)%nat ->
  parse_scalar (Some (str_of_int z)) = Ok (JInt z).
Proof.
  intros Hl. pose proof (int_chars z) as Hc. unfold parse_scalar.
  replace (is_ascii (str_of_int z)) with true.
  2:{ symmetry. apply (forallb_weaken int_char); [|assumption].
      intros c H. int_char_facts c H. }
  cbn [negb]. rewrite strip_clean.
  2:{ apply (forallb_weaken int_char); [|assumption]. intros c H. int_char_facts c H. }
  rewrite lower_clean.
  2:{ apply (forallb_weaken int_char); [|assumption]. intros c H. int_char_facts c H. }
  rewrite !(int_text_not_keyword (str_of_int z)) by (assumption || reflexivity).
  cbn [orb].
  change (text "0x") with [48; 120]. change (text "0X") with [48; 88].
  rewrite !str_of_int_0x by auto. cbn [orb].
  now rewrite py_int_str_of_int.
Qed.

Lemma parse_scalar_spaces (a s b : str) :
  forallb is_space a = true -> forallb is_space b = true ->
  parse_scalar (Some (a ++ s ++ b)) = parse_scalar (Some s).
Proof.
  intros Ha Hb. unfold parse_scalar.
  assert (Hasc : forall l, forallb is_space l = true -> is_ascii l = true).
  { intros l. apply forallb_weaken. intros c H. unfold is_space in H.
    apply N.ltb_lt. apply orb_prop in H as [H|H]; apply andb_prop in H as [_ H];
      apply N.leb_le in H; lia. }
  unfold is_ascii in *. rewrite !forallb_app, (Hasc a Ha), (Hasc b Hb), andb_true_r.
  cbn [andb]. now rewrite strip_spaces.
Qed.

(** X17. An integer typed as a scalar comes back as that integer:
    [parse_scalar(str(n)) == n] for every [int] whose text stays within
    the digit limit of [int()], with any whitespace around it. *)
Theorem parse_scalar_int_roundtrip (z : Z) (before after : str) :
  forallb is_space before = true -> forallb is_space after = true ->
  (List.length (str_of_int z) <= MAX_STR_DIGITS)%nat ->
  parse_scalar (Some (before ++ str_of_int z ++ after)) = Ok (JInt z).
Proof.
  intros Ha Hb Hl. rewrite parse_scalar_spaces by assumption.
  now apply parse_scalar_str_of_int.
Qed.

Lemma parse_scalar_int_roundtrip_witness :
  parse_scalar (Some (text " " ++ str_of_int (-3200) ++ [10])) = Ok (JInt (-3200)).
Proof.
  exact (parse_scalar_int_roundtrip (-3200) (text " ") [10] eq_refl eq_refl
           ltac:(vm_compute; lia)).
Defined.

(** X18. Whitespace around a scalar never matters to [parse_scalar],
    and a text of nothing but whitespace is the empty string. *)
Theorem parse_scalar_ignores_whitespace (before s after : str) :
  forallb is_space before = true -> forallb is_space after = true ->
  parse_scalar (Some (before ++ s ++ after)) = parse_scalar (Some s)
  /\ parse_scalar (Some before) = Ok (JStr []).
Proof.
  intros Ha Hb. split; [now apply parse_scalar_spaces|].
  pose proof (parse_scalar_spaces before [] [] Ha eq_refl) as H.
  cbn [app] in H. rewrite app_nil_r in H. exact H.
Qed.

Lemma parse_scalar_ignores_whitespace_witness :
  parse_scalar (Some ([9; 32] ++ text "TRUE" ++ [13; 10; 28]))
  = parse_scalar (Some (text "TRUE")).
Proof.
  exact (proj1 (parse_scalar_ignores_whitespace [9; 32] (text "TRUE") [13; 10; 28]
                  eq_refl eq_refl)).
Defined.

Lemma hex_cases (c : N) :
  is_hex c = true ->
  (is_digit c = true)
  \/ c = 97 \/ c = 98 \/ c = 99 \/ c = 100 \/ c = 101 \/ c = 102
  \/ c = 65 \/ c = 66 \/ c = 67 \/ c = 68 \/ c = 69 \/ c = 70.
Proof.
  unfold is_hex, hex_value. destruct (is_digit c); [now left|]. right.
  destruct (N.leb_spec 97 c), (N.leb_spec c 102); cbn [andb] in *; [lia| | |];
    destruct (N.leb_spec 65 c), (N.leb_spec c 70); cbn [andb] in *;
    try discriminate; lia.
Qed.

Ltac hex_facts c H :=
  let D := fresh in
  destruct (hex_cases c H)
    as [D | [-> | [-> | [-> | [-> | [-> | [-> | [-> | [-> | [-> | [-> | [-> | ->]]]]]]]]]]]];
  [destruct (digit_cases c D)
      as [-> | [-> | [-> | [-> | [-> | [-> | [-> | [-> | [-> | ->]]]]]]]]]|..];
  reflexivity.

Lemma scan_int_hex (h : str) :
  forallb is_hex h = true ->
  forall (acc : Z) (n : nat),
    scan_int 16 false acc n h
    = Some (fold_left (fun acc c => (acc * 16 + Z.of_N (match hex_value c with
                                                         | Some d => d
                                                         | None => 0
                                                         end))%Z) h acc,
            (n + List.length h)%nat, []).
Proof.
  induction h as [|c h IH]; intros H acc n.
  - cbn. now rewrite Nat.add_0_r.
  - cbn [forallb] in H. apply andb_prop in H as [Hc Hh].
    cbn [fold_left List.length scan_int].
    replace (c =? 95) with false by (symmetry; hex_facts c Hc).
    unfold digit_of. unfold is_hex in Hc.
    destruct (hex_value c) as [d|] eqn:E; [|discriminate].
    assert (Hd16 : (d <? 16) = true).
    { clear - E. unfold hex_value in E.
      destruct (is_digit c) eqn:Hd.
      { injection E as <-. unfold is_digit in Hd.
        apply andb_prop in Hd as [H1 H2]. apply N.leb_le in H1, H2. apply N.ltb_lt. lia. }
      destruct (N.leb_spec 97 c), (N.leb_spec c 102); cbn [andb] in E;
        try (injection E as <-; apply N.ltb_lt; lia);
        destruct (N.leb_spec 65 c), (N.leb_spec c 70); cbn [andb] in E;
        try discriminate; injection E as <-; apply N.ltb_lt; lia. }
    rewrite Hd16, (IH Hh). now rewrite Nat.add_succ_r.
Qed.

Lemma strip_clean_with (space : N -> bool) (s : str) :
  forallb (fun c => negb (space c)) s = true -> rstrip space (lstrip space s) = s.
Proof.
  intros H. destruct s as [|c t]; [reflexivity|].
  assert (Hc : space c = false).
  { cbn [forallb] in H. apply andb_prop in H as [Hc _]. now apply negb_true_iff in Hc. }
  rewrite (lstrip_head _ c t Hc).
  destruct (exists_last (l := c :: t) ltac:(discriminate)) as (s' & d & E).
  rewrite E in *. rewrite forallb_app in H. apply andb_prop in H as [_ Hd].
  cbn [forallb] in Hd. rewrite andb_true_r in Hd. apply negb_true_iff in Hd.
  now apply rstrip_last.
Qed.

Lemma existsb_none {A} (f : A -> bool) (l : list A) :
  forallb (fun x => negb (f x)) l = true -> existsb f l = false.
Proof.
  induction l as [|x l IH]; [reflexivity|]. cbn. intros H.
  apply andb_prop in H as [Hx Hl]. apply negb_true_iff in Hx. now rewrite Hx, IH.
Qed.

Lemma py_int_16_prefix (x c : N) (t : str) :
  x = 120 \/ x = 88 -> is_hex c = true ->
  py_int 16 (48 :: x :: c :: t)
  = match scan_int 16 false 0 0 (c :: t) with
    | None => None
    | Some (n, digits, rest) =>
        if (digits =? 0)%nat then None
        else match lstrip is_c_space rest with
             | [] => Some n
             | _ :: _ => None
             end
    end.
Proof.
  intros [-> | ->] H; hex_facts c H.
Qed.

Lemma hex_text_facts (h : str) :
  forallb is_hex h = true ->
  is_ascii h = true
  /\ forallb (fun c => negb (is_space c)) h = true
  /\ forallb (fun c => negb (is_c_space c)) h = true
  /\ forallb (fun c => negb (95 =? c)) h = true.
Proof.
  intros H. repeat split; apply (forallb_weaken is_hex); try assumption;
    intros c Hc; hex_facts c Hc.
Qed.

(** X19. A scalar that starts with [0x] or [0X] and goes on with
    hexadecimal digits is read in base 16; with a minus sign in front
    it is no number for [parse_scalar] and stays the text it is. *)
Theorem parse_scalar_hex (c : N) (h : str) :
  forallb is_hex (c :: h) = true ->
  parse_scalar (Some (text "0x" ++ c :: h)) = Ok (JInt (hex_number (c :: h)))
  /\ parse_scalar (Some (text "0X" ++ c :: h)) = Ok (JInt (hex_number (c :: h)))
  /\ parse_scalar (Some (text "-0x" ++ c :: h)) = Ok (JStr (text "-0x" ++ c :: h))
  /\ parse_scalar (Some (text "-0X" ++ c :: h)) = Ok (JStr (text "-0X" ++ c :: h)).
Proof.
  intros H. destruct (hex_text_facts _ H) as (Ha & Hs & Hcs & Hu).
  assert (Hc : is_hex c = true) by (cbn [forallb] in H; now apply andb_prop in H as [Hc _]).
  assert (Hpos : forall x, x = 120 \/ x = 88 ->
             parse_scalar (Some (48 :: x :: c :: h)) = Ok (JInt (hex_number (c :: h)))).
  { intros x Hx. unfold parse_scalar.
    replace (is_ascii (48 :: x :: c :: h)) with true
      by (unfold is_ascii in *; cbn [forallb] in *; destruct Hx as [-> | ->]; now rewrite Ha).
    cbn [negb]. rewrite strip_clean
      by (cbn [forallb] in *; destruct Hx as [-> | ->]; now rewrite Hs).
    replace (startswith (48 :: x :: c :: h) (text "0x")
             || startswith (48 :: x :: c :: h) (text "0X")) with true
      by (destruct Hx as [-> | ->]; reflexivity).
    rewrite (py_int_16_prefix x c h Hx Hc), (scan_int_hex _ H). reflexivity. }
  assert (Hneg : forall x, x = 120 \/ x = 88 ->
             parse_scalar (Some (45 :: 48 :: x :: c :: h))
             = Ok (JStr (45 :: 48 :: x :: c :: h))).
  { intros x Hx. unfold parse_scalar.
    replace (is_ascii (45 :: 48 :: x :: c :: h)) with true
      by (unfold is_ascii in *; cbn [forallb] in *; destruct Hx as [-> | ->]; now rewrite Ha).
    cbn [negb]. rewrite strip_clean
      by (cbn [forallb] in *; destruct Hx as [-> | ->]; now rewrite Hs).
    replace (py_int 10 (45 :: 48 :: x :: c :: h)) with (@None Z).
    2:{ rewrite py_int_minus by reflexivity. rewrite scan_int_digit by reflexivity.
        destruct Hx as [-> | ->]; reflexivity. }
    replace (float_accepts (45 :: 48 :: x :: c :: h)) with false.
    2:{ unfold float_accepts. rewrite strip_clean_with
          by (cbn [forallb] in *; destruct Hx as [-> | ->]; now rewrite Hcs).
        rewrite existsb_none
          by (cbn [forallb] in *; destruct Hx as [-> | ->]; now rewrite Hu).
        destruct Hx as [-> | ->]; reflexivity. }
    reflexivity. }
  repeat split; [apply Hpos | apply Hpos | apply Hneg | apply Hneg]; auto.
Qed.

Lemma parse_scalar_hex_witness :
  parse_scalar (Some (text "0x" ++ text "1F")) = Ok (JInt (hex_number (text "1F")))
  /\ parse_scalar (Some (text "-0x" ++ text "1F")) = Ok (JStr (text "-0x" ++ text "1F")).
Proof.
  destruct (parse_scalar_hex 49 (text "F") eq_refl) as (H1 & _ & H3 & _).
  split; [exact H1 | exact H3].
Defined.

(** ** Files and parameters *)













Lemma parse_scalar_no_raise (value : option str) (e : exn) :
  parse_scalar value <> Raise e.
Proof.
  unfold parse_scalar. destruct value as [s|]; [|discriminate].
  destruct (negb _); [discriminate|].
  destruct (str_eqb _ _); [discriminate|].
  destruct (str_eqb _ _); [discriminate|].
  destruct (_ || _); [discriminate|].
  destruct (_ || _); destruct (py_int _ _); try discriminate;
    destruct (float_accepts _); discriminate.
Qed.



Lemma parse_scalar_null (s : str) :
  is_ascii s = true ->
  lower (strip s) = text "null" \/ lower (strip s) = text "none" ->
  parse_scalar (Some s) = Ok JNull.
Proof.
  intros Ha H. unfold parse_scalar. rewrite Ha. cbn [negb].
  destruct H as [-> | ->]; reflexivity.
Qed.

(** X23. A JSON null cannot be sent as a parameter: no request that
    [call_whatsminer] builds carries "param": null, and a parameter
    resolved from the scalar [null] or [none] (in any case, with any
    whitespace around) or from the JSON text [null] leaves the request
    without the key "param". *)
Theorem null_is_no_param (account account_password cmd : str) (param : json)
    (salt : option str) (ts : option Z) (w : world) (request : list (str * json)) :
  fst (build_request account account_password cmd param salt ts w) = Ok request ->
  dict_get (text "param") request <> Some JNull
  /\ (param = JNull -> dict_has (text "param") request = false)
  /\ (forall s param_json param_file fs,
         is_ascii s = true ->
         lower (strip s) = text "null" \/ lower (strip s) = text "none" ->
         resolve_param_inputs (Some s) param_json param_file fs = Returns param ->
         dict_has (text "param") request = false)
  /\ (forall param_file fs,
         resolve_param_inputs None (Some (text "null")) param_file fs = Returns param ->
         dict_has (text "param") request = false).
Proof.
  intros H.
  assert (Hcore : dict_get (text "param") request <> Some JNull
                  /\ (param = JNull -> dict_has (text "param") request = false)).
  { destruct (startswith cmd (text "set.")) eqn:Hset.
    - rewrite build_request_set in H by assumption. cbn [fst] in H.
      destruct salt as [s|]; [|discriminate].
      destruct (generate_token _ _ _ _) as [[token key]| |]; try discriminate.
      destruct (existsb _ _); destruct (is_none param) eqn:Hn; try discriminate.
      + destruct (encrypt_param_aes_ecb_base64 _ _) as [enc| |]; try discriminate.
        apply Ok_inj in H. subst request. split; [discriminate|].
        intros ->. discriminate.
      + apply Ok_inj in H. subst request. split; [discriminate | reflexivity].
      + apply Ok_inj in H. subst request. split.
        * cbn. intros E. injection E as ->. discriminate.
        * intros ->. discriminate.
    - rewrite build_request_get in H by assumption. cbn [fst] in H.
      destruct (is_none param) eqn:Hn; apply Ok_inj in H; subst request.
      + split; [discriminate | reflexivity].
      + split.
        * cbn. intros E. injection E as ->. discriminate.
        * intros ->. discriminate. }
  destruct Hcore as [H1 H2]. split; [exact H1|]. split; [exact H2|]. split.
  - intros s pj pf fs Ha Hk Hr. apply H2. unfold resolve_param_inputs in Hr.
    rewrite (parse_scalar_null s Ha Hk) in Hr. now injection Hr as <-.
  - intros pf fs Hr. apply H2. cbv in Hr. now injection Hr as <-.
Qed.

Lemma null_is_no_param_witness :
  dict_has (text "param") [(text "cmd", JStr (text "get.miner.status"))] = false.
Proof.
  exact (proj1 (proj2 (proj2 (null_is_no_param (text "super") (text "passw0rd")
                                (text "get.miner.status") JNull None None quiet_world
                                [(text "cmd", JStr (text "get.miner.status"))] eq_refl)))
               (text " NULL ") None None [] eq_refl (or_introl eq_refl) eq_refl).
Defined.

(** ** The command line *)

Lemma guarded_codes (label : string) (body : T unit) (s : session) :
  fst (guarded label body s) = Returns 0%Z
  \/ fst (guarded label body s) = Returns 1%Z
  \/ fst (guarded label body s) = NotModelled.
Proof.
  unfold guarded. destruct (body s) as [[u|e|] s']; cbn [fst]; auto.
Qed.

Lemma settings_of_dict (args : arguments) (d : list (str * json)) :
  exists host port account password,
    settings args (JDict d) = Some (host, port, account, password)
    /\ (is_none host = true <-> missing_setting (of_str (arg_host args)) (text "host") d)
    /\ (is_none password = true
        <-> missing_setting (of_str (arg_password args)) (text "password") d).
Proof.
  assert (Hor : forall (a : option str) key,
             exists v, or_conf (of_str a) (JDict d) key = Some v
                       /\ (is_none v = true <-> missing_setting (of_str a) key d)).
  { intros a key. unfold or_conf, missing_setting, get.
    destruct a as [[|c t]|]; cbn [of_str truthy].
    - destruct (dict_get key d) as [v|]; eexists; (split; [reflexivity|]).
      + rewrite is_none_null. split; [intros ->; auto|].
        intros [_ [H|H]]; congruence.
      + split; auto.
    - eexists. split; [reflexivity|]. split; [discriminate|]. intros [H _]. discriminate.
    - destruct (dict_get key d) as [v|]; eexists; (split; [reflexivity|]).
      + rewrite is_none_null. split; [intros ->; auto|].
        intros [_ [H|H]]; congruence.
      + split; auto. }
  unfold settings.
  destruct (Hor (arg_host args) (text "host")) as (host & -> & Hh).
  destruct (Hor (arg_password args) (text "password")) as (password & Hp & Hpw).
  assert (Hget : forall x key, exists v, or_conf x (JDict d) key = Some v).
  { intros x key. unfold or_conf, get. destruct (truthy x); eauto. }
  destruct (Hget (of_int (arg_port args)) (text "port")) as (port & ->).
  destruct (Hget (of_str (arg_login args)) (text "login")) as (account & ->).
  rewrite Hp. eauto 10.
Qed.

(** X24. [main] returns 2 exactly when the host or the password is
    missing: the command line gives none (or an empty one) and the
    configuration has no such key or has [null] there. It then has
    made no connection. An empty string in the configuration does not
    count as missing. *)
Theorem exit_code_2 (args : arguments) (s : session) (d : list (str * json)) :
  load_miner_conf (config args) (files s) = Ok (JDict d) ->
  (fst (main args s) = Returns 2%Z
   <-> missing_setting (of_str (arg_host args)) (text "host") d
       \/ missing_setting (of_str (arg_password args)) (text "password") d)
  /\ (fst (main args s) = Returns 2%Z ->
      wire (snd (main args s)) = wire s
      /\ connections (snd (main args s)) = connections s).
Proof.
  intros Hc. unfold main. rewrite Hc.
  destruct (settings_of_dict args d) as (host & port & account & password & -> & Hh & Hp).
  destruct (is_none host || is_none password) eqn:Hm.
  - cbn [fst snd wire connections]. split; [|auto].
    split; [intros _|reflexivity].
    apply orb_prop in Hm as [Hm|Hm]; [left; now apply Hh | right; now apply Hp].
  - assert (Hno : ~ (missing_setting (of_str (arg_host args)) (text "host") d
                     \/ missing_setting (of_str (arg_password args)) (text "password") d)).
    { apply orb_false_elim in Hm as [H1 H2].
      intros [H|H]; [apply Hh in H | apply Hp in H]; congruence. }
    assert (Hnot2 : fst (match host, port, account, password with
                         | JStr host, JInt port, JStr account, JStr password =>
                             if negb (plain_endpoint host port (arg_timeout args))
                             then (NotModelled, s)
                             else
                               match arg_action args with
                               | GetSalt param =>
                                   guarded "Error:"
                                     (get_salt host port account password param
                                               (arg_timeout args)) s
                               | Call cmd param param_json param_file salt ts show_request
                                      save_response =>
                                   match resolve_param_inputs param param_json param_file
                                                              (files s) with
                                   | Raises e => (Raises (ParamError e), s)
                                   | NotModelled => (NotModelled, s)
                                   | Returns param_obj =>
                                       guarded "Error while calling API:"
                                         (call_body host port account password cmd param_obj
                                            salt ts show_request save_response
                                            (arg_timeout args)) s
                                   end
                               end
                         | _, _, _, _ => (NotModelled, s)
                         end) <> Returns 2%Z).
    { destruct host, port, account, password; cbn [fst]; try discriminate.
      destruct (negb _); cbn [fst]; [discriminate|].
      destruct (arg_action args).
      - match goal with
        | |- fst (guarded ?l ?b ?s) <> _ =>
            destruct (guarded_codes l b s) as [E|[E|E]]; rewrite E; discriminate
        end.
      - destruct (resolve_param_inputs _ _ _ _); cbn [fst]; try discriminate.
        match goal with
        | |- fst (guarded ?l ?b ?s) <> _ =>
            destruct (guarded_codes l b s) as [E|[E|E]]; rewrite E; discriminate
        end. }
    split; [|intros H; now destruct (Hnot2 H)].
    split; [intros H; now destruct (Hnot2 H) | intros H; now destruct (Hno H)].
Qed.

Lemma exit_code_2_witness :
  fst (main (Arguments (text "miner-conf.json") (Some (text "10.0.0.2")) None None None 10
                       (GetSalt (text "salt")))
            (Session 1700000000 [] []
                     [(text "miner-conf.json",
                       Regular (blit "{" ++ [x22] ++ blit "password" ++ [x22] ++ blit ":null}"))]
                     []))
  = Returns 2%Z.
Proof.
  refine (proj2 (proj1 (exit_code_2
                   (Arguments (text "miner-conf.json") (Some (text "10.0.0.2")) None None None
                              10 (GetSalt (text "salt")))
                   (Session 1700000000 [] []
                      [(text "miner-conf.json",
                        Regular (blit "{" ++ [x22] ++ blit "password" ++ [x22]
                                 ++ blit ":null}"))] [])
                   [(text "password", JNull)] eq_refl)) _).
  right. split; [reflexivity | right; reflexivity].
Defined.

(** X25. What leaves [main]: an exit code 0, 1 or 2, or an exception
    of the configuration file (its reading, or a content that is no
    object where a setting is looked up) or of the parameter sources.
    Such an exception is raised before anything is printed or sent. *)
Theorem main_outcomes (args : arguments) (s : session) :
  (forall code, fst (main args s) = Returns code -> code = 0%Z \/ code = 1%Z \/ code = 2%Z)
  /\ (forall e,
         fst (main args s) = Raises e ->
         snd (main args s) = s
         /\ match e with
            | ConfigError e' => load_miner_conf (config args) (files s) = Raise e'
            | ConfigNotObject =>
                exists conf,
                  load_miner_conf (config args) (files s) = Ok conf
                  /\ settings args conf = None
                  /\ forall d, conf <> JDict d
            | ParamError e' =>
                exists cmd param param_json param_file salt ts show_request save_response,
                  arg_action args
                  = Call cmd param param_json param_file salt ts show_request save_response
                  /\ resolve_param_inputs param param_json param_file (files s) = Raises e'
            end).
Proof.
  unfold main.
  destruct (load_miner_conf (config args) (files s)) as [conf|e0|] eqn:Hc.
  2:{ split; [discriminate|]. intros e H. cbn [fst] in H. injection H as <-. auto. }
  2:{ split; discriminate. }
  destruct (settings args conf) as [[[[host port] account] password]|] eqn:Hs.
  2:{ split; [discriminate|]. intros e H. cbn [fst] in H. injection H as <-.
      split; [reflexivity|]. exists conf. repeat split; auto.
      intros d ->. destruct (settings_of_dict args d) as (h & p & a & pw & E & _).
      congruence. }
  destruct (is_none host || is_none password).
  { split; [|discriminate]. intros code H. cbn [fst] in H. injection H as <-. auto. }
  destruct host, port, account, password; try (split; discriminate).
  destruct (negb _); [split; discriminate|].
  destruct (arg_action args) as [param|cmd param pj pf salt ts sr sv] eqn:Ha.
  - match goal with
    | |- context [guarded ?l ?b ?s] =>
        destruct (guarded_codes l b s) as [E|[E|E]]; rewrite E
    end; (split; [|discriminate]); intros code H; try discriminate;
      injection H as <-; auto.
  - destruct (resolve_param_inputs param pj pf (files s)) as [v|e1|] eqn:Hr.
    + match goal with
      | |- context [guarded ?l ?b ?s] =>
          destruct (guarded_codes l b s) as [E|[E|E]]; rewrite E
      end; (split; [|discriminate]); intros code H; try discriminate;
        injection H as <-; auto.
    + split; [discriminate|]. intros e H. cbn [fst] in H. injection H as <-.
      split; [reflexivity|]. repeat eexists. exact Hr.
    + split; discriminate.
Qed.

Lemma main_outcomes_witness :
  snd (main (Arguments (text "miner-conf.json") (Some (text "10.0.0.2")) None None
                       (Some (text "passw0rd")) 10
                       (Call (text "set.miner.pools") None (Some (text "{")) None None None
                             false None))
            (Session 1700000000 [Some []] [] [] []))
  = Session 1700000000 [Some []] [] [] [].
Proof.
  exact (proj1 (proj2 (main_outcomes
                         (Arguments (text "miner-conf.json") (Some (text "10.0.0.2")) None None
                                    (Some (text "passw0rd")) 10
                                    (Call (text "set.miner.pools") None (Some (text "{")) None
                                          None None false None))
                         (Session 1700000000 [Some []] [] [] []))
                 (ParamError BadParamJson) eq_refl)).
Defined.

Lemma exchange_ok_trace (host : str) (port timeout : Z) (req : list (str * json))
    (w : world) (v : json) :
  fst (send_request_and_receive host port req timeout w) = Ok v ->
  exists prefix reads,
    trace (snd (send_request_and_receive host port req timeout w))
    = trace w ++ [Connect host port timeout; Send prefix; Send (request_frame req)]
              ++ reads ++ [Close]
    /\ forallb is_recv reads = true.
Proof.
  intros H. destruct (peer w) as [evs|] eqn:Hp.
  2:{ rewrite (exchange_unreachable host port req timeout w Hp) in H. discriminate. }
  destruct (pack_u32_le_cases (N.of_nat (List.length (request_frame req))))
    as [[prefix Hk] | Hk].
  2:{ rewrite (exchange_too_long host port req timeout w evs Hp Hk) in H. discriminate. }
  rewrite (exchange_connected host port timeout req w evs prefix Hp Hk). cbn [snd].
  destruct (receive_response_trace (sent host port timeout prefix (request_frame req) w) evs Hp)
    as (l & Ht & Hl).
  exists prefix, l. split; [|exact Hl].
  cbn [log trace]. rewrite Ht. cbn [sent log trace]. now rewrite <- !app_assoc.
Qed.

Lemma read_call (host : str) (port : Z) (account password cmd : str) (param : json)
    (timeout : Z) (w : world) :
  startswith cmd (text "set.") = false ->
  call_whatsminer host port account password cmd param None None timeout w
  = send_request_and_receive host port
      (if is_none param then [(text "cmd", JStr cmd)]
       else [(text "cmd", JStr cmd); (text "param", param)]) timeout w.
Proof.
  intros H. apply call_whatsminer_built. now rewrite build_request_get.
Qed.

Lemma on_network_done {A} (m : M A) (s : session) (a : A) (w' : world) (l : list net_event) :
  m (World (now s) (hd None (connections s)) (wire s)) = (Ok a, w') ->
  trace w' = wire s ++ l -> existsb is_connect l = true ->
  on_network m s
  = (Done a, Session (now s) (tl (connections s)) (trace w') (files s) (console s)).
Proof.
  intros Hm Ht Hc. unfold on_network. rewrite Hm, Ht.
  rewrite skipn_app, Nat.sub_diag, skipn_all. cbn [app skipn]. now rewrite Hc.
Qed.

(** The exchange that asks the device for its salt. *)
Lemma salt_exchange (host : str) (port : Z) (account password : str) (timeout : Z)
    (s : session) (info : json) (w1 : world) :
  call_whatsminer host port account password (text "get.device.info")
                  (JStr (text "salt")) None None timeout
                  (World (now s) (hd None (connections s)) (wire s)) = (Ok info, w1) ->
  on_network (call_whatsminer host port account password (text "get.device.info")
                              (JStr (text "salt")) None None timeout) s
  = (Done info, Session (now s) (tl (connections s)) (trace w1) (files s) (console s))
  /\ exists prefix reads,
       trace w1
       = wire s ++ [Connect host port timeout; Send prefix;
                    Send (request_frame [(text "cmd", JStr (text "get.device.info"));
                                         (text "param", JStr (text "salt"))])]
                ++ reads ++ [Close]
       /\ forallb is_recv reads = true.
Proof.
  intros H. pose proof H as H'. rewrite read_call in H' by reflexivity. cbn [is_none] in H'.
  destruct (exchange_ok_trace host port timeout _ _ info (f_equal fst H'))
    as (prefix & reads & Ht & Hr).
  rewrite H' in Ht. cbn [snd trace] in Ht.
  split; [|eauto].
  eapply on_network_done; [exact H | exact Ht | reflexivity].
Qed.

(** X26. A [set.*] command that comes without a salt (or with an
    empty one) first asks the device: when the reply to
    [get.device.info] holds a non-empty string under "msg"."salt", the
    run goes on exactly as if that salt had been given on the command
    line, on the next connection; the first connection carried the
    request for the salt and nothing else. *)
Theorem salt_is_fetched (host : str) (port : Z) (account password cmd : str)
    (param_obj : json) (salt : option str) (ts : option Z) (show_request : bool)
    (save_response : option str) (timeout : Z) (s : session) (info : json) (w1 : world)
    (msg : list (str * json)) (fetched : str) :
  startswith cmd (text "set.") = true ->
  truthy (of_str salt) = false ->
  call_whatsminer host port account password (text "get.device.info")
                  (JStr (text "salt")) None None timeout (world_of s) = (Ok info, w1) ->
  get info (text "msg") = Some (JDict msg) ->
  dict_get (text "salt") msg = Some (JStr fetched) ->
  fetched <> [] -> encodable fetched = true ->
  call_body host port account password cmd param_obj salt ts show_request save_response
            timeout s
  = call_body host port account password cmd param_obj (Some fetched) ts show_request
              save_response timeout
              (Session (now s) (tl (connections s)) (trace w1) (files s)
                       (console s ++ [Notice "Fetching salt from get.device.info ...";
                                      ObtainedSalt fetched]))
  /\ exists prefix reads,
       trace w1
       = wire s ++ [Connect host port timeout; Send prefix;
                    Send (request_frame [(text "cmd", JStr (text "get.device.info"));
                                         (text "param", JStr (text "salt"))])]
                ++ reads ++ [Close]
       /\ forallb is_recv reads = true.
Proof.
  intros Hset Hsalt Hcall Hmsg Hs Hne Henc. unfold world_of in Hcall.
  assert (Hcall' :
            call_whatsminer host port account password (text "get.device.info")
              (JStr (text "salt")) None None timeout
              (World (now s) (hd None (connections s))
                     (wire (Session (now s) (connections s) (wire s) (files s)
                                    (console s ++ [Notice "Fetching salt from get.device.info ..."]))))
            = (Ok info, w1)) by exact Hcall.
  destruct (salt_exchange host port account password timeout
              (Session (now s) (connections s) (wire s) (files s)
                       (console s ++ [Notice "Fetching salt from get.device.info ..."]))
              info w1 Hcall') as [Hnet Htrace].
  split; [|exact Htrace].
  assert (Hf : fetched = [] -> False) by exact Hne.
  unfold call_body at 1. unfold fetch_salt. rewrite Hset, Hsalt. cbn [andb negb].
  unfold tbind at 1. unfold tbind at 1. unfold tbind at 1. unfold say at 1.
  rewrite Hnet. rewrite Hmsg, Hs.
  replace (truthy (JStr fetched)) with true by (destruct fetched; [contradiction | reflexivity]).
  unfold tbind at 1. unfold print_out at 1. unfold tbind at 1. unfold say at 1.
  rewrite Henc. cbn [tdone now connections wire files console].
  rewrite <- app_assoc. cbn [app].
  unfold call_body, fetch_salt.
  replace (truthy (of_str (Some fetched))) with true
    by (destruct fetched; [contradiction | reflexivity]).
  rewrite andb_false_r. unfold tbind at 2. reflexivity.
Qed.

Lemma salt_is_fetched_witness :
  exists s1,
    call_body (text "10.0.0.2") 4433 (text "super") (text "passw0rd")
              (text "set.miner.power") (JInt 3200) None (Some 1111%Z) false None 10
              (Session 1700000000
                 [Some [RxData x15 [x00; x00; x00];
                        RxData "{"%byte (map byte_of_N (jtext "'msg':{'salt':'ab'}}"))];
                  None] [] [] [])
    = call_body (text "10.0.0.2") 4433 (text "super") (text "passw0rd")
                (text "set.miner.power") (JInt 3200) (Some (text "ab")) (Some 1111%Z) false
                None 10 s1
    /\ connections s1 = [None].
Proof.
  eexists. split.
  - refine (proj1 (salt_is_fetched (text "10.0.0.2") 4433 (text "super") (text "passw0rd")
                     (text "set.miner.power") (JInt 3200) None (Some 1111%Z) false None 10
                     (Session 1700000000
                        [Some [RxData x15 [x00; x00; x00];
                               RxData "{"%byte
                                      (map byte_of_N (jtext "'msg':{'salt':'ab'}}"))];
                         None] [] [] [])
                     _ _ [(text "salt", JStr (text "ab"))] (text "ab")
                     eq_refl eq_refl _ _ eq_refl _ eq_refl)).
    + vm_compute. reflexivity.
    + reflexivity.
    + discriminate.
  - reflexivity.
Defined.

Lemma on_network_refused {A} (m : M A) (s : session) (e : exn) :
  m (World (now s) (hd None (connections s)) (wire s))
  = (Raise e, World (now s) (hd None (connections s)) (wire s)) ->
  on_network m s = (Caught (Exn e), s).
Proof.
  intros Hm. unfold on_network. rewrite Hm. cbn [trace].
  rewrite skipn_all. cbn [existsb]. now destruct s.
Qed.

(** X27. When the device offers no salt (its reply is an object
    without a non-empty "msg"."salt"), a [set.*] command that came
    without [--salt] is not sent: the run ends in the validation error
    of the salt after the one connection that asked for it, and [main]
    returns 1. With an empty [--salt] the command is sent all the
    same, its token derived from the empty salt. *)
Theorem salt_not_offered (host : str) (port : Z) (account password cmd : str)
    (param_obj : json) (ts : option Z) (save_response : option str) (timeout : Z)
    (s : session) (info : list (str * json)) (w1 : world) :
  startswith cmd (text "set.") = true ->
  call_whatsminer host port account password (text "get.device.info")
                  (JStr (text "salt")) None None timeout (world_of s) = (Ok (JDict info), w1) ->
  (forall msg salt, dict_get (text "msg") info = Some (JDict msg) ->
                    dict_get (text "salt") msg = Some salt -> truthy salt = false) ->
  let s1 := Session (now s) (tl (connections s)) (trace w1) (files s)
              (console s ++ [Notice "Fetching salt from get.device.info ...";
                             Warning "Warning: Could not obtain salt automatically; please supply --salt"]) in
  call_body host port account password cmd param_obj None ts false save_response timeout s
  = (Caught (Exn (ValueError SaltRequired)), s1)
  /\ fst (guarded "Error while calling API:"
            (call_body host port account password cmd param_obj None ts false save_response
                       timeout) s) = Returns 1%Z
  /\ call_body host port account password cmd param_obj (Some []) ts false save_response
               timeout s
     = (resp <- on_network (call_whatsminer host port account password cmd param_obj
                                            (Some []) ts timeout) ;;
        print_json resp ;;
        if truthy (of_str save_response) then tbeyond else tdone tt)%try s1
  /\ exists prefix reads,
       trace w1
       = wire s ++ [Connect host port timeout; Send prefix;
                    Send (request_frame [(text "cmd", JStr (text "get.device.info"));
                                         (text "param", JStr (text "salt"))])]
                ++ reads ++ [Close]
       /\ forallb is_recv reads = true.
Proof.
  intros Hset Hcall Hno s1. unfold world_of in Hcall.
  assert (Hcall' :
            call_whatsminer host port account password (text "get.device.info")
              (JStr (text "salt")) None None timeout
              (World (now s) (hd None (connections s))
                     (wire (Session (now s) (connections s) (wire s) (files s)
                                    (console s ++ [Notice "Fetching salt from get.device.info ..."]))))
            = (Ok (JDict info), w1)) by exact Hcall.
  destruct (salt_exchange host port account password timeout
              (Session (now s) (connections s) (wire s) (files s)
                       (console s ++ [Notice "Fetching salt from get.device.info ..."]))
              (JDict info) w1 Hcall') as [Hnet Htrace].
  assert (Hfetch : forall salt,
             truthy (of_str salt) = false ->
             fetch_salt host port account password cmd salt timeout s = (Done salt, s1)).
  { intros salt Hsalt. unfold fetch_salt. rewrite Hset, Hsalt. cbn [andb negb].
    unfold tbind at 1. unfold say at 1. unfold tbind at 1. rewrite Hnet.
    cbn [get].
    assert (Hwarn : (say (Warning "Warning: Could not obtain salt automatically; please supply --salt") ;;
                     tdone salt)%try
                      (Session (now s) (tl (connections s)) (trace w1) (files s)
                               (console s ++ [Notice "Fetching salt from get.device.info ..."]))
                    = (Done salt, s1)).
    { unfold tbind, say, tdone. cbn [now connections wire files console].
      unfold s1. now rewrite <- app_assoc. }
    destruct (dict_get (text "msg") info) as [[| | | | |msg]|] eqn:Hm; try exact Hwarn.
    destruct (dict_get (text "salt") msg) as [v|] eqn:Hv; [|exact Hwarn].
    rewrite (Hno msg v eq_refl Hv). exact Hwarn. }
  assert (Hfail : call_body host port account password cmd param_obj None ts false
                            save_response timeout s
                  = (Caught (Exn (ValueError SaltRequired)), s1)).
  { unfold call_body. unfold tbind at 1. rewrite (Hfetch None eq_refl).
    unfold tbind at 1. unfold tdone at 1. unfold tbind at 1.
    rewrite (on_network_refused _ s1 (ValueError SaltRequired)); [reflexivity|].
    unfold call_whatsminer, bind. now rewrite build_request_set. }
  split; [exact Hfail|]. split; [unfold guarded; now rewrite Hfail|].
  split; [|exact Htrace].
  unfold call_body. unfold tbind at 1. rewrite (Hfetch (Some []) eq_refl).
  unfold tbind at 1. reflexivity.
Qed.

Lemma salt_not_offered_witness :
  fst (guarded "Error while calling API:"
         (call_body (text "10.0.0.2") 4433 (text "super") (text "passw0rd")
                    (text "set.miner.power") (JInt 3200) None None false None 10)
         (Session 1700000000 [Some [RxData x00 [x00; x00; x00]]; Some []] [] [] []))
  = Returns 1%Z.
Proof.
  refine (proj1 (proj2 (salt_not_offered (text "10.0.0.2") 4433 (text "super")
                          (text "passw0rd") (text "set.miner.power") (JInt 3200) None None 10
                          (Session 1700000000 [Some [RxData x00 [x00; x00; x00]]; Some []]
                                   [] [] [])
                          [] _ eq_refl _ _))).
  - vm_compute. reflexivity.
  - discriminate.
Defined.
